(** * ReproZip: the archive packer, the containerexec replay executor and
      the VisTrails plugin

    A shallow embedding of [reprozip/pack.py], of
    [reprounzip/unpackers/containerexec/default.py] and of
    [reprounzip/plugins/vistrails.py], with the properties their
    specification states about them and further properties of the code.

    Definitions:
    - [Posix]: the [os.path] functions the packer calls and a flat model
      of the file system (paths as spelled, symbolic links followed the
      way [stat] does);
    - [Pack]: [pack], with its effects on the file system, its errors and
      its link-following loop (fuel stands for loop iterations);
    - [ContainerExec]: [containerexec_run] and the upload and download
      actions;
    - [PackSpec], [PackExamples], [ContainerExecExamples]: what the
      properties are stated with, and concrete experiments;
    - [ContainerExecSpec], [PackSpec2], [PackExamples2]: the same for the
      further properties;
    - [Vistrails]: [escape_xml], [IdScope], [split_sig], [Workflow], the
      workflow [do_vistrails] writes and [run_from_vistrails];
    - [VistrailsSpec], [VistrailsExamples]: what its properties are stated
      with, and a concrete experiment.

    Properties: [PackFacts] and [ContainerExecFacts]; then
    [ContainerExecMore], [PackMore], [VistrailsFacts] and
    [WorkflowFacts]. *)

From Stdlib Require Import ZArith Ascii String.
From stdpp Require Import gmap strings list fin_maps pretty sorting.

(** The line feed, which string literals cannot spell. *)
Definition nl : string := String (ascii_of_nat 10) EmptyString.

(** The Python exceptions the two programs raise. [SystemExit] carries the
    exit status and what went to stderr with it; [OSError] and
    [BenchExecException] what they are about. *)
Inductive exn : Type :=
| SystemExit (code : Z) (stderr_msg : string)
| ConfigError
| UsageError
| OSError (about : string)
| BenchExecException (msg : string)
| AttributeError
| IndexError
| TypeError.

(* ===================================================================== *)
(** * File system and paths *)
(* ===================================================================== *)

Module Posix.

(** What a path can name. A regular file holds bytes or, for the file the
    packer writes, a gzip'ed tar stream, kept as the list of its members
    and whether the stream was closed. A member is the name it is stored
    under and the node [lstat] found at the time it was added. *)
Inductive node : Type :=
| Reg (c : content)
| Lnk (target : string)
| Dir
with content : Type :=
| Bytes (s : string)
| TarGz (closed : bool) (members : list member)
with member : Type :=
| Member (arcname : string) (data : node).

Definition m_arcname (m : member) : string :=
  match m with Member a _ => a end.


(** The file system: a finite map from paths, as spelled, to nodes. *)
Abbreviation FS := (gmap string node).

Definition slash : ascii := "/"%char.

Definition is_slash (c : ascii) : bool := Ascii.eqb c slash.

(** [s.startswith('/')] *)
Definition startswith_sep (s : string) : bool :=
  match s with
  | String c _ => is_slash c
  | EmptyString => false
  end.

(** [s.endswith('/')] *)
Fixpoint endswith_sep (s : string) : bool :=
  match s with
  | EmptyString => false
  | String c EmptyString => is_slash c
  | String _ r => endswith_sep r
  end.

(** [posixpath.join(a, b)]:
<<
    if b.startswith(sep): path = b
    elif not path or path.endswith(sep): path += b
    else: path += sep + b
>> *)
Definition join (a b : string) : string :=
  if startswith_sep b then b
  else if orb (String.eqb a "") (endswith_sep a) then a +:+ b
  else a +:+ "/" +:+ b.

Fixpoint drop_while (f : ascii -> bool) (l : list ascii) : list ascii :=
  match l with
  | [] => []
  | c :: r => if f c then drop_while f r else l
  end.

(** [posixpath.dirname(p)]:
<<
    i = p.rfind(sep) + 1
    head = p[:i]
    if head and head != sep*len(head): head = head.rstrip(sep)
>>
    computed on the reversed list of characters. *)
Definition dirname (p : string) : string :=
  let rhead := drop_while (fun c => negb (is_slash c))
                          (rev (list_ascii_of_string p)) in
  if forallb is_slash rhead then string_of_list_ascii rhead
  else string_of_list_ascii (rev (drop_while is_slash rhead)).

(** [s.lstrip('/')], which [tarfile] applies to member names. *)
Fixpoint lstrip_sep (s : string) : string :=
  match s with
  | String c r => if is_slash c then lstrip_sep r else s
  | EmptyString => EmptyString
  end.

(** [os.lstat]: the node at the path itself. *)
Definition lstat (fs : FS) (p : string) : option node := fs !! p.

(** [os.path.islink] *)
Definition islink (fs : FS) (p : string) : bool :=
  match lstat fs p with
  | Some (Lnk _) => true
  | _ => false
  end.

(** [os.readlink] *)
Definition readlink (fs : FS) (p : string) : option string :=
  match lstat fs p with
  | Some (Lnk t) => Some t
  | _ => None
  end.

(** The kernel follows at most this many links in one lookup and then
    answers ELOOP. *)
Definition MAXSYMLINKS : nat := 40.

(** Where a lookup that follows links ends: the first path of the chain
    that is not a link (it may name nothing), a relative target being read
    from the directory of the link. [None] is ELOOP. *)
Fixpoint resolve (n : nat) (fs : FS) (p : string) : option string :=
  match lstat fs p with
  | Some (Lnk t) =>
      match n with
      | O => None
      | S n' => resolve n' fs (join (dirname p) t)
      end
  | _ => Some p
  end.

(** [os.stat] *)
Definition stat (fs : FS) (p : string) : option node :=
  match resolve MAXSYMLINKS fs p with
  | Some q => lstat fs q
  | None => None
  end.

(** [os.path.exists]: false for a missing path and for a broken link. *)
Definition exists_ (fs : FS) (p : string) : bool :=
  match stat fs p with
  | Some _ => true
  | None => false
  end.

(** [os.path.isfile] *)
Definition isfile (fs : FS) (p : string) : bool :=
  match stat fs p with
  | Some (Reg _) => true
  | _ => false
  end.

End Posix.

(* ===================================================================== *)
(** * The packer: reprozip/pack.py *)
(* ===================================================================== *)

Module Pack.
Import Posix.

(** The calls to [logging] leave the file system alone and are left
    out. *)

(** The records [load_config] hands to [pack]; of a file only [f.path] is
    read, of a package [pkg.name], [pkg.packfiles] and [pkg.files]. *)
Record File := { path : string }.

Record Package := {
  name : string;
  packfiles : bool;
  files : list File
}.

(** [pack] raises [SystemExit] ([sys.exit(1)] after a message on stderr),
    [ConfigError] (the exception of [load_config] on an invalid
    configuration) and [OSError] (a file-system call, on the path it could
    not use). *)

(** The outcome of a computation on the file system: a value and the new
    file system, an exception and the file system it leaves, or no outcome
    within the iterations allowed to the link-following loop. *)
Inductive res (A : Type) : Type :=
| Done (a : A) (fs : FS)
| Fail (e : exn) (fs : FS)
| Timeout.

Arguments Done {A} a fs.
Arguments Fail {A} e fs.
Arguments Timeout {A}.

Definition M (A : Type) : Type := FS -> res A.

Definition ret {A} (a : A) : M A := fun fs => Done a fs.

Definition raise {A} (e : exn) : M A := fun fs => Fail e fs.

Definition bind {A B} (m : M A) (k : A -> M B) : M B :=
  fun fs =>
    match m fs with
    | Done a fs' => k a fs'
    | Fail e fs' => Fail e fs'
    | Timeout => Timeout
    end.

Notation "'let!' x ':=' m 'in' k" := (bind m (fun x => k))
  (at level 10, x name, m at level 100, k at level 200).
Notation "'do!' m 'in' k" := (bind m (fun _ => k))
  (at level 10, m at level 100, k at level 200).

(** [try: body finally: cleanup] *)
Definition try_finally {A} (body : M A) (cleanup : M unit) : M A :=
  fun fs =>
    match body fs with
    | Done a fs' => (do! cleanup in ret a) fs'
    | Fail e fs' => (do! cleanup in raise e) fs'
    | Timeout => Timeout
    end.

(** [for x in l: body(acc, x)] *)
Fixpoint for_each {A S} (body : S -> A -> M S) (l : list A) (acc : S) : M S :=
  match l with
  | [] => ret acc
  | x :: r => let! acc' := body acc x in for_each body r acc'
  end.

(** ** Files *)

(** [open(p, 'wb')] followed by [write(data)] and close, on a path that is
    not a link. *)
Definition write_file (p : string) (data : string) : M unit :=
  fun fs => Done tt (<[p := Reg (Bytes data)]> fs).

(** [os.remove(p)] *)
Definition remove (p : string) : M unit :=
  fun fs =>
    match lstat fs p with
    | Some _ => Done tt (delete p fs)
    | None => Fail (OSError p) fs
    end.

(** [tempfile.mkstemp]: creates an empty file under a name that named
    nothing before; the name it picks is [manifest], an input of [pack]. *)
Definition mkstemp (manifest : string) : M string :=
  fun fs => Done manifest (<[manifest := Reg (Bytes "")]> fs).

(** ** The tarfile object *)

(** An open [tarfile.TarFile]: the file it writes to and the members it
    was given so far. Every member is written through to the file. *)
Record TarFile := {
  tf_name : string;
  tf_members : list member
}.

(** [tarfile.open(target, 'w:gz')]: creates or truncates the file the
    path leads to, or raises [OSError] and creates nothing. The file
    system is flat: the directories above a file and the permissions are
    not in it, so whether the operating system lets the file at a path be
    created or truncated (its directory exists and can be written to) is
    asked of [creatable], which stands for the operating system. *)
Definition tarfile_open (creatable : FS -> string -> bool) (target : string)
    : M TarFile :=
  fun fs =>
    match resolve MAXSYMLINKS fs target with
    | None => Fail (OSError target) fs
    | Some q =>
        match lstat fs q with
        | Some Dir => Fail (OSError target) fs
        | _ =>
            if creatable fs q
            then Done {| tf_name := q; tf_members := [] |}
                      (<[q := Reg (TarGz false [])]> fs)
            else Fail (OSError target) fs
        end
    end.

(** [tar.add(name, arcname)]: one request to store what [name] names
    (without following a link) under [arcname] stripped of leading
    slashes; [OSError] when [name] names nothing. The archive is kept at
    the level of these requests: a member stands for all that [tarfile]
    makes of one request (for a directory, the directory and what is
    below it; nothing for the archive itself or a socket). *)
Definition tar_add (tar : TarFile) (name_ arcname : string) : M TarFile :=
  fun fs =>
    match lstat fs name_ with
    | None => Fail (OSError name_) fs
    | Some nd =>
        let ms := tf_members tar ++ [Member (lstrip_sep arcname) nd] in
        Done {| tf_name := tf_name tar; tf_members := ms |}
             (<[tf_name tar := Reg (TarGz false ms)]> fs)
    end.

(** [tar.close()] *)
Definition tar_close (tar : TarFile) : M unit :=
  fun fs => Done tt (<[tf_name tar := Reg (TarGz true (tf_members tar))]> fs).

(** ** pack *)

Definition version_marker : string := "REPROZIP VERSION 1" +:+ nl.

Definition msg_target_exists : string := "Error: Target file exists!" +:+ nl.

Definition msg_no_config : string :=
  "Error: Configuration file does not exist!" +:+ nl +:+
  "Did you forget to run 'reprozip trace'?" +:+ nl +:+
  "If not, you might want to use --dir to specify an " +:+
  "alternate location." +:+ nl.

(** Lines 59-63:
<<
    while os.path.islink(t):
        t = os.path.join(os.path.dirname(t), os.readlink(t))
        tar.add(t)
>>
    [fuel] bounds the iterations the model may take; the loop itself has
    no bound. *)
Fixpoint add_links (fuel : nat) (tar : TarFile) (t : string) : M TarFile :=
  fun fs =>
    if islink fs t then
      match fuel with
      | O => Timeout
      | S fuel' =>
          match readlink fs t with
          | None => Fail (OSError t) fs
          | Some l =>
              let t' := join (dirname t) l in
              (let! tar' := tar_add tar t' t' in add_links fuel' tar' t') fs
          end
      end
    else Done tar fs.

(** Lines 56-63, the body of [for f in pkg.files]. *)
Definition add_file (fuel : nat) (tar : TarFile) (f : File) : M TarFile :=
  let t := path f in
  let! tar' := tar_add tar t t in
  add_links fuel tar' t.

(** Lines 53-65, the body of [for pkg in packages]. *)
Definition add_package (fuel : nat) (tar : TarFile) (pkg : Package) : M TarFile :=
  if packfiles pkg then for_each (add_file fuel) (files pkg) tar
  else ret tar.

(** Lines 69-71, the body of [for f in other_files]. *)
Definition add_other (tar : TarFile) (f : File) : M TarFile :=
  tar_add tar (path f) (path f).

(** Lines 34-41: the version marker goes through a temporary file. *)
Definition add_version (manifest : string) (tar : TarFile) : M TarFile :=
  let! manifest := mkstemp manifest in
  try_finally
    (do! write_file manifest version_marker in
     tar_add tar manifest "METADATA/version")
    (remove manifest).

(** Lines 46-49: the trace, when there is one. *)
Definition add_trace (directory : string) (tar : TarFile) : M TarFile :=
  fun fs =>
    let trace := join directory "trace.sqlite3" in
    if isfile fs trace
    then tar_add tar trace "METADATA/trace.sqlite3" fs
    else Done tar fs.

(** Lines 43-71: the configuration, the trace, the files of the packages
    and the other files. *)
Definition add_members (fuel : nat) (directory configfile : string)
    (packages : list Package) (other_files : list File) (tar : TarFile)
    : M TarFile :=
  let! tar := tar_add tar configfile "METADATA/config.yml" in
  let! tar := add_trace directory tar in
  let! tar := for_each (add_package fuel) packages tar in
  for_each add_other other_files tar.

(** Lines 29-73: all that follows [load_config]. *)
Definition pack_body (creatable : FS -> string -> bool) (fuel : nat)
    (manifest target directory : string)
    (configfile : string) (packages : list Package) (other_files : list File)
    : M unit :=
  let! tar := tarfile_open creatable target in
  let! tar := add_version manifest tar in
  let! tar := add_members fuel directory configfile packages other_files tar in
  tar_close tar.

Section WithConfig.

(** [reprozip.tracer.common.load_config] is outside the sources at hand:
    it is taken as it is used, a function from what the configuration
    file holds to runs, packages and other files, or to an error. *)
Variable Runs : Type.
Variable load_config : content -> option (Runs * list Package * list File).

(** The operating system, asked by [tarfile_open]. *)
Variable creatable : FS -> string -> bool.

(** What [open(configfile)] reads: the regular file the path leads to. *)
Definition read_file (fs : FS) (p : string) : option content :=
  match stat fs p with
  | Some (Reg c) => Some c
  | _ => None
  end.

(** [pack(target, directory)], the entry point of the subcommand. *)
Definition pack (fuel : nat) (manifest target directory : string) : M unit :=
  fun fs =>
    if exists_ fs target then Fail (SystemExit 1 msg_target_exists) fs
    else
      let configfile := join directory "config.yml" in
      if negb (isfile fs configfile) then Fail (SystemExit 1 msg_no_config) fs
      else
        match option_bind _ _ load_config (read_file fs configfile) with
        | None => Fail ConfigError fs
        | Some (_, packages, other_files) =>
            pack_body creatable fuel manifest target directory configfile
                      packages other_files fs
        end.

End WithConfig.

End Pack.

(* ===================================================================== *)
(** * The replay executor: reprounzip/unpackers/containerexec/default.py *)
(* ===================================================================== *)

Module ContainerExec.

(** A run of the configuration, with the keys [containerexec_run] reads;
    [environ] is a dictionary, iterated in its order. *)
Record Run := {
  workingdir : string;
  environ : list (string * string);
  uid : Z;
  gid : Z;
  binary : string;
  argv : list string
}.

(** The parsed command line: [args.target[0]], [args.run], [args.cmdline],
    [args.x11] and [args.x11_display]. *)
Record Args := {
  a_target : string;
  a_run : option string;
  a_cmdline : option (list string);
  a_x11 : bool;
  a_x11_display : option string
}.

(** Modelled from the spec: the result of [execute_run], which the absent
    [containerexecutor] returns. It "carries either a normal exit code or a
    terminating-signal number (never both)"; the field that does not apply
    is [None]. *)
Inductive RunResult : Type :=
| Exited (code : Z)
| Signaled (signum : Z).

Definition value (r : RunResult) : option Z :=
  match r with
  | Exited c => Some c
  | Signaled _ => None
  end.

Definition signal (r : RunResult) : option Z :=
  match r with
  | Exited _ => None
  | Signaled s => Some s
  end.

(** Modelled from the spec: the state kept beside an unpacked root by the
    absent [reprounzip.unpackers.common], "mapping from run index to
    executed flag, mapping from input-file name to last-substituted local
    path (or restored-original)". *)
Record ReplayState := {
  executed : gmap nat bool;
  input_files : gmap string (option string)
}.

(** Modelled from the spec: the absent [metadata_update_run], which
    "marks given indices executed; leaves all others untouched". *)
Definition metadata_update_run (st : ReplayState) (selected_runs : list nat)
    : ReplayState :=
  {| executed := foldr (fun i m => <[i := true]> m) (executed st) selected_runs;
     input_files := input_files st |}.

(** The request [ContainerExecutor(uid, gid).execute_run(cmds, workingDir,
    setup_reprounzip)] makes. *)
Record Invocation := {
  i_cmds : string;
  i_uid : Z;
  i_gid : Z;
  i_workingDir : string;
  i_setup_reprounzip : bool
}.

Inductive outcome (A : Type) : Type :=
| Return (a : A)
| Raise (e : exn).

Arguments Return {A} a.
Arguments Raise {A} e.

Inductive hook : Type :=
| pre_run (target : string)
| post_run (target : string) (retcode : option Z).

(** What the actions can touch: the files (the isolated roots and the
    local file system), the sidecar of each unpacked directory, the log,
    stderr, the [signals] hooks fired, the signals routed to
    [executor.stop] and the requests made to the executor. *)
Record World := {
  files : gmap string Posix.node;
  sidecars : gmap string ReplayState;
  log : list string;
  stderr : list string;
  hooks : list hook;
  handlers : list Z;
  invocations : list Invocation
}.

Definition W (A : Type) : Type := World -> outcome A * World.

Definition ret_w {A} (a : A) : W A := fun w => (Return a, w).

Definition raise_w {A} (e : exn) : W A := fun w => (Raise e, w).

Definition bind_w {A B} (m : W A) (k : A -> W B) : W B :=
  fun w =>
    match m w with
    | (Return a, w') => k a w'
    | (Raise e, w') => (Raise e, w')
    end.

Notation "'let!' x ':=' m 'in' k" := (bind_w m (fun x => k))
  (at level 10, x name, m at level 100, k at level 200).
Notation "'do!' m 'in' k" := (bind_w m (fun _ => k))
  (at level 10, m at level 100, k at level 200).

Definition lift {A} (o : outcome A) : W A := fun w => (o, w).

Definition ask {A} (f : World -> outcome A) : W A := fun w => (f w, w).

(** [try: body except (BenchExecException, OSError) as e: handler(e)] *)
Definition try_except {A} (body : W A) (handler : string -> W A) : W A :=
  fun w =>
    match body w with
    | (Raise (BenchExecException e), w') => handler e w'
    | (Raise (OSError e), w') => handler e w'
    | r => r
    end.

Definition logging_info (msg : string) : W unit :=
  fun w =>
    (Return tt,
     {| files := files w; sidecars := sidecars w; log := log w ++ [msg];
        stderr := stderr w; hooks := hooks w; handlers := handlers w;
        invocations := invocations w |}).

Definition stderr_write (msg : string) : W unit :=
  fun w =>
    (Return tt,
     {| files := files w; sidecars := sidecars w; log := log w;
        stderr := stderr w ++ [msg]; hooks := hooks w; handlers := handlers w;
        invocations := invocations w |}).

Definition fire (h : hook) : W unit :=
  fun w =>
    (Return tt,
     {| files := files w; sidecars := sidecars w; log := log w;
        stderr := stderr w; hooks := hooks w ++ [h]; handlers := handlers w;
        invocations := invocations w |}).

(** [signal.signal(signum, signal_handler_kill)] *)
Definition signal_signal (signum : Z) : W unit :=
  fun w =>
    (Return tt,
     {| files := files w; sidecars := sidecars w; log := log w;
        stderr := stderr w; hooks := hooks w;
        handlers := handlers w ++ [signum];
        invocations := invocations w |}).

Definition SIGINT : Z := 2.
Definition SIGTERM : Z := 15.

Definition CONFIGURE_REPROUNZIP_CONTAINER : bool := true.

(** Modelled from the spec: the absent [metadata_write], "write(destDir,
    state)", which replaces the state kept beside [target]. *)
Definition metadata_write (target : string) (st : ReplayState) : W unit :=
  fun w =>
    (Return tt,
     {| files := files w; sidecars := <[target := st]> (sidecars w);
        log := log w; stderr := stderr w; hooks := hooks w;
        handlers := handlers w; invocations := invocations w |}).

(** The value of Python's [a or b] on optional integers: [a] when it is
    true (an integer other than zero), else [b]. *)
Definition py_or (a b : option Z) : option Z :=
  match a with
  | Some x => if (x =? 0)%Z then b else a
  | None => b
  end.

(** Line 110: in ["\n*** Command finished, status: %d\n" % result.value
    or result.signal] the [%] binds first, and [%d] takes a number; the
    line it makes is not empty, so [or] keeps it. *)
Definition format_status (v : option Z) : outcome string :=
  match v with
  | Some z => Return (nl +:+ "*** Command finished, status: " +:+ pretty z +:+ nl)
  | None => Raise TypeError
  end.

(** Line 121: [result.signal or result.value]. *)
Definition retcode (result : RunResult) : option Z :=
  py_or (signal result) (value result).

Section WithCollaborators.

(** Imported from modules outside the sources at hand and taken as they
    are called: [shell_escape], [get_runs], [fixup_environment] and
    [metadata_read] (from [reprounzip.unpackers.common]), the two members
    of [X11Handler] that are read, [load_config_file] with [config.runs],
    and the executor's [execute_run]. *)
Variable shell_escape : string -> string.
Variable metadata_read : string -> World -> outcome ReplayState.
Variable get_runs :
  list Run -> option string -> option (list string) -> outcome (list nat).
Variable fixup_environment : list (string * string) -> Args -> list (string * string).
Variable x11_fix_env : Args -> list (string * string) -> list (string * string).
Variable x11_init_cmds : Args -> list string.
Variable load_config_file : string -> World -> outcome (list Run).
Variable execute_run : Invocation -> World -> outcome RunResult.

(** ['/bin/sh -c %s' % shell_escape(c)] *)
Definition sh_c (c : string) : string := "/bin/sh -c " +:+ shell_escape c.

(** Lines 80-83: the argument vector of a run. *)
Definition run_argv (cmdline : option (list string)) (run : Run) : list string :=
  match cmdline with
  | None => binary run :: tail (argv run)
  | Some c => c
  end.

(** Lines 72-73: the environment of a run. *)
Definition run_environ (args : Args) (run : Run) : list (string * string) :=
  fixup_environment (x11_fix_env args (environ run)) args.

(** Lines 70-85: the command of one run. *)
Definition run_cmd (args : Args) (run : Run) : string :=
  let cmd := "cd " +:+ shell_escape (workingdir run) +:+ " && " in
  let cmd := cmd +:+ "/usr/bin/env -i " in
  let environ := run_environ args run in
  let cmd := cmd +:+ String.concat " "
               (map (fun kv => shell_escape (fst kv) +:+ "=" +:+ shell_escape (snd kv))
                    environ) in
  let cmd := cmd +:+ " " in
  let argv := run_argv (a_cmdline args) run in
  let cmd := cmd +:+ String.concat " " (map shell_escape argv) in
  sh_c cmd.

(** Lines 63-86: the loop over the selected runs, on the triple
    [(cmds, uid, gid)]. [runs[run_number]] raises [IndexError] out of
    range. *)
Fixpoint runs_loop (args : Args) (runs : list Run) (selected_runs : list nat)
    (acc : list string * Z * Z) : outcome (list string * Z * Z) :=
  match selected_runs with
  | [] => Return acc
  | run_number :: rest =>
      match runs !! run_number with
      | None => Raise IndexError
      | Some run =>
          let '(cmds, _, _) := acc in
          runs_loop args runs rest (cmds ++ [run_cmd args run], uid run, gid run)
      end
  end.

(** Lines 49-97: from the arguments to the request made to the
    executor. *)
Definition containerexec_invocation (args : Args) (runs : list Run)
    (selected_runs : list nat) : outcome Invocation :=
  match runs_loop args runs selected_runs ([], 0%Z, 0%Z) with
  | Raise e => Raise e
  | Return (cmds, uid, gid) =>
      let cmds := map sh_c (x11_init_cmds args) ++ cmds in
      let cmds := String.concat " && " cmds in
      Return {| i_cmds := cmds; i_uid := uid; i_gid := gid;
                i_workingDir := a_target args;
                i_setup_reprounzip := CONFIGURE_REPROUNZIP_CONTAINER |}
  end.

(** [executor.execute_run(...)], recorded. *)
Definition do_execute_run (inv : Invocation) : W RunResult :=
  fun w =>
    (execute_run inv w,
     {| files := files w; sidecars := sidecars w; log := log w;
        stderr := stderr w; hooks := hooks w; handlers := handlers w;
        invocations := invocations w ++ [inv] |}).

(** [containerexec_run(args)], as written; [target_must_exist], which
    decorates it, is outside the sources at hand. [sys.exit(message)]
    sends the message to stderr and exits with status 1. *)
Definition containerexec_run (args : option Args) : W (option Z) :=
  match args with
  | None => raise_w AttributeError
  | Some args =>
      let target := a_target args in
      let! unpacked_info := ask (metadata_read target) in
      let! runs := ask (load_config_file (Posix.join target "config.yml")) in
      let! selected_runs := lift (get_runs runs (a_run args) (a_cmdline args)) in
      let! inv := lift (containerexec_invocation args runs selected_runs) in
      do! signal_signal SIGTERM in
      do! signal_signal SIGINT in
      let! result :=
        try_except
          (do! fire (pre_run target) in
           let! result := do_execute_run inv in
           let! line := lift (format_status (value result)) in
           do! stderr_write line in
           do! fire (post_run target (value result)) in
           do! metadata_write target
                 (metadata_update_run unpacked_info selected_runs) in
           ret_w result)
          (fun e => raise_w (SystemExit 1 ("Cannot execute process: " +:+ e +:+ ".")))
      in
      ret_w (retcode result)
  end.

(** [containerexec_upload(args)] and [containerexec_download(args)], as
    written, under the same decorator. *)
Definition containerexec_upload (args : option Args) : W unit :=
  logging_info "containerexec_upload".

Definition containerexec_download (args : option Args) : W unit :=
  logging_info "containerexec_download".

End WithCollaborators.

End ContainerExec.

(* ===================================================================== *)
(** * The packer: what the properties are stated with *)
(* ===================================================================== *)

Module PackSpec.
Import Posix Pack.

(** The file system while [tar] is being written over [fs0]: the members
    given so far are in the file, the stream is not closed. *)
Definition sync (fs0 : FS) (tar : TarFile) : FS :=
  <[tf_name tar := Reg (TarGz false (tf_members tar))]> fs0.

(** The file system right after [tarfile.open] created the archive at
    [q]. *)
Definition opened (q : string) (fs : FS) : FS :=
  <[q := Reg (TarGz false [])]> fs.

(** [tar'] is [tar] with more members. *)
Definition extends (tar tar' : TarFile) : Prop :=
  tf_name tar' = tf_name tar /\
  exists ms, tf_members tar' = tf_members tar ++ ms.

(** A node without what a regular file holds: all that link following
    looks at. *)
Definition shape (nd : node) : node :=
  match nd with
  | Reg _ => Reg (Bytes "")
  | Lnk t => Lnk t
  | Dir => Dir
  end.

Definition same_shape (fs fs' : FS) : Prop :=
  forall p, shape <$> lstat fs p = shape <$> lstat fs' p.

(** One computation gives what the other gives whenever the other gives
    anything. *)
Definition refines {A} (m m' : M A) : Prop :=
  forall fs, m fs <> Timeout -> m' fs = m fs.

(** The successive link targets from [t]: the paths, in order, the loop
    of [add_links] hands to [tar.add]. *)
Inductive link_chain (fs : FS) : string -> list string -> Prop :=
| chain_end t :
    islink fs t = false -> link_chain fs t []
| chain_hop t l ts :
    readlink fs t = Some l ->
    is_Some (lstat fs (join (dirname t) l)) ->
    link_chain fs (join (dirname t) l) ts ->
    link_chain fs t (join (dirname t) l :: ts).

(** The same as a function, cut after [fuel] hops. *)
Fixpoint chain (fuel : nat) (fs : FS) (t : string) : list string :=
  match fuel with
  | O => []
  | S fuel' =>
      match readlink fs t with
      | Some l => join (dirname t) l :: chain fuel' fs (join (dirname t) l)
      | None => []
      end
  end.

(** The payload in the order the specification gives: for each package
    with [packfiles], in the order of the configuration, each of its files
    followed by its link targets; then the other files. *)
Definition package_paths (fuel : nat) (fs : FS) (pkg : Package) : list string :=
  if packfiles pkg
  then flat_map (fun f => path f :: chain fuel fs (path f)) (files pkg)
  else [].

Definition payload_paths (fuel : nat) (fs : FS)
    (packages : list Package) (other_files : list File) : list string :=
  flat_map (package_paths fuel fs) packages ++ map path other_files.

(** The member names of an archive, in the order the specification gives:
    the version marker, the configuration, the trace if there is one, the
    payload. *)
Definition archive_names (fuel : nat) (fs : FS) (directory : string)
    (packages : list Package) (other_files : list File) : list string :=
  "METADATA/version" :: "METADATA/config.yml" ::
  (if isfile fs (join directory "trace.sqlite3")
   then ["METADATA/trace.sqlite3"] else []) ++
  map lstrip_sep (payload_paths fuel fs packages other_files).

(** From a state where the archive holds the members of [tar], [f] ends
    in such a state again, with an archive that extends [tar]; when it
    fails, it is on a path that names nothing. *)
Definition steady (f : TarFile -> M TarFile) : Prop :=
  forall fs0 tar,
    match f tar (sync fs0 tar) with
    | Done tar' fs' => extends tar tar' /\ fs' = sync fs0 tar'
    | Fail e fs' =>
        exists tar' p,
          e = OSError p /\ lstat fs' p = None /\
          extends tar tar' /\ fs' = sync fs0 tar'
    | Timeout => True
    end.

(** The member names of an open archive. *)
Definition names (tar : TarFile) : list string :=
  map m_arcname (tf_members tar).

(** [tar] with one more member. *)
Definition push (tar : TarFile) (m : member) : TarFile :=
  {| tf_name := tf_name tar; tf_members := tf_members tar ++ [m] |}.

(** Whenever [f] returns, it has appended members under the names [ns]
    gives for the file system it started in. *)
Definition emits (f : TarFile -> M TarFile) (ns : FS -> list string) : Prop :=
  forall fs0 tar tar' fs',
    f tar (sync fs0 tar) = Done tar' fs' ->
    names tar' = names tar ++ ns (sync fs0 tar).

(** [ns] reads shapes only. *)
Definition shape_only (ns : FS -> list string) : Prop :=
  forall fs fs', same_shape fs fs' -> ns fs = ns fs'.

(** The archive right after the version marker was stored. *)
Definition tar_v (q : string) : TarFile :=
  {| tf_name := q;
     tf_members := [Member "METADATA/version" (Reg (Bytes version_marker))] |}.

End PackSpec.

(* ===================================================================== *)
(** * The packer: concrete experiments *)
(* ===================================================================== *)

Module PackExamples.
Import Posix Pack PackSpec.

(** A configuration file that loads to a given configuration. *)
Definition loads (c0 : content) (packages : list Package) (other_files : list File)
    (c : content) : option (unit * list Package * list File) :=
  match c0, c with
  | Bytes s0, Bytes s => if String.eqb s0 s then Some (tt, packages, other_files) else None
  | _, _ => None
  end.

(** An operating system in which the directories [ds], and no other, exist
    and can be written to. *)
Definition writable_dirs (ds : list string) (fs : FS) (q : string) : bool :=
  bool_decide (dirname q ∈ ds).

(** The machine of the experiments. *)
Definition exp_os : FS -> string -> bool :=
  writable_dirs ["/"; "/mnt/usb"].

(** An experiment in [/exp]: one package, whose file [/usr/lib/libm.so] is
    a link to a link to a regular file, and one input file. *)
Definition libm : Package :=
  {| name := "libm"; packfiles := true;
     files := [ {| path := "/usr/lib/libm.so" |} ] |}.

Definition input_csv : File := {| path := "/data/in.csv" |}.

Definition exp_fs : FS :=
  list_to_map
    [ ("/exp/config.yml", Reg (Bytes "runs: 1"));
      ("/usr/lib/libm.so", Lnk "libm.so.6");
      ("/usr/lib/libm.so.6", Lnk "/lib/libm-2.31.so");
      ("/lib/libm-2.31.so", Reg (Bytes "ELF"));
      ("/data/in.csv", Reg (Bytes "1,2")) ].

Definition exp_config := loads (Bytes "runs: 1") [libm] [input_csv].

(** What a pack of it to [/out.rpz] leaves. *)
Definition exp_archive : list member :=
  [ Member "METADATA/version" (Reg (Bytes version_marker));
    Member "METADATA/config.yml" (Reg (Bytes "runs: 1"));
    Member "usr/lib/libm.so" (Lnk "libm.so.6");
    Member "usr/lib/libm.so.6" (Lnk "/lib/libm-2.31.so");
    Member "lib/libm-2.31.so" (Reg (Bytes "ELF"));
    Member "data/in.csv" (Reg (Bytes "1,2")) ].

Definition exp_fs_done : FS :=
  <["/out.rpz" := Reg (TarGz true exp_archive)]> exp_fs.





(** The same experiment after the input file was deleted. *)
Definition exp_fs_missing : FS := delete "/data/in.csv" exp_fs.

(** The same experiment with a pack already at [/out.rpz]. *)
Definition exp_fs_packed : FS := <["/out.rpz" := Reg (Bytes "old pack")]> exp_fs.

(** An experiment whose package file is a link in a cycle of two. *)
Definition cyc_fs : FS :=
  list_to_map
    [ ("/exp/config.yml", Reg (Bytes "runs: 1"));
      ("/d/a", Lnk "b");
      ("/d/b", Lnk "a") ].

Definition cyc_pkg : Package :=
  {| name := "cyc"; packfiles := true; files := [ {| path := "/d/a" |} ] |}.

Definition cyc_config := loads (Bytes "runs: 1") [cyc_pkg] [].

(** An experiment whose package file heads a chain of 41 links:
    [/l/a -> aa -> aaa -> ...], the last target being a regular file. *)
Definition a_name (i : nat) : string :=
  string_of_list_ascii (replicate i "a"%char).

Definition long_fs : FS :=
  list_to_map
    (("/exp/config.yml", Reg (Bytes "runs: 1")) ::
     ("/l/" +:+ a_name 42, Reg (Bytes "end")) ::
     map (fun i => ("/l/" +:+ a_name i, Lnk (a_name (S i)))) (seq 1 41)).

Definition long_pkg : Package :=
  {| name := "long"; packfiles := true; files := [ {| path := "/l/a" |} ] |}.

Definition long_config := loads (Bytes "runs: 1") [long_pkg] [].

End PackExamples.

(* ===================================================================== *)
(** * The replay executor: concrete experiments *)
(* ===================================================================== *)

Module ContainerExecExamples.
Import ContainerExec.

(** Two recorded runs, of different users. *)
Definition run0 : Run :=
  {| workingdir := "/home/alice/exp";
     environ := [("PATH", "/usr/bin"); ("LANG", "C")];
     uid := 1000; gid := 1000;
     binary := "/usr/bin/python3";
     argv := ["python"; "prepare.py"] |}.

Definition run1 : Run :=
  {| workingdir := "/home/bob/exp";
     environ := [("PATH", "/bin")];
     uid := 1001; gid := 100;
     binary := "/bin/sort";
     argv := ["sort"; "data.csv"] |}.

(** Collaborators for the experiments: quoting with single quotes, every
    run selected, no X11, no environment option. *)
Definition quote (s : string) : string := "'" +:+ s +:+ "'".

Definition all_runs (runs : list Run) (_ : option string)
    (_ : option (list string)) : outcome (list nat) :=
  Return (seq 0 (length runs)).

Definition read_sidecar (target : string) (w : World) : outcome ReplayState :=
  match sidecars w !! target with
  | Some st => Return st
  | None => Raise UsageError
  end.

Definition no_fixup (e : list (string * string)) (_ : Args) := e.

Definition no_x11_env (_ : Args) (e : list (string * string)) := e.

Definition no_x11_cmds (_ : Args) : list string := [].

Definition config_of (runs : list Run) (_ : string) (_ : World)
    : outcome (list Run) := Return runs.

(** An executor whose child is killed by SIGKILL, and one whose child
    exits with status 3. *)
Definition killed (_ : Invocation) (_ : World) : outcome RunResult :=
  Return (Signaled 9).

Definition exits3 (_ : Invocation) (_ : World) : outcome RunResult :=
  Return (Exited 3).

Definition args0 : Args :=
  {| a_target := "/tmp/unpacked"; a_run := None; a_cmdline := None;
     a_x11 := false; a_x11_display := None |}.

Definition state0 : ReplayState :=
  {| executed := ∅; input_files := ∅ |}.

Definition world0 : World :=
  {| files := ∅; sidecars := {[ "/tmp/unpacked" := state0 ]};
     log := []; stderr := []; hooks := []; handlers := [];
     invocations := [] |}.

End ContainerExecExamples.


(* ===================================================================== *)
(** * The replay executor: what more properties are stated with *)
(* ===================================================================== *)

Module ContainerExecSpec.
Import ContainerExec.

(** The state in which the executor is called: the two handlers are
    installed and [pre_run] has fired. *)
Definition ready (target : string) (w : World) : World :=
  {| files := files w; sidecars := sidecars w; log := log w;
     stderr := stderr w;
     hooks := hooks w ++ [pre_run target];
     handlers := (handlers w ++ [SIGTERM]) ++ [SIGINT];
     invocations := invocations w |}.

End ContainerExecSpec.

(* ===================================================================== *)
(** * The packer: what more properties are stated with *)
(* ===================================================================== *)

Module PackSpec2.
Import Posix Pack.

(** One turn of the loop of [add_links] on [t]: the path the link [t]
    leads to, [os.path.join(os.path.dirname(t), os.readlink(t))]; none
    when [t] is not a link. *)
Definition hop (fs : FS) (t : string) : option string :=
  match readlink fs t with
  | Some l => Some (join (dirname t) l)
  | None => None
  end.

(** [n] turns. *)
Fixpoint hops (n : nat) (fs : FS) (t : string) : option string :=
  match n with
  | O => Some t
  | S n' =>
      match hop fs t with
      | Some t' => hops n' fs t'
      | None => None
      end
  end.

End PackSpec2.

Module PackExamples2.
Import Posix Pack PackExamples.

(** The experiment of [PackExamples] without its configuration file. *)
Definition exp_fs_noconfig : FS := delete "/exp/config.yml" exp_fs.

(** The same experiment with a broken link at [/out.rpz]. *)
Definition exp_fs_linked : FS :=
  <["/out.rpz" := Lnk "/mnt/usb/exp.rpz"]> exp_fs.

Definition exp_fs_linked_done : FS :=
  <["/mnt/usb/exp.rpz" := Reg (TarGz true exp_archive)]> exp_fs_linked.

(** The same experiment after [/usr/lib/libm.so.6] was removed: the
    package file is a broken link. *)
Definition exp_fs_broken : FS := delete "/usr/lib/libm.so.6" exp_fs.

End PackExamples2.

(* ===================================================================== *)
(** * The VisTrails plugin: reprounzip/plugins/vistrails.py *)
(* ===================================================================== *)

Module Vistrails.

(** The calls to [logging] and [record_usage] change nothing the plugin
    reads back and are left out. *)

(** The double quote, which string literals cannot spell, as a character
    and as a string. *)
Definition dquote : ascii := ascii_of_nat 34.
Definition dq : string := String dquote EmptyString.

(** [s.replace(old, new)] for an [old] of one character. *)
Fixpoint replace_char (old : ascii) (new : string) (s : string) : string :=
  match s with
  | EmptyString => EmptyString
  | String c r =>
      if Ascii.eqb c old then new +:+ replace_char old new r
      else String c (replace_char old new r)
  end.

(** Lines 42-45, on a string (an integer is passed as its decimal
    writing, which is what ["%s" % s] makes of it): every ampersand is
    replaced by [&amp;], then every double quote by [&quot;]. *)
Definition escape_xml (s : string) : string :=
  replace_char dquote "&quot;" (replace_char "&"%char "&amp;" s).

(** What the plugin raises beside the exceptions of [exn]. *)
Inductive error : Type :=
| ValueError
| KeyError (key : string)
| CalledProcessError
| Py (e : exn).

(** The outcome of a computation on a state of type [St]: a value or an
    exception, and the state it leaves. *)
Inductive res (St A : Type) : Type :=
| Ok (a : A) (s : St)
| Err (e : error) (s : St).

Arguments Ok {St A} a s.
Arguments Err {St A} e s.

Definition ST (St A : Type) : Type := St -> res St A.

Definition ret_s {St A} (a : A) : ST St A := fun s => Ok a s.

Definition raise_s {St A} (e : error) : ST St A := fun s => Err e s.

Definition bind_s {St A B} (m : ST St A) (k : A -> ST St B) : ST St B :=
  fun s =>
    match m s with
    | Ok a s' => k a s'
    | Err e s' => Err e s'
    end.

Notation "'let!' x ':=' m 'in' k" := (bind_s m (fun x => k))
  (at level 10, x name, m at level 100, k at level 200).
Notation "'do!' m 'in' k" := (bind_s m (fun _ => k))
  (at level 10, m at level 100, k at level 200).

(** [for i, x in enumerate(l): body(i, x)], from index [i]. *)
Fixpoint for_enumerate {St A} (body : nat -> A -> ST St unit) (i : nat)
    (l : list A) : ST St unit :=
  match l with
  | [] => ret_s tt
  | x :: r => do! body i x in for_enumerate body (S i) r
  end.

(** ** split_sig *)

(** [s.rsplit(sep, 1)] when [sep] occurs in [s]: what is before its last
    occurrence and what is after it. *)
Fixpoint rsplit1 (sep : ascii) (s : string) : option (string * string) :=
  match s with
  | EmptyString => None
  | String c r =>
      match rsplit1 sep r with
      | Some (a, b) => Some (String c a, b)
      | None => if Ascii.eqb c sep then Some (EmptyString, r) else None
      end
  end.

(** Lines 82-84; without a colon [rsplit] gives one string, and
    unpacking it into two names raises [ValueError]:
<<
    pkg, name = sig.rsplit(':', 1)
    return name, pkg
>> *)
Definition split_sig {St} (sig : string) : ST St (string * string) :=
  match rsplit1 ":"%char sig with
  | Some (pkg, name) => ret_s (name, pkg)
  | None => raise_s ValueError
  end.

(** ** IdScope *)

(** Lines 49-59: the counters, all at zero. *)
Definition IdScope_init : gmap string nat :=
  list_to_map
    [ ("add", 0); ("module", 0); ("location", 0); ("annotation", 0);
      ("function", 0); ("parameter", 0); ("connection", 0); ("port", 0);
      ("portspec", 0); ("portspecitem", 0) ].

(** Lines 61-66, the getter [_add(type_)] makes:
<<
    i = self._ids[type_]
    self._ids[type_] += 1
    return i
>> *)
Definition getter (type_ : string) : ST (gmap string nat) nat :=
  fun ids =>
    match ids !! type_ with
    | Some i => Ok i (<[type_ := i + 1]> ids)
    | None => Err (KeyError type_) ids
    end.

(** ** Workflow *)

(** What one call of [file.write] in [Workflow] writes: the template and
    what fills it. [render] gives the text. *)
Inductive element : Type :=
| Header (date version : string)
| Footer
| AddModule (add_id mod_id : nat) (mod_name mod_pkg version : string)
| AddLocation (add_id mod_id loc_id : nat) (y : Z)
| AddAnnotation (add_id mod_id ann_id : nat) (text : string)
| AddFunction (add_id mod_id func_id : nat) (name : string)
| AddParameter (add_id param_id func_id pos : nat) (type_ val : string)
| AddConnection (add1_id add2_id add3_id conn_id port1_id from_id : nat)
                (from_sig from_mod from_port : string)
                (port2_id to_id : nat) (to_sig to_mod to_port : string)
| OpenPortSpec (add_id ps_id mod_id : nat) (name type_ opt : string)
| PortSpecItem (psi_id : nat) (mod_ pkg : string) (pos : nat)
| ClosePortSpec.

(** A template written with ['] where the source has a double quote. *)
Definition q (template : string) : string :=
  replace_char "'"%char dq template.

Definition render (e : element) : string :=
  match e with
  | Header date version =>
      q "<vistrail id='' name='' version='1.0.4' xmlns:xsi='http:" +:+
      q "//www.w3.org/2001/XMLSchema-instance' xsi:schemaLocation" +:+
      q "='http://www.vistrails.org/vistrail.xsd'>" +:+ nl +:+
      "<!-- Generated by reprounzip-vistrails " +:+ version +:+ " -->" +:+ nl +:+
      q "  <action date='" +:+ date +:+ q "' id='1' prevId='0' session='0' " +:+
      q "user='ReproUnzip'>" +:+ nl
  | Footer =>
      "  </action>" +:+ nl +:+
      "</vistrail>" +:+ nl
  | AddModule add_id mod_id mod_name mod_pkg version =>
      q "    <add id='" +:+ pretty add_id +:+ q "' objectId='" +:+
      pretty mod_id +:+ q "' parentObjId='' " +:+
      q "parentObjType='' what='module'>" +:+ nl +:+
      q "      <module cache='1' id='" +:+ pretty mod_id +:+ q "' name='" +:+
      mod_name +:+ q "' namespace" +:+
      q "='' package='" +:+ mod_pkg +:+ q "' version='" +:+ version +:+
      q "' />" +:+ nl +:+
      "    </add>" +:+ nl
  | AddLocation add_id mod_id loc_id y =>
      q "    <add id='" +:+ pretty add_id +:+ q "' objectId='" +:+
      pretty loc_id +:+ q "' parentObjId='" +:+ pretty mod_id +:+
      q "' parentObjType='module' what='location'>" +:+ nl +:+
      q "      <location id='" +:+ pretty loc_id +:+ q "' x='0.0' y='" +:+
      pretty y +:+ q "' />" +:+ nl +:+
      "    </add>" +:+ nl
  | AddAnnotation add_id mod_id ann_id text =>
      q "    <add id='" +:+ pretty add_id +:+ q "' objectId='" +:+
      pretty ann_id +:+ q "' parentObjId='" +:+
      pretty mod_id +:+ q "' parentObjType='module' what='annotation'>" +:+ nl +:+
      q "      <annotation id='" +:+ pretty ann_id +:+
      q "' key='__desc__' value='" +:+ text +:+ q "'" +:+
      " />" +:+ nl +:+
      "    </add>" +:+ nl
  | AddFunction add_id mod_id func_id name =>
      q "    <add id='" +:+ pretty add_id +:+ q "' objectId='" +:+
      pretty func_id +:+ q "' parentObjId='" +:+
      pretty mod_id +:+ q "' parentObjType='module' what='function'>" +:+ nl +:+
      q "      <function id='" +:+ pretty func_id +:+ q "' name='" +:+ name +:+
      q "' pos='0' />" +:+ nl +:+
      "    </add>" +:+ nl
  | AddParameter add_id param_id func_id pos type_ val =>
      q "    <add id='" +:+ pretty add_id +:+ q "' objectId='" +:+
      pretty param_id +:+ q "' parentObjId='" +:+
      pretty func_id +:+ q "' parentObjType='function' what='parameter'>" +:+ nl +:+
      q "      <parameter alias='' id='" +:+ pretty param_id +:+
      q "' name='&lt;no " +:+
      q "description&gt;' pos='" +:+ pretty pos +:+ q "' type='" +:+ type_ +:+
      q "' val='" +:+ val +:+ q "' />" +:+ nl +:+
      "    </add>" +:+ nl
  | AddConnection add1_id add2_id add3_id conn_id port1_id from_id
                  from_sig from_mod from_port
                  port2_id to_id to_sig to_mod to_port =>
      q "    <add id='" +:+ pretty add1_id +:+ q "' objectId='" +:+
      pretty conn_id +:+ q "' parentObjId='' " +:+
      q "parentObjType='' what='connection'>" +:+ nl +:+
      q "      <connection id='" +:+ pretty conn_id +:+ q "' />" +:+ nl +:+
      "    </add>" +:+ nl +:+
      q "    <add id='" +:+ pretty add2_id +:+ q "' objectId='" +:+
      pretty port1_id +:+ q "' parentObjId='" +:+
      pretty conn_id +:+ q "' parentObjType='connection' what='port'>" +:+ nl +:+
      q "      <port id='" +:+ pretty port1_id +:+ q "' moduleId='" +:+
      pretty from_id +:+ q "' moduleName='" +:+
      from_mod +:+ q "' name='" +:+ from_port +:+ q "' signature='(" +:+
      from_sig +:+ q ")' type='" +:+
      q "source' />" +:+ nl +:+
      "    </add>" +:+ nl +:+
      q "    <add id='" +:+ pretty add3_id +:+ q "' objectId='" +:+
      pretty port2_id +:+ q "' parentObjId='" +:+
      pretty conn_id +:+ q "' parentObjType='connection' what='port'>" +:+ nl +:+
      q "      <port id='" +:+ pretty port2_id +:+ q "' moduleId='" +:+
      pretty to_id +:+ q "' moduleName='" +:+
      to_mod +:+ q "' name='" +:+ to_port +:+ q "' signature='(" +:+
      to_sig +:+ q ")' type='" +:+
      q "destination' />" +:+ nl +:+
      "    </add>" +:+ nl
  | OpenPortSpec add_id ps_id mod_id name type_ opt =>
      q "    <add id='" +:+ pretty add_id +:+ q "' objectId='" +:+
      pretty ps_id +:+ q "' parentObjId='" +:+ pretty mod_id +:+ q "' " +:+
      q "parentObjType='module' what='portSpec'>" +:+ nl +:+
      q "      <portSpec depth='0' id='" +:+ pretty ps_id +:+
      q "' maxConns='1' minConns='0' " +:+
      q "name='" +:+ name +:+ q "' optional='" +:+ opt +:+
      q "' sortKey='0' type='" +:+ type_ +:+
      q "'>" +:+ nl
  | PortSpecItem psi_id mod_ pkg pos =>
      q "        <portSpecItem default='' entryType='' id='" +:+
      pretty psi_id +:+ q "' " +:+
      q "label='' module='" +:+ mod_ +:+ q "' namespace='' package='" +:+
      pkg +:+ q "' pos='" +:+
      pretty pos +:+ q "' values='' />" +:+ nl
  | ClosePortSpec =>
      "      </portSpec>" +:+ nl +:+
      "    </add>" +:+ nl
  end.

(** A [Workflow]: what was written to its file, its [IdScope] and
    [_mod_y]. *)
Record Workflow := {
  wf_file : list element;
  wf_ids : gmap string nat;
  wf_mod_y : Z
}.

(** The text of the file. *)
Definition text (wf : Workflow) : string :=
  String.concat "" (map render (wf_file wf)).

(** [self._file.write(...)] *)
Definition write (e : element) : ST Workflow unit :=
  fun wf =>
    Ok tt {| wf_file := wf_file wf ++ [e]; wf_ids := wf_ids wf;
             wf_mod_y := wf_mod_y wf |}.

(** [self._ids.add()], [self._ids.module()], ... *)
Definition next (type_ : string) : ST Workflow nat :=
  fun wf =>
    match getter type_ (wf_ids wf) with
    | Ok i ids =>
        Ok i {| wf_file := wf_file wf; wf_ids := ids; wf_mod_y := wf_mod_y wf |}
    | Err e ids =>
        Err e {| wf_file := wf_file wf; wf_ids := ids; wf_mod_y := wf_mod_y wf |}
    end.

Definition __version__ : string := "1.0.5".

(** Lines 88-100, [Workflow(file_, ids)] on an empty file; [date] is
    [datetime.now().strftime('%Y-%m-%d %H:%M:%S')]. *)
Definition Workflow_init (date : string) (ids : gmap string nat) : Workflow :=
  {| wf_file := [Header date __version__]; wf_ids := ids; wf_mod_y := 0 |}.

(** Lines 102-105. *)
Definition close : ST Workflow unit := write Footer.

(** Lines 107-135. *)
Definition add_module (sig version : string) (desc : option string)
    : ST Workflow nat :=
  let! mod_id := next "module" in
  let! name_pkg := split_sig sig in
  let! add_id := next "add" in
  do! write (AddModule add_id mod_id (fst name_pkg) (snd name_pkg) version) in
  let! add_id := next "add" in
  let! loc_id := next "location" in
  do! (fun wf => write (AddLocation add_id mod_id loc_id (wf_mod_y wf)) wf) in
  do! match desc with
      | Some desc =>
          let! add_id := next "add" in
          let! ann_id := next "annotation" in
          write (AddAnnotation add_id mod_id ann_id (escape_xml desc))
      | None => ret_s tt
      end in
  do! (fun wf =>
         Ok tt {| wf_file := wf_file wf; wf_ids := wf_ids wf;
                  wf_mod_y := wf_mod_y wf - 100 |}) in
  ret_s mod_id.

(** Lines 137-155. *)
Definition add_function (mod_id : nat) (name : string)
    (param_values : list (string * string)) : ST Workflow unit :=
  let! func_id := next "function" in
  let! add_id := next "add" in
  do! write (AddFunction add_id mod_id func_id name) in
  for_enumerate
    (fun i sig_val =>
       let! add_id := next "add" in
       let! param_id := next "parameter" in
       write (AddParameter add_id param_id func_id i (fst sig_val)
                           (escape_xml (snd sig_val))))
    0 param_values.

(** Lines 157-181; the arguments of [format] are evaluated in the order
    they are written. *)
Definition connect (from_id : nat) (from_sig from_port : string)
    (to_id : nat) (to_sig to_port : string) : ST Workflow unit :=
  let! add1_id := next "add" in
  let! add2_id := next "add" in
  let! add3_id := next "add" in
  let! conn_id := next "connection" in
  let! port1_id := next "port" in
  let! from_ := split_sig from_sig in
  let! port2_id := next "port" in
  let! to_ := split_sig to_sig in
  write (AddConnection add1_id add2_id add3_id conn_id port1_id from_id
                       from_sig (fst from_) from_port
                       port2_id to_id to_sig (fst to_) to_port).

(** Lines 183-202. *)
Definition add_port_spec (mod_id : nat) (name type_ : string)
    (sigs : list (string * string)) (optional : bool) : ST Workflow unit :=
  let! add_id := next "add" in
  let! ps_id := next "portspec" in
  do! write (OpenPortSpec add_id ps_id mod_id (escape_xml name) type_
                          (if optional then "1" else "0")) in
  do! for_enumerate
        (fun i pkg_mod =>
           let! psi_id := next "portspecitem" in
           write (PortSpecItem psi_id (snd pkg_mod) (fst pkg_mod) i))
        0 sigs in
  write ClosePortSpec.

(** Lines 205-211. *)
Definition directory_sig : string := "org.vistrails.vistrails.basic:Directory".
Definition file_pkg_mod : string * string :=
  ("org.vistrails.vistrails.basic", "File").
Definition integer_sig : string := "org.vistrails.vistrails.basic:Integer".
Definition string_sig : string := "org.vistrails.vistrails.basic:String".
Definition rpz_id : string := "io.github.vida-nyu.reprozip.reprounzip".
Definition rpz_version : string := "0.1".
Definition experiment_sig : string := rpz_id +:+ ":Directory".

(** ** do_vistrails *)

(** Of the configuration [load_config] returns, what the plugin reads:
    of a run, [run.get('id')] and [run['argv']]; of a file of
    [config.inputs_outputs], [f.read_runs] and [f.write_runs]. The
    dictionary [inputs_outputs] is iterated in its order. *)
Record Run := {
  run_id : option string;
  run_argv : list string
}.

Record InputOutputFile := {
  read_runs : list nat;
  write_runs : list nat
}.

Record Config := {
  runs : list Run;
  inputs_outputs : list (string * InputOutputFile)
}.

(** [sorted(names)]: strings in the order of their characters. *)
Definition sorted (names : list string) : list string :=
  merge_sort String.le names.

(** Lines 242-245: [sorted(n for n, f in iteritems(config.inputs_outputs)
    if i in f.read_runs)], and the same with [f.write_runs]. *)
Definition inputs_of (config : Config) (i : nat) : list string :=
  sorted (map fst (filter (fun nf => i ∈ read_runs (snd nf))
                          (inputs_outputs config))).

Definition outputs_of (config : Config) (i : nat) : list string :=
  sorted (map fst (filter (fun nf => i ∈ write_runs (snd nf))
                          (inputs_outputs config))).

Section WithShell.

(** [shell_escape] is imported from [reprounzip.unpackers.common],
    outside the sources at hand. *)
Variable shell_escape : string -> string.

(** Lines 241-265, the body of [for i, run in enumerate(config.runs)], on
    the workflow and [connect_from]; it returns the new
    [connect_from]. *)
Definition add_run (config : Config) (connect_from : nat) (i : nat) (run : Run)
    : ST Workflow nat :=
  let inputs := inputs_of config i in
  let outputs := outputs_of config i in
  let ports := map (fun p => ("input", p)) inputs ++
               map (fun p => ("output", p)) outputs in
  let! r := add_module (rpz_id +:+ ":Run") rpz_version
              (Some (default ("run" +:+ pretty i) (run_id run))) in
  do! add_function r "cmdline"
        [(string_sig, String.concat " " (map shell_escape (run_argv run)))] in
  do! add_function r "run_number" [(integer_sig, pretty i)] in
  do! for_enumerate
        (fun _ type_name =>
           add_port_spec r (snd type_name) (fst type_name) [file_pkg_mod] true)
        0 ports in
  do! connect connect_from experiment_sig "experiment"
              r experiment_sig "experiment" in
  ret_s r.

(** The loop over the runs, from index [i]. *)
Fixpoint add_runs (config : Config) (connect_from : nat) (i : nat)
    (l : list Run) : ST Workflow nat :=
  match l with
  | [] => ret_s connect_from
  | run :: rest =>
      let! r := add_run config connect_from i run in
      add_runs config r (S i) rest
  end.

(** Lines 228-267: the workflow [do_vistrails] writes for a
    configuration; [target] is [str(target.resolve())]. *)
Definition write_workflow (date target : string) (config : Config)
    : res Workflow unit :=
  (let! d := add_module (rpz_id +:+ ":Directory") rpz_version None in
   do! add_function d "directory" [(directory_sig, target)] in
   let! _ := add_runs config d 0 (runs config) in
   close)
  (Workflow_init date IdScope_init).

End WithShell.

(** ** run_from_vistrails *)

(** [s.split(sep, 1)] when [sep] occurs in [s]: what is before its first
    occurrence and what is after it. *)
Fixpoint split1 (sep : ascii) (s : string) : option (string * string) :=
  match s with
  | EmptyString => None
  | String c r =>
      if Ascii.eqb c sep then Some (EmptyString, r)
      else match split1 sep r with
           | Some (a, b) => Some (String c a, b)
           | None => None
           end
  end.

(** [a, b = s.split(':', 1)]: [ValueError] without a colon. *)
Definition split_colon {St} (s : string) : ST St (string * string) :=
  match split1 ":"%char s with
  | Some ab => ret_s ab
  | None => raise_s ValueError
  end.

(** What [parser.parse_args] returns. *)
Record CliArgs := {
  unpacker : string;
  directory : string;
  run : string;
  input_file : list string;
  output_file : list string;
  cmdline : option string
}.

(** A call of [subprocess.check_call]: with a list of arguments, or with
    a string and [shell=True]; both with [cwd]. *)
Inductive call : Type :=
| check_call_argv (argv : list string) (cwd : string)
| check_call_shell (command : string) (cwd : string).

(** The process: the calls made so far and [os.environ]. *)
Record Process := {
  calls : list call;
  os_environ : gmap string string
}.

Section WithSystem.

(** From outside the sources at hand: [shell_escape], Python's [int] on
    a string ([None] for [ValueError]), [sys.executable], [argparse]
    (which exits on a bad command line), [load_config], and the exit
    status of a command: [true] when [check_call] returns, [false] when
    it raises [CalledProcessError]. *)
Variable shell_escape : string -> string.
Variable int : string -> option Z.
Variable sys_executable : string.
Variable parse_args : list string -> ST Process CliArgs.
Variable load_config : string -> ST Process Config.
Variable succeeds : call -> bool.

Definition check_call (c : call) : ST Process unit :=
  fun p =>
    let p' := {| calls := calls p ++ [c]; os_environ := os_environ p |} in
    if succeeds c then Ok tt p' else Err CalledProcessError p'.

(** Lines 314-316. *)
Definition rpuz (args : CliArgs) : list string :=
  [sys_executable; "-c"; "from reprounzip.main import main; main()";
   unpacker args].

(** Lines 320-330, [cmd(lst, add)]; [if add] is false for [None] and for
    the empty string. *)
Definition cmd (args : CliArgs) (lst : list string) (add : option string)
    : ST Process unit :=
  match add with
  | Some (String c r) =>
      let string_ := String.concat " " (map shell_escape (rpuz args ++ lst)) in
      let string_ := string_ +:+ " " +:+ String c r in
      check_call (check_call_shell string_ (directory args))
  | _ => check_call (check_call_argv (rpuz args ++ lst) (directory args))
  end.

(** Lines 338-341, on [(upload_command, seen_input_names)]. *)
Fixpoint given_inputs (input_files : list string)
    (acc : list string * list string) : ST Process (list string * list string) :=
  match input_files with
  | [] => ret_s acc
  | input_file :: rest =>
      let! name_file := split_colon input_file in
      let input_name := fst name_file in
      let filename := snd name_file in
      given_inputs rest
        (fst acc ++ [filename +:+ ":" +:+ input_name], snd acc ++ [input_name])
  end.

(** Lines 344-346; [int(args.run)] is evaluated for the names that were
    not given only. *)
Fixpoint reset_inputs (args : CliArgs) (seen_input_names : list string)
    (files : list (string * InputOutputFile)) (upload_command : list string)
    : ST Process (list string) :=
  match files with
  | [] => ret_s upload_command
  | (name, f) :: rest =>
      if bool_decide (name ∈ seen_input_names)
      then reset_inputs args seen_input_names rest upload_command
      else
        match int (run args) with
        | None => raise_s ValueError
        | Some n =>
            if bool_decide (n ∈ map Z.of_nat (read_runs f))
            then reset_inputs args seen_input_names rest
                   (upload_command ++ [":" +:+ name])
            else reset_inputs args seen_input_names rest upload_command
        end
  end.

(** Lines 336-346. *)
Definition upload_command (args : CliArgs) (config : Config)
    : ST Process (list string) :=
  let! given := given_inputs (input_file args) ([], []) in
  reset_inputs args (snd given) (inputs_outputs config) (fst given).

(** Lines 358-361. *)
Fixpoint downloads (args : CliArgs) (output_files : list string)
    : ST Process unit :=
  match output_files with
  | [] => ret_s tt
  | output_file :: rest =>
      let! name_file := split_colon output_file in
      do! cmd args ["download"; "."; fst name_file +:+ ":" +:+ snd name_file]
              None in
      downloads args rest
  end.

(** Lines 288-300: the interface version; a first argument that is not an
    integer leaves it at 1. *)
Definition cli_version (argv : list string) : Z :=
  match argv with
  | _ :: v :: _ => default 1%Z (int v)
  | _ => 1%Z
  end.

(** Lines 285-361, with [sys.argv]. *)
Definition run_from_vistrails (argv : list string) : ST Process unit :=
  if bool_decide (cli_version argv <> 1%Z)
  then raise_s (Py (SystemExit 1 ""))
  else
    let! args := parse_args (drop 2 argv) in
    let! config := load_config (Posix.join (directory args) "config.yml") in
    do! (fun p =>
           Ok tt {| calls := calls p;
                    os_environ :=
                      <["REPROUNZIP_NON_INTERACTIVE" := "y"]> (os_environ p) |})
    in
    let! upload := upload_command args config in
    do! cmd args (["upload"; "."] ++ upload) None in
    do! match cmdline args with
        | Some (String c r) =>
            cmd args ["run"; "."; run args; "--cmdline"] (cmdline args)
        | _ => cmd args ["run"; "."; run args] None
        end in
    downloads args (output_file args).

End WithSystem.

End Vistrails.

Module VistrailsSpec.
Import Vistrails.

(** [c in s] *)
Fixpoint mentions (c : ascii) (s : string) : bool :=
  match s with
  | EmptyString => false
  | String c' r => orb (Ascii.eqb c' c) (mentions c r)
  end.

(** A sequence of calls of getters of an [IdScope], by their names, and
    the ids they return. *)
Fixpoint draw (types : list string) : ST (gmap string nat) (list nat) :=
  match types with
  | [] => ret_s []
  | type_ :: rest =>
      let! i := getter type_ in
      let! more := draw rest in
      ret_s (i :: more)
  end.

(** The number of occurrences of [x] in [l]. *)
Definition occurrences (x : string) (l : list string) : nat :=
  length (filter (fun y => y = x) l).

(** What [escape_xml] makes of one character. *)
Definition escape_char (c : ascii) : string :=
  if Ascii.eqb c "&"%char then "&amp;"
  else if Ascii.eqb c dquote then "&quot;"
  else String c EmptyString.

(** The calls [run_from_vistrails] makes, as the properties name them.
    [swap] turns the [name:file] of the command line into the
    [file:name] of [reprounzip upload]. *)
Definition swap (name_file : string * string) : string :=
  snd name_file +:+ ":" +:+ fst name_file.

Definition reset (name_f : string * InputOutputFile) : string :=
  ":" +:+ fst name_f.

(** The input files to reset: those not given that run [n] reads. *)
Definition to_reset (seen : list string) (n : Z)
    (files : list (string * InputOutputFile)) : list (string * InputOutputFile) :=
  filter (fun nf => (fst nf ∉ seen) /\ (n ∈ map Z.of_nat (read_runs (snd nf))))
         files.

Section Calls.

Variable shell_escape : string -> string.
Variable sys_executable : string.

Definition upload_call (args : CliArgs) (specs : list string) : call :=
  check_call_argv (rpuz sys_executable args ++ ["upload"; "."] ++ specs)
                  (directory args).

Definition run_call (args : CliArgs) : call :=
  match cmdline args with
  | Some (String c r) =>
      check_call_shell
        (String.concat " "
           (map shell_escape
                (rpuz sys_executable args ++ ["run"; "."; run args; "--cmdline"]))
         +:+ " " +:+ String c r)
        (directory args)
  | _ =>
      check_call_argv (rpuz sys_executable args ++ ["run"; "."; run args])
                      (directory args)
  end.

Definition download_call (args : CliArgs) (spec : string) : call :=
  check_call_argv (rpuz sys_executable args ++ ["download"; "."; spec])
                  (directory args).

End Calls.

(** ** The ids of a workflow *)

(** The ten counters of an [IdScope], and the [IdScope] that holds
    them. *)
Record Counters := {
  c_add : nat;
  c_module : nat;
  c_location : nat;
  c_annotation : nat;
  c_function : nat;
  c_parameter : nat;
  c_connection : nat;
  c_port : nat;
  c_portspec : nat;
  c_portspecitem : nat
}.

Definition ids_of (c : Counters) : gmap string nat :=
  list_to_map
    [ ("add", c_add c); ("module", c_module c); ("location", c_location c);
      ("annotation", c_annotation c); ("function", c_function c);
      ("parameter", c_parameter c); ("connection", c_connection c);
      ("port", c_port c); ("portspec", c_portspec c);
      ("portspecitem", c_portspecitem c) ].

Definition zero : Counters :=
  {| c_add := 0; c_module := 0; c_location := 0; c_annotation := 0;
     c_function := 0; c_parameter := 0; c_connection := 0; c_port := 0;
     c_portspec := 0; c_portspecitem := 0 |}.

(** The kinds of ids. *)
Inductive kind : Type :=
| k_add | k_module | k_location | k_annotation | k_function | k_parameter
| k_connection | k_port | k_portspec | k_portspecitem.

Definition count (c : Counters) (k : kind) : nat :=
  match k with
  | k_add => c_add c
  | k_module => c_module c
  | k_location => c_location c
  | k_annotation => c_annotation c
  | k_function => c_function c
  | k_parameter => c_parameter c
  | k_connection => c_connection c
  | k_port => c_port c
  | k_portspec => c_portspec c
  | k_portspecitem => c_portspecitem c
  end.

(** The ids of kind [k] an element introduces (the ids by which it
    refers to another element are not among them). *)
Definition ids_in (k : kind) (e : element) : list nat :=
  match k, e with
  | k_add, AddModule a _ _ _ _ => [a]
  | k_add, AddLocation a _ _ _ => [a]
  | k_add, AddAnnotation a _ _ _ => [a]
  | k_add, AddFunction a _ _ _ => [a]
  | k_add, AddParameter a _ _ _ _ _ => [a]
  | k_add, AddConnection a1 a2 a3 _ _ _ _ _ _ _ _ _ _ _ => [a1; a2; a3]
  | k_add, OpenPortSpec a _ _ _ _ _ => [a]
  | k_module, AddModule _ m _ _ _ => [m]
  | k_location, AddLocation _ _ l _ => [l]
  | k_annotation, AddAnnotation _ _ n _ => [n]
  | k_function, AddFunction _ _ f _ => [f]
  | k_parameter, AddParameter _ p _ _ _ _ => [p]
  | k_connection, AddConnection _ _ _ cn _ _ _ _ _ _ _ _ _ _ => [cn]
  | k_port, AddConnection _ _ _ _ p1 _ _ _ _ p2 _ _ _ _ => [p1; p2]
  | k_portspec, OpenPortSpec _ ps _ _ _ _ => [ps]
  | k_portspecitem, PortSpecItem psi _ _ _ => [psi]
  | _, _ => []
  end.

(** The ids of kind [k] in a file, in the order of the file. *)
Definition ids_of_kind (k : kind) (file : list element) : list nat :=
  flat_map (ids_in k) file.

(** The ids of every kind in the file are 0, 1, 2, ... in the order of
    the file, up to the counter of the kind. *)
Definition numbered (file : list element) (c : Counters) : Prop :=
  forall k, ids_of_kind k file = seq 0 (count c k).

(** The new elements carry, for every kind, the ids from the counter [c]
    up to the counter [c']. *)
Definition fresh (c : Counters) (new : list element) (c' : Counters) : Prop :=
  forall k,
    count c k <= count c' k /\
    ids_of_kind k new = seq (count c k) (count c' k - count c k).

(** The connections of a file, from module to module; its modules with
    their place; its port specifications with their module. *)
Definition connection_of (e : element) : list (nat * nat) :=
  match e with
  | AddConnection _ _ _ _ _ from_id _ _ _ _ to_id _ _ _ => [(from_id, to_id)]
  | _ => []
  end.

Definition location_of (e : element) : list (nat * Z) :=
  match e with
  | AddLocation _ mod_id _ y => [(mod_id, y)]
  | _ => []
  end.

Definition portspec_of (e : element) : list (nat * string * string) :=
  match e with
  | OpenPortSpec _ _ mod_id name type_ _ => [(mod_id, type_, name)]
  | _ => []
  end.

(** The elements the loops of [add_function] and [add_port_spec]
    write. *)
Fixpoint param_elems (func_id a p i : nat) (params : list (string * string))
    : list element :=
  match params with
  | [] => []
  | sig_val :: rest =>
      AddParameter a p func_id i (fst sig_val) (escape_xml (snd sig_val))
      :: param_elems func_id (a + 1) (p + 1) (S i) rest
  end.

Fixpoint item_elems (psi i : nat) (sigs : list (string * string))
    : list element :=
  match sigs with
  | [] => []
  | pkg_mod :: rest =>
      PortSpecItem psi (snd pkg_mod) (fst pkg_mod) i
      :: item_elems (psi + 1) (S i) rest
  end.

(** A workflow in terms of its counters. *)
Definition workflow (file : list element) (c : Counters) (y : Z) : Workflow :=
  {| wf_file := file; wf_ids := ids_of c; wf_mod_y := y |}.

(** The file of a workflow is numbered up to its counters. *)
Definition numbered_wf (wf : Workflow) : Prop :=
  exists c, wf_ids wf = ids_of c /\ numbered (wf_file wf) c.

Definition connections (file : list element) : list (nat * nat) :=
  flat_map connection_of file.

Definition locations (file : list element) : list (nat * Z) :=
  flat_map location_of file.

Definition portspecs (file : list element) : list (nat * string * string) :=
  flat_map portspec_of file.

(** Lines 246-247: the ports of run [i], inputs then outputs. *)
Definition ports_of (config : Config) (i : nat) : list (string * string) :=
  map (fun p => ("input", p)) (inputs_of config i) ++
  map (fun p => ("output", p)) (outputs_of config i).

(** What some new elements add to a file: fresh ids, [mods] modules, and
    the connections, locations and port specifications given. *)
Definition step (c : Counters) (new : list element) (c' : Counters)
    (mods : nat) (cs : list (nat * nat)) (ls : list (nat * Z))
    (ps : list (nat * string * string)) : Prop :=
  fresh c new c' /\
  count c' k_module = count c k_module + mods /\
  connections new = cs /\
  locations new = ls /\
  portspecs new = ps.

(** The port specifications of the runs [i], [i+1], ... whose modules
    are [m], [m+1], ... *)
Fixpoint run_ports (config : Config) (i m : nat) (l : list Run)
    : list (nat * string * string) :=
  match l with
  | [] => []
  | _ :: rest =>
      map (fun tn => (m, fst tn, escape_xml (snd tn))) (ports_of config i) ++
      run_ports config (S i) (S m) rest
  end.

(** The connections of the runs whose modules are [m], [m+1], ..., the
    first one from the module [cf]; and their places from [y] down. *)
Fixpoint run_chain (cf m : nat) (l : list Run) : list (nat * nat) :=
  match l with
  | [] => []
  | _ :: rest => (cf, m) :: run_chain m (S m) rest
  end.

Fixpoint run_locs (m : nat) (y : Z) (l : list Run) : list (nat * Z) :=
  match l with
  | [] => []
  | _ :: rest => (m, y) :: run_locs (S m) (y - 100) rest
  end.

(** On any file with the counters [c] and the place [y], [m] returns [a]
    after appending [new], with the counters [c'] and the place [y']. *)
Definition adds {A} (m : ST Workflow A) (c : Counters) (y : Z) (a : A)
    (new : list element) (c' : Counters) (y' : Z) : Prop :=
  forall f, m (workflow f c y) = Ok a (workflow (f ++ new) c' y').

End VistrailsSpec.

(* ===================================================================== *)
(** * The VisTrails plugin: an experiment *)
(* ===================================================================== *)

Module VistrailsExamples.
Import Vistrails VistrailsSpec.

(** An experiment of two runs: the first reads [data] and [params] and
    writes [model], the second reads [model] and writes [report]. *)
Definition vt_run0 : Run :=
  {| run_id := Some "train"; run_argv := ["./train"; "--fast"] |}.
Definition vt_run1 : Run :=
  {| run_id := None; run_argv := ["./report"] |}.

Definition vt_config : Config :=
  {| runs := [vt_run0; vt_run1];
     inputs_outputs :=
       [ ("params", {| read_runs := [0]; write_runs := [] |});
         ("data", {| read_runs := [0]; write_runs := [] |});
         ("model", {| read_runs := [1]; write_runs := [0] |});
         ("report", {| read_runs := []; write_runs := [1] |}) ] |}.

(** A command line of the VisTrails package for the first run: [data] is
    given, [params] is not. *)
Definition vt_argv : list string :=
  [ "reprounzip-vistrails"; "1"; "docker"; "/exp"; "0";
    "--input-file"; "data:/home/u/d:1.csv";
    "--output-file"; "model:/home/u/model.bin" ].

Definition vt_args : CliArgs :=
  {| unpacker := "docker"; directory := "/exp"; run := "0";
     input_file := ["data:/home/u/d:1.csv"];
     output_file := ["model:/home/u/model.bin"];
     cmdline := None |}.

Definition vt_process : Process := {| calls := []; os_environ := ∅ |}.

(** Collaborators for the experiment. [vt_int] is Python's [int] on the
    strings of decimal digits and on the strings with another character
    than a digit, a sign, an underscore or a blank, which are all the
    examples use. *)
Fixpoint digits (s : string) (acc : Z) : option Z :=
  match s with
  | EmptyString => Some acc
  | String c r =>
      let n := Z.of_nat (nat_of_ascii c) in
      if bool_decide (48 <= n <= 57)%Z then digits r (10 * acc + (n - 48))
      else None
  end.

Definition vt_int (s : string) : option Z :=
  match s with
  | EmptyString => None
  | _ => digits s 0
  end.

Definition vt_parse_args (argv : list string) : ST Process CliArgs :=
  fun p =>
    if bool_decide (argv = drop 2 vt_argv) then Ok vt_args p
    else Err (Py (SystemExit 2 "usage")) p.

Definition vt_load_config (path : string) : ST Process Config :=
  fun p =>
    if bool_decide (path = "/exp/config.yml") then Ok vt_config p
    else Err (Py (OSError path)) p.

Definition vt_python : string := "/usr/bin/python".

Definition all_succeed (c : call) : bool := true.

Definition upload_fails (c : call) : bool :=
  match c with
  | check_call_argv argv _ => bool_decide ("upload" ∉ argv)
  | check_call_shell _ _ => true
  end.

End VistrailsExamples.
(* ===================================================================== *)
(** * Paths: the functions on examples *)
(* ===================================================================== *)

Example join_rel : Posix.join "/usr/lib" "libc.so.6" = "/usr/lib/libc.so.6".
Proof. reflexivity. Qed.

Example join_abs : Posix.join "/usr/lib" "/lib/libc.so.6" = "/lib/libc.so.6".
Proof. reflexivity. Qed.

Example join_slash : Posix.join "/" "bin" = "/bin".
Proof. reflexivity. Qed.

Example dirname_file : Posix.dirname "/usr/lib/libc.so" = "/usr/lib".
Proof. reflexivity. Qed.

Example dirname_root : Posix.dirname "/libc.so" = "/".
Proof. reflexivity. Qed.

Example dirname_rel : Posix.dirname "libc.so" = "".
Proof. reflexivity. Qed.

Example dirname_slashes : Posix.dirname "/usr//lib" = "/usr".
Proof. reflexivity. Qed.

Example lstrip_abs : Posix.lstrip_sep "//usr/lib" = "usr/lib".
Proof. reflexivity. Qed.

(* ===================================================================== *)
(** * The packer: lemmas *)
(* ===================================================================== *)

Module PackFacts.
Import Posix Pack PackSpec.

(** ** Looking up while the archive is written *)

Lemma lstat_sync fs0 tar p :
  lstat (sync fs0 tar) p =
  if decide (tf_name tar = p) then Some (Reg (TarGz false (tf_members tar)))
  else lstat fs0 p.
Proof. unfold lstat, sync. apply lookup_insert. Qed.

Lemma sync_sync fs0 tar tar' :
  tf_name tar' = tf_name tar ->
  <[tf_name tar := Reg (TarGz false (tf_members tar'))]> (sync fs0 tar) =
  sync fs0 tar'.
Proof. intros E. unfold sync. rewrite E. apply insert_insert_eq. Qed.

Lemma extends_refl tar : extends tar tar.
Proof. split; [done | exists []; by rewrite app_nil_r]. Qed.

Lemma extends_trans t1 t2 t3 : extends t1 t2 -> extends t2 t3 -> extends t1 t3.
Proof.
  intros [E1 [m1 H1]] [E2 [m2 H2]]. split; [congruence |].
  exists (m1 ++ m2). by rewrite H2, H1, app_assoc.
Qed.

(** ** Shapes: link following does not read regular files *)

Lemma same_shape_refl fs : same_shape fs fs.
Proof. by intros p. Qed.

Lemma same_shape_sym fs fs' : same_shape fs fs' -> same_shape fs' fs.
Proof. intros H p. symmetry. apply H. Qed.

Lemma same_shape_trans f1 f2 f3 :
  same_shape f1 f2 -> same_shape f2 f3 -> same_shape f1 f3.
Proof. intros H1 H2 p. rewrite H1. apply H2. Qed.

Lemma same_shape_sync fs0 tar tar' :
  tf_name tar' = tf_name tar -> same_shape (sync fs0 tar) (sync fs0 tar').
Proof.
  intros E p. rewrite !lstat_sync, E. by case_decide.
Qed.

Lemma same_shape_readlink fs fs' p :
  same_shape fs fs' -> readlink fs p = readlink fs' p.
Proof.
  intros H. specialize (H p). unfold readlink.
  destruct (lstat fs p) as [[]|], (lstat fs' p) as [[]|]; simpl in H; congruence.
Qed.

Lemma same_shape_islink fs fs' p :
  same_shape fs fs' -> islink fs p = islink fs' p.
Proof.
  intros H. specialize (H p). unfold islink.
  destruct (lstat fs p) as [[]|], (lstat fs' p) as [[]|]; simpl in H; congruence.
Qed.

Lemma same_shape_is_Some fs fs' p :
  same_shape fs fs' -> is_Some (lstat fs p) -> is_Some (lstat fs' p).
Proof.
  intros H [nd E]. specialize (H p). rewrite E in H.
  destruct (lstat fs' p); [eauto | discriminate].
Qed.

Lemma same_shape_resolve fs fs' n p :
  same_shape fs fs' -> resolve n fs p = resolve n fs' p.
Proof.
  intros H. revert p. induction n as [|n IH]; intros p; simpl;
    pose proof (H p) as Hp;
    destruct (lstat fs p) as [[]|], (lstat fs' p) as [[]|];
    simpl in Hp; try congruence; try discriminate.
Qed.

Lemma same_shape_isfile fs fs' p :
  same_shape fs fs' -> isfile fs p = isfile fs' p.
Proof.
  intros H. unfold isfile, stat. rewrite (same_shape_resolve fs fs' _ p H).
  destruct (resolve MAXSYMLINKS fs' p) as [q|]; [|done].
  specialize (H q).
  destruct (lstat fs q) as [[]|], (lstat fs' q) as [[]|]; simpl in H; congruence.
Qed.

Lemma same_shape_chain fs fs' fuel t :
  same_shape fs fs' -> chain fuel fs t = chain fuel fs' t.
Proof.
  intros H. revert t. induction fuel as [|n IH]; intros t; simpl; [done |].
  rewrite (same_shape_readlink fs fs' t H).
  destruct (readlink fs' t); [by rewrite IH | done].
Qed.

Lemma same_shape_link_chain fs fs' t ts :
  same_shape fs fs' -> link_chain fs t ts -> link_chain fs' t ts.
Proof.
  intros H Hc. induction Hc as [t Hl | t l ts Hr Hs _ IH].
  - apply chain_end. by rewrite <- (same_shape_islink fs fs' t H).
  - apply chain_hop; [| by eapply same_shape_is_Some | done].
    by rewrite <- (same_shape_readlink fs fs' t H).
Qed.

Lemma islink_true fs p : islink fs p = true -> exists l, readlink fs p = Some l.
Proof.
  unfold islink, readlink. destruct (lstat fs p) as [[]|]; try discriminate. eauto.
Qed.

Lemma islink_false fs p : islink fs p = false -> readlink fs p = None.
Proof.
  unfold islink, readlink. by destruct (lstat fs p) as [[]|].
Qed.

(** ** One [tar.add] *)

Lemma tar_add_sync fs0 tar n a :
  tar_add tar n a (sync fs0 tar) =
  match lstat (sync fs0 tar) n with
  | None => Fail (OSError n) (sync fs0 tar)
  | Some nd =>
      let tar' := {| tf_name := tf_name tar;
                     tf_members := tf_members tar ++ [Member (lstrip_sep a) nd] |} in
      Done tar' (sync fs0 tar')
  end.
Proof.
  unfold tar_add. destruct (lstat (sync fs0 tar) n); [|done].
  simpl. f_equal. unfold sync. simpl. by rewrite insert_insert_eq.
Qed.

(** ** Computations that only append to the archive *)

Lemma steady_tar_add n a : steady (fun tar => tar_add tar n a).
Proof.
  intros fs0 tar. rewrite tar_add_sync.
  destruct (lstat (sync fs0 tar) n) as [nd|] eqn:E; simpl.
  - split; [|done]. split; [done | by eexists].
  - exists tar, n. split_and!; [done | done | apply extends_refl | done].
Qed.

Lemma steady_bind f g :
  steady f -> steady g -> steady (fun tar => bind (f tar) g).
Proof.
  intros Hf Hg fs0 tar. unfold bind. specialize (Hf fs0 tar).
  destruct (f tar (sync fs0 tar)) as [tar1 fs1 | e fs1 |]; [| done | done].
  destruct Hf as [Hx ->]. specialize (Hg fs0 tar1).
  destruct (g tar1 (sync fs0 tar1)) as [tar2 fs2 | e fs2 |]; [| | done].
  - destruct Hg as [Hx2 ->]. split; [by eapply extends_trans | done].
  - destruct Hg as (tar' & p & -> & Hp & Hx2 & ->). exists tar', p.
    split_and!; [done | done | by eapply extends_trans | done].
Qed.

Lemma steady_add_links fuel t : steady (fun tar => add_links fuel tar t).
Proof.
  revert t. induction fuel as [|n IH]; intros t fs0 tar; simpl.
  - destruct (islink (sync fs0 tar) t); [done |].
    split; [apply extends_refl | done].
  - destruct (islink (sync fs0 tar) t) eqn:Hl;
      [| split; [apply extends_refl | done]].
    destruct (islink_true _ _ Hl) as [l ->].
    apply (steady_bind (fun tar => tar_add tar _ _)
                       (fun tar => add_links n tar _)
                       (steady_tar_add _ _) (IH _) fs0 tar).
Qed.

Lemma steady_add_file fuel f : steady (fun tar => add_file fuel tar f).
Proof.
  unfold add_file.
  apply (steady_bind (fun tar => tar_add tar _ _) (fun tar => add_links fuel tar _)).
  - apply steady_tar_add.
  - apply steady_add_links.
Qed.

Lemma steady_for_each {A} (body : TarFile -> A -> M TarFile) l :
  (forall x, steady (fun tar => body tar x)) ->
  steady (for_each body l).
Proof.
  intros Hb. induction l as [|x r IH]; simpl.
  - intros fs0 tar. split; [apply extends_refl | done].
  - apply (steady_bind (fun tar => body tar x) (for_each body r)); [apply Hb | done].
Qed.

Lemma steady_add_package fuel pkg : steady (fun tar => add_package fuel tar pkg).
Proof.
  unfold add_package. destruct (packfiles pkg).
  - apply steady_for_each. apply steady_add_file.
  - intros fs0 tar. split; [apply extends_refl | done].
Qed.

Lemma steady_add_other f : steady (fun tar => add_other tar f).
Proof. apply steady_tar_add. Qed.

(** ** Opening the archive and storing the version marker *)

Lemma tarfile_open_fresh creatable fs target q :
  exists_ fs target = false ->
  resolve MAXSYMLINKS fs target = Some q ->
  lstat fs q = None /\
  tarfile_open creatable target fs =
    if creatable fs q
    then Done {| tf_name := q; tf_members := [] |} (opened q fs)
    else Fail (OSError target) fs.
Proof.
  intros He Hr. unfold exists_, stat in He. rewrite Hr in He.
  unfold tarfile_open. rewrite Hr.
  destruct (lstat fs q); [discriminate | done].
Qed.

Lemma add_version_sync fs0 tar manifest :
  lstat fs0 manifest = None ->
  manifest <> tf_name tar ->
  add_version manifest tar (sync fs0 tar) =
    let tar' := push tar (Member "METADATA/version" (Reg (Bytes version_marker))) in
    Done tar' (sync fs0 tar').
Proof.
  intros Hm Hne. unfold lstat in Hm.
  unfold add_version, mkstemp, try_finally, write_file, tar_add, remove, bind,
    ret, lstat.
  rewrite lookup_insert_eq. simpl.
  rewrite lookup_insert_ne by done. rewrite lookup_insert_eq.
  f_equal. unfold sync, push. simpl.
  apply map_eq. intros p.
  destruct (decide (p = manifest)) as [->|Hp].
  - rewrite lookup_delete_eq. rewrite lookup_insert_ne by done. by rewrite Hm.
  - rewrite lookup_delete_ne by done.
    destruct (decide (p = tf_name tar)) as [->|Hq].
    + by rewrite !lookup_insert_eq.
    + rewrite !lookup_insert_ne by done. done.
Qed.

(** ** Names of the members a computation appends *)

Lemma names_push tar m : names (push tar m) = names tar ++ [m_arcname m].
Proof. unfold names, push. simpl. by rewrite map_app. Qed.

Lemma emits_tar_add n a :
  emits (fun tar => tar_add tar n a) (fun _ => [lstrip_sep a]).
Proof.
  intros fs0 tar tar' fs'. rewrite tar_add_sync.
  destruct (lstat (sync fs0 tar) n); [|discriminate].
  simpl. intros [= <- _]. unfold names. simpl. by rewrite map_app.
Qed.

Lemma emits_bind f g n1 n2 :
  steady f -> shape_only n2 ->
  emits f n1 -> emits g n2 ->
  emits (fun tar => bind (f tar) g) (fun fs => n1 fs ++ n2 fs).
Proof.
  intros Hs Hn2 Hf Hg fs0 tar tar' fs'. unfold bind.
  specialize (Hs fs0 tar). specialize (Hf fs0 tar).
  destruct (f tar (sync fs0 tar)) as [tar1 fs1 | |]; [| discriminate..].
  destruct Hs as [[Hn _] ->]. intros H.
  rewrite (Hg _ _ _ _ H), (Hf _ _ eq_refl), <- app_assoc.
  do 2 f_equal. apply Hn2. by apply same_shape_sync.
Qed.

Lemma shape_only_chain fuel t : shape_only (fun fs => map lstrip_sep (chain fuel fs t)).
Proof. intros fs fs' H. by rewrite (same_shape_chain fs fs' fuel t H). Qed.

Lemma emits_add_links fuel t :
  emits (fun tar => add_links fuel tar t)
        (fun fs => map lstrip_sep (chain fuel fs t)).
Proof.
  revert t. induction fuel as [|n IH]; intros t fs0 tar tar' fs'; simpl.
  - destruct (islink (sync fs0 tar) t); [discriminate |].
    intros [= <- _]. by rewrite app_nil_r.
  - destruct (islink (sync fs0 tar) t) eqn:Hl.
    + destruct (islink_true _ _ Hl) as [l El]. rewrite El.
      intros H.
      pose proof (emits_bind (fun tar => tar_add tar _ _)
                    (fun tar => add_links n tar _) _ _
                    (steady_tar_add _ _) (shape_only_chain n _)
                    (emits_tar_add (join (dirname t) l) (join (dirname t) l))
                    (IH (join (dirname t) l)) fs0 tar tar' fs' H) as HH.
      exact HH.
    + rewrite (islink_false _ _ Hl). intros [= <- _]. by rewrite app_nil_r.
Qed.

Lemma emits_add_file fuel f :
  emits (fun tar => add_file fuel tar f)
        (fun fs => map lstrip_sep (path f :: chain fuel fs (path f))).
Proof.
  unfold add_file.
  apply (emits_bind (fun tar => tar_add tar _ _) (fun tar => add_links fuel tar _)
           (fun _ => [lstrip_sep (path f)])
           (fun fs => map lstrip_sep (chain fuel fs (path f)))).
  - apply steady_tar_add.
  - apply shape_only_chain.
  - apply emits_tar_add.
  - apply emits_add_links.
Qed.

Lemma shape_only_flat_map {A} (ns : A -> FS -> list string) l :
  (forall x, shape_only (ns x)) ->
  shape_only (fun fs => flat_map (fun x => ns x fs) l).
Proof.
  intros H fs fs' Hs. induction l as [|x r IH]; simpl; [done |].
  by rewrite IH, (H x fs fs' Hs).
Qed.

Lemma emits_for_each {A} (body : TarFile -> A -> M TarFile)
    (ns : A -> FS -> list string) l :
  (forall x, steady (fun tar => body tar x)) ->
  (forall x, shape_only (ns x)) ->
  (forall x, emits (fun tar => body tar x) (ns x)) ->
  emits (for_each body l) (fun fs => flat_map (fun x => ns x fs) l).
Proof.
  intros Hs Hn Hb. induction l as [|x r IH]; simpl.
  - intros fs0 tar tar' fs' [= <- _]. by rewrite app_nil_r.
  - apply (emits_bind (fun tar => body tar x) (for_each body r)
             (ns x) (fun fs => flat_map (fun x => ns x fs) r)); auto.
    by apply shape_only_flat_map.
Qed.

Lemma map_flat_map {A B C} (g : B -> C) (f : A -> list B) l :
  map g (flat_map f l) = flat_map (fun x => map g (f x)) l.
Proof.
  induction l as [|x r IH]; simpl; [done |]. by rewrite map_app, IH.
Qed.

Lemma shape_only_package fuel pkg :
  shape_only (fun fs => map lstrip_sep (package_paths fuel fs pkg)).
Proof.
  intros fs fs' H. unfold package_paths. destruct (packfiles pkg); [|done].
  f_equal. apply flat_map_ext. intros f.
  by rewrite (same_shape_chain fs fs' fuel _ H).
Qed.

Lemma emits_add_package fuel pkg :
  emits (fun tar => add_package fuel tar pkg)
        (fun fs => map lstrip_sep (package_paths fuel fs pkg)).
Proof.
  unfold add_package, package_paths. destruct (packfiles pkg).
  - intros fs0 tar tar' fs' H.
    rewrite map_flat_map.
    apply (emits_for_each (add_file fuel)
             (fun f fs => map lstrip_sep (path f :: chain fuel fs (path f)))
             (files pkg)) with (fs' := fs'); auto.
    + apply steady_add_file.
    + intros f fs1 fs2 Hs. by rewrite (same_shape_chain fs1 fs2 fuel _ Hs).
    + apply emits_add_file.
  - intros fs0 tar tar' fs' [= <- _]. by rewrite app_nil_r.
Qed.

Lemma emits_packages fuel packages :
  emits (for_each (add_package fuel) packages)
        (fun fs => map lstrip_sep (flat_map (package_paths fuel fs) packages)).
Proof.
  intros fs0 tar tar' fs' H. rewrite map_flat_map.
  apply (emits_for_each (add_package fuel)
           (fun pkg fs => map lstrip_sep (package_paths fuel fs pkg))
           packages) with (fs' := fs'); auto.
  - apply steady_add_package.
  - apply shape_only_package.
  - apply emits_add_package.
Qed.

Lemma emits_others other_files :
  emits (for_each add_other other_files)
        (fun _ => map lstrip_sep (map path other_files)).
Proof.
  intros fs0 tar tar' fs' H.
  pose proof (emits_for_each add_other (fun f _ => [lstrip_sep (path f)])
                other_files) as HH.
  rewrite (HH (fun f => steady_add_other f)
              (fun f fs1 fs2 _ => eq_refl)
              (fun f => emits_tar_add (path f) (path f))
              fs0 tar tar' fs' H).
  f_equal. clear. induction other_files as [|f r IH]; simpl; [done | by rewrite IH].
Qed.

(** ** The members after the version marker *)

Lemma steady_add_trace directory : steady (add_trace directory).
Proof.
  intros fs0 tar. unfold add_trace.
  destruct (isfile (sync fs0 tar) _).
  - apply (steady_tar_add _ _ fs0 tar).
  - split; [apply extends_refl | done].
Qed.

Lemma emits_add_trace directory :
  emits (add_trace directory)
        (fun fs => if isfile fs (join directory "trace.sqlite3")
                   then ["METADATA/trace.sqlite3"] else []).
Proof.
  intros fs0 tar tar' fs'. unfold add_trace.
  destruct (isfile (sync fs0 tar) _).
  - apply (emits_tar_add _ "METADATA/trace.sqlite3" fs0 tar tar' fs').
  - intros [= <- _]. by rewrite app_nil_r.
Qed.

Lemma shape_only_payload fuel packages other_files :
  shape_only (fun fs =>
    map lstrip_sep (payload_paths fuel fs packages other_files)).
Proof.
  intros fs fs' H. unfold payload_paths. rewrite !map_app. f_equal.
  rewrite !map_flat_map. apply flat_map_ext. intros pkg.
  by apply shape_only_package.
Qed.

Lemma steady_payload fuel packages other_files :
  steady (fun tar => bind (for_each (add_package fuel) packages tar)
                          (for_each add_other other_files)).
Proof.
  apply (steady_bind (for_each (add_package fuel) packages)
                     (for_each add_other other_files)).
  - apply steady_for_each, steady_add_package.
  - apply steady_for_each, steady_add_other.
Qed.

Lemma emits_payload fuel packages other_files :
  emits (fun tar => bind (for_each (add_package fuel) packages tar)
                         (for_each add_other other_files))
        (fun fs => map lstrip_sep (payload_paths fuel fs packages other_files)).
Proof.
  intros fs0 tar tar' fs' H. unfold payload_paths. rewrite map_app.
  apply (emits_bind (for_each (add_package fuel) packages)
           (for_each add_other other_files)
           (fun fs => map lstrip_sep (flat_map (package_paths fuel fs) packages))
           (fun _ => map lstrip_sep (map path other_files)))
    with (fs' := fs'); auto.
  - apply steady_for_each, steady_add_package.
  - by intros ? ? ?.
  - apply emits_packages.
  - apply emits_others.
Qed.

Lemma steady_add_members fuel directory configfile packages other_files :
  steady (add_members fuel directory configfile packages other_files).
Proof.
  unfold add_members.
  apply (steady_bind (fun tar => tar_add tar _ _)); [apply steady_tar_add |].
  apply (steady_bind (add_trace directory)); [apply steady_add_trace |].
  apply steady_payload.
Qed.

Lemma emits_add_members fuel directory configfile packages other_files :
  emits (add_members fuel directory configfile packages other_files)
        (fun fs =>
           "METADATA/config.yml" ::
           (if isfile fs (join directory "trace.sqlite3")
            then ["METADATA/trace.sqlite3"] else []) ++
           map lstrip_sep (payload_paths fuel fs packages other_files)).
Proof.
  unfold add_members.
  apply (emits_bind (fun tar => tar_add tar configfile "METADATA/config.yml")
           (fun tar => bind (add_trace directory tar)
              (fun tar => bind (for_each (add_package fuel) packages tar)
                 (for_each add_other other_files)))
           (fun _ => ["METADATA/config.yml"])
           (fun fs =>
              (if isfile fs (join directory "trace.sqlite3")
               then ["METADATA/trace.sqlite3"] else []) ++
              map lstrip_sep (payload_paths fuel fs packages other_files))).
  - apply steady_tar_add.
  - intros fs fs' H. rewrite (same_shape_isfile fs fs' _ H). f_equal.
    by apply shape_only_payload.
  - apply emits_tar_add.
  - apply (emits_bind (add_trace directory)
             (fun tar => bind (for_each (add_package fuel) packages tar)
                (for_each add_other other_files))).
    + apply steady_add_trace.
    + apply shape_only_payload.
    + apply emits_add_trace.
    + apply emits_payload.
Qed.

(** ** pack, once the target is known to be free *)

Lemma resolve_not_link n fs p :
  readlink fs p = None -> resolve n fs p = Some p.
Proof.
  unfold readlink. destruct n; simpl; by destruct (lstat fs p) as [[]|].
Qed.

Lemma isfile_lstat fs p : isfile fs p = true -> is_Some (lstat fs p).
Proof.
  unfold isfile, stat. destruct (lstat fs p) as [nd|] eqn:E; [eauto |].
  rewrite resolve_not_link by (unfold readlink; by rewrite E).
  by rewrite E.
Qed.

Lemma pack_body_eq creatable fuel manifest target directory configfile
    packages other_files fs q :
  exists_ fs target = false ->
  resolve MAXSYMLINKS fs target = Some q ->
  creatable fs q = true ->
  lstat fs manifest = None ->
  manifest <> q ->
  pack_body creatable fuel manifest target directory configfile packages
            other_files fs =
  match add_members fuel directory configfile packages other_files
          (tar_v q) (sync fs (tar_v q)) with
  | Done tar' _ => Done tt (<[q := Reg (TarGz true (tf_members tar'))]> fs)
  | Fail e fs' => Fail e fs'
  | Timeout => Timeout
  end.
Proof.
  intros He Hr Hcr Hm Hne.
  destruct (tarfile_open_fresh creatable fs target q He Hr) as [Hq Ho].
  rewrite Hcr in Ho.
  unfold pack_body, bind at 1. rewrite Ho.
  change (opened q fs) with (sync fs {| tf_name := q; tf_members := [] |}).
  unfold bind at 1. rewrite add_version_sync by done. simpl.
  change (push _ _) with (tar_v q).
  unfold bind.
  pose proof (steady_add_members fuel directory configfile packages other_files
                fs (tar_v q)) as Hs.
  destruct (add_members _ _ _ _ _ _ _) as [tar' fs' | |]; [| done..].
  destruct Hs as [[Hn _] ->]. unfold tar_close. f_equal.
  unfold sync. rewrite Hn. simpl. apply insert_insert_eq.
Qed.

(** When the archive cannot be created, nothing is. *)
Lemma pack_body_refused creatable fuel manifest target directory configfile
    packages other_files fs q :
  exists_ fs target = false ->
  resolve MAXSYMLINKS fs target = Some q ->
  creatable fs q = false ->
  pack_body creatable fuel manifest target directory configfile packages
            other_files fs = Fail (OSError target) fs.
Proof.
  intros He Hr Hcr.
  destruct (tarfile_open_fresh creatable fs target q He Hr) as [Hq Ho].
  rewrite Hcr in Ho. unfold pack_body, bind at 1. by rewrite Ho.
Qed.

Lemma pack_body_Done_creatable creatable fuel manifest target directory
    configfile packages other_files fs fs' q :
  exists_ fs target = false ->
  resolve MAXSYMLINKS fs target = Some q ->
  pack_body creatable fuel manifest target directory configfile packages
            other_files fs = Done tt fs' ->
  creatable fs q = true.
Proof.
  intros He Hr Hp. destruct (creatable fs q) eqn:Hcr; [done |].
  by rewrite (pack_body_refused _ _ _ _ _ _ _ _ _ q He Hr Hcr) in Hp.
Qed.

(** ** More iterations change nothing once the loop has ended *)

Lemma refines_refl {A} (m : M A) : refines m m.
Proof. by intros fs _. Qed.

Lemma refines_bind {A B} (m m' : M A) (k k' : A -> M B) :
  refines m m' -> (forall a, refines (k a) (k' a)) ->
  refines (bind m k) (bind m' k').
Proof.
  intros Hm Hk fs. unfold bind. specialize (Hm fs).
  destruct (m fs) as [a fs1 | e fs1 |] eqn:E; intros H.
  - rewrite Hm by done. by apply Hk.
  - by rewrite Hm.
  - done.
Qed.

Lemma refines_add_links n n' tar t :
  n <= n' -> refines (add_links n tar t) (add_links n' tar t).
Proof.
  revert n' tar t. induction n as [|n IH]; intros n' tar t Hle fs; simpl.
  - destruct (islink fs t) eqn:Hl; [done |]. intros _.
    destruct n'; simpl; by rewrite Hl.
  - destruct n' as [|n']; [lia |]. simpl.
    destruct (islink fs t); [| done].
    destruct (readlink fs t) as [l|]; [| done].
    apply (refines_bind (tar_add tar _ _) (tar_add tar _ _)
             (fun tar' => add_links n tar' _) (fun tar' => add_links n' tar' _)).
    + apply refines_refl.
    + intros tar'. apply IH. lia.
Qed.

Lemma refines_for_each {A S} (body body' : S -> A -> M S) l acc :
  (forall acc x, refines (body acc x) (body' acc x)) ->
  refines (for_each body l acc) (for_each body' l acc).
Proof.
  intros H. revert acc. induction l as [|x r IH]; intros acc; simpl.
  - apply refines_refl.
  - apply refines_bind; [apply H | apply IH].
Qed.

Lemma refines_add_package n n' tar pkg :
  n <= n' -> refines (add_package n tar pkg) (add_package n' tar pkg).
Proof.
  intros Hle. unfold add_package. destruct (packfiles pkg); [| apply refines_refl].
  apply refines_for_each. intros acc f. unfold add_file.
  apply refines_bind; [apply refines_refl |].
  intros tar'. by apply refines_add_links.
Qed.

Lemma refines_add_members n n' directory configfile packages other_files tar :
  n <= n' ->
  refines (add_members n directory configfile packages other_files tar)
          (add_members n' directory configfile packages other_files tar).
Proof.
  intros Hle. unfold add_members.
  apply refines_bind; [apply refines_refl |]. intros tar1.
  apply refines_bind; [apply refines_refl |]. intros tar2.
  apply refines_bind; [| intros; apply refines_refl].
  apply refines_for_each. intros acc pkg. by apply refines_add_package.
Qed.

(** ** Following a chain of links *)

Lemma add_links_chain fs0 ts :
  forall tar t fuel,
    link_chain (sync fs0 tar) t ts ->
    length ts <= fuel ->
    exists tar',
      add_links fuel tar t (sync fs0 tar) = Done tar' (sync fs0 tar') /\
      tf_name tar' = tf_name tar /\
      names tar' = names tar ++ map lstrip_sep ts.
Proof.
  induction ts as [|t' ts IH]; intros tar t fuel Hc Hlen.
  - inversion Hc as [? Hl |]; subst. exists tar.
    split_and!; [| done | by rewrite app_nil_r].
    destruct fuel; simpl; by rewrite Hl.
  - inversion Hc as [| ? l ? Hr [nd Hs] Hc']; subst.
    destruct fuel as [|n]; [simpl in Hlen; lia |]. simpl.
    assert (islink (sync fs0 tar) t = true) as ->.
    { unfold islink. unfold readlink in Hr.
      by destruct (lstat (sync fs0 tar) t) as [[]|]. }
    rewrite Hr. unfold bind. rewrite tar_add_sync, Hs. simpl.
    set (tar1 := {| tf_name := tf_name tar; tf_members := _ |}).
    destruct (IH tar1 (join (dirname t) l) n) as (tar' & Ha & Hn & Hm).
    { eapply same_shape_link_chain; [| exact Hc'].
      by apply same_shape_sync. }
    { simpl in Hlen. lia. }
    exists tar'. split_and!; [done | by rewrite Hn |].
    rewrite Hm. unfold names, tar1. simpl. rewrite map_app. simpl.
    by rewrite <- app_assoc.
Qed.

Lemma sync_id fs tar :
  lstat fs (tf_name tar) = Some (Reg (TarGz false (tf_members tar))) ->
  sync fs tar = fs.
Proof. intros H. unfold sync. by apply insert_id. Qed.

(** ** The two link patterns of the experiments *)

Lemma cyc_loop fuel :
  forall tar fs,
    lstat fs "/d/a" = Some (Lnk "b") ->
    lstat fs "/d/b" = Some (Lnk "a") ->
    tf_name tar <> "/d/a" -> tf_name tar <> "/d/b" ->
    add_links fuel tar "/d/a" fs = Timeout /\
    add_links fuel tar "/d/b" fs = Timeout.
Proof.
  induction fuel as [|n IH]; intros tar fs Ha Hb Hna Hnb.
  - simpl. unfold islink. by rewrite Ha, Hb.
  - simpl. unfold islink, readlink. rewrite Ha, Hb.
    change (join (dirname "/d/a") "b") with "/d/b".
    change (join (dirname "/d/b") "a") with "/d/a".
    unfold bind, tar_add. rewrite Ha, Hb.
    split; apply IH; simpl; unfold lstat in *;
      rewrite ?lookup_insert_ne by done; done.
Qed.

(** ** The other files and the packages that are not packed *)





Section Claims.

Variable Runs : Type.
Variable load_config : content -> option (Runs * list Package * list File).
Variable creatable : FS -> string -> bool.

Local Abbreviation pack := (pack Runs load_config creatable).
Local Abbreviation pack_body := (pack_body creatable).

Lemma pack_checked fuel manifest target directory fs c runs packages other_files :
  exists_ fs target = false ->
  read_file fs (join directory "config.yml") = Some c ->
  load_config c = Some (runs, packages, other_files) ->
  pack fuel manifest target directory fs =
  pack_body fuel manifest target directory (join directory "config.yml")
            packages other_files fs.
Proof.
  intros He Hc Hl. unfold Pack.pack. rewrite He.
  assert (isfile fs (join directory "config.yml") = true) as ->.
  { unfold read_file in Hc. unfold isfile.
    by destruct (stat fs _) as [[]|]. }
  simpl. rewrite Hc. simpl. by rewrite Hl.
Qed.

Lemma pack_Done_checked fuel manifest target directory fs fs' :
  pack fuel manifest target directory fs = Done tt fs' ->
  exists_ fs target = false.
Proof.
  unfold Pack.pack. by destruct (exists_ fs target).
Qed.

(** C5. When something exists at the target path, [pack] exits with the
    message that the target file exists, whatever the configuration and
    whatever [load_config] would do with it, and leaves the file system,
    hence the file at the target path, as it was. *)
Theorem pack_refuses_existing_target fuel manifest target directory fs :
  exists_ fs target = true ->
  pack fuel manifest target directory fs =
  Fail (SystemExit 1 msg_target_exists) fs.
Proof. intros H. unfold Pack.pack. by rewrite H. Qed.


(** C1, as the code has it. For a package file that heads a chain of
    links ending at a path that is not a link, every target naming
    something, the body of the loop over the files of a package adds the
    file and then each target of the chain, in order, as a member of its
    own, and returns; this for a chain of any length. *)
Theorem add_file_follows_every_link fs tar f ts fuel :
  lstat fs (tf_name tar) = Some (Reg (TarGz false (tf_members tar))) ->
  is_Some (lstat fs (path f)) ->
  link_chain fs (path f) ts ->
  length ts <= fuel ->
  exists tar',
    add_file fuel tar f fs = Done tar' (sync fs tar') /\
    tf_name tar' = tf_name tar /\
    names tar' = names tar ++ map lstrip_sep (path f :: ts).
Proof.
  intros Ht [nd Hf] Hc Hlen.
  enough (exists tar',
            add_file fuel tar f (sync fs tar) = Done tar' (sync fs tar') /\
            tf_name tar' = tf_name tar /\
            names tar' = names tar ++ map lstrip_sep (path f :: ts)) as HH
    by (by rewrite (sync_id fs tar Ht) in HH).
  rewrite <- (sync_id fs tar Ht) in Hf, Hc.
  unfold add_file, bind. rewrite tar_add_sync, Hf. simpl.
  set (tar1 := {| tf_name := tf_name tar; tf_members := _ |}).
  destruct (add_links_chain fs ts tar1 (path f) fuel) as (tar' & Ha & Hn & Hm).
  { eapply same_shape_link_chain; [| exact Hc]. by apply same_shape_sync. }
  { done. }
  exists tar'. split_and!; [done | by rewrite Hn |].
  rewrite Hm. unfold names, tar1. simpl. rewrite map_app. simpl.
  by rewrite <- app_assoc.
Qed.

(** C6. A pack that succeeds leaves at the target a closed archive whose
    members are named, in this order: the version marker, the
    configuration, the trace if and only if the directory has one (as
    [os.path.isfile] sees it once the archive is created), then the
    payload in the order of the configuration (for each package to pack
    its files, each followed by its link targets, then the other files).
    And the pass is deterministic: whatever name the temporary
    file of the version marker gets, any other successful pack of the
    same file system to the same target leaves the same file system. *)
Theorem pack_member_order
    fuel manifest target directory fs fs' q c runs packages other_files :
  resolve MAXSYMLINKS fs target = Some q ->
  lstat fs manifest = None ->
  manifest <> q ->
  read_file fs (join directory "config.yml") = Some c ->
  load_config c = Some (runs, packages, other_files) ->
  pack fuel manifest target directory fs = Done tt fs' ->
  (exists ms,
     fs' = <[q := Reg (TarGz true ms)]> fs /\
     map m_arcname ms =
       archive_names fuel (opened q fs) directory packages other_files) /\
  (forall fuel2 manifest2 fs2,
     lstat fs manifest2 = None ->
     manifest2 <> q ->
     pack fuel2 manifest2 target directory fs = Done tt fs2 ->
     fs2 = fs').
Proof.
  intros Hr Hm Hne Hc Hl Hp.
  pose proof (pack_Done_checked _ _ _ _ _ _ Hp) as He.
  rewrite (pack_checked _ _ _ _ _ _ _ _ _ He Hc Hl) in Hp.
  pose proof (pack_body_Done_creatable _ _ _ _ _ _ _ _ _ _ q He Hr Hp) as Hcr.
  rewrite (pack_body_eq _ _ _ _ _ _ _ _ _ q He Hr Hcr Hm Hne) in Hp.
  destruct (add_members fuel _ _ _ _ _ _) as [tar' fs1 | |] eqn:Ea;
    [| discriminate..].
  injection Hp as <-. split.
  - exists (tf_members tar'). split; [done |].
    pose proof (emits_add_members _ _ _ _ _ _ _ _ _ Ea) as Hn.
    unfold names in Hn. rewrite Hn. unfold archive_names. simpl. f_equal.
    assert (same_shape (sync fs (tar_v q)) (opened q fs)) as Hs
      by apply (same_shape_sync fs (tar_v q) {| tf_name := q; tf_members := [] |} eq_refl).
    rewrite (same_shape_isfile _ _ _ Hs).
    by rewrite (shape_only_payload fuel packages other_files _ _ Hs).
  - intros fuel2 manifest2 fs2 Hm2 Hne2 Hp2.
    rewrite (pack_checked _ _ _ _ _ _ _ _ _ He Hc Hl) in Hp2.
    rewrite (pack_body_eq _ _ _ _ _ _ _ _ _ q He Hr Hcr Hm2 Hne2) in Hp2.
    destruct (add_members fuel2 _ _ _ _ _ _) as [tar2 fs3 | |] eqn:Ea2;
      [| discriminate..].
    injection Hp2 as <-.
    pose proof (refines_add_members fuel (max fuel fuel2) directory
                  (join directory "config.yml") packages other_files (tar_v q)
                  (Nat.le_max_l _ _) (sync fs (tar_v q))) as R1.
    pose proof (refines_add_members fuel2 (max fuel fuel2) directory
                  (join directory "config.yml") packages other_files (tar_v q)
                  (Nat.le_max_r _ _) (sync fs (tar_v q))) as R2.
    rewrite Ea in R1. rewrite Ea2 in R2.
    rewrite R1 in R2 by done. specialize (R2 ltac:(done)).
    by injection R2 as -> _.
Qed.


End Claims.

(** ** The claims on the experiments *)

Import PackExamples.

Lemma pack_refuses_existing_target_witness :
  exists_ exp_fs_packed "/out.rpz" = true /\
  pack unit exp_config exp_os 5 "/tmp/reprozip_k3j.txt" "/out.rpz" "/exp" exp_fs_packed
  = Fail (SystemExit 1 msg_target_exists) exp_fs_packed.
Proof.
  split; [vm_compute; reflexivity |].
  apply (pack_refuses_existing_target unit exp_config exp_os).
  vm_compute; reflexivity.
Defined.



(** Against C1: on the cycle of two links no number of iterations ends
    the loop, so [pack] neither returns nor fails; and a chain of 41
    links is followed to its end, each link a member. *)
Lemma pack_follows_links_without_bound :
  (forall fuel,
     pack unit cyc_config exp_os fuel "/tmp/reprozip_k3j.txt" "/out.rpz" "/exp" cyc_fs
     = Timeout) /\
  (exists fs' ms,
     pack unit long_config exp_os 41 "/tmp/reprozip_k3j.txt" "/out.rpz" "/exp" long_fs
     = Done tt fs' /\
     lstat fs' "/out.rpz" = Some (Reg (TarGz true ms)) /\
     drop 2 (map m_arcname ms) = map (fun i => "l/" +:+ a_name i) (seq 1 42)).
Proof.
  split.
  - intros fuel. pose proof (cyc_loop fuel) as H. revert H.
    unfold pack, pack_body, add_members, add_package, add_file.
    generalize (add_links fuel). intros al H. vm_compute.
    match goal with
    | |- context [al ?t ?n ?f] =>
        destruct (H t f) as [E _];
        [vm_compute; reflexivity | vm_compute; reflexivity
         | discriminate | discriminate |];
        change n with "/d/a"; rewrite E
    end.
    reflexivity.
  - do 2 eexists. split; [vm_compute; reflexivity |].
    split; vm_compute; reflexivity.
Qed.

Lemma add_file_follows_every_link_witness :
  exists tar',
    add_file 2 (tar_v "/out.rpz") {| path := "/usr/lib/libm.so" |}
             (sync exp_fs (tar_v "/out.rpz"))
    = Done tar' (sync (sync exp_fs (tar_v "/out.rpz")) tar') /\
    tf_name tar' = "/out.rpz" /\
    names tar' =
      ["METADATA/version"; "usr/lib/libm.so"; "usr/lib/libm.so.6";
       "lib/libm-2.31.so"].
Proof.
  apply (add_file_follows_every_link (sync exp_fs (tar_v "/out.rpz"))
           (tar_v "/out.rpz") {| path := "/usr/lib/libm.so" |}
           ["/usr/lib/libm.so.6"; "/lib/libm-2.31.so"] 2).
  - vm_compute; reflexivity.
  - eexists. vm_compute; reflexivity.
  - apply (chain_hop _ "/usr/lib/libm.so" "libm.so.6" ["/lib/libm-2.31.so"]);
      [vm_compute; reflexivity | eexists; vm_compute; reflexivity |].
    apply (chain_hop _ "/usr/lib/libm.so.6" "/lib/libm-2.31.so" []);
      [vm_compute; reflexivity | eexists; vm_compute; reflexivity |].
    apply chain_end. vm_compute; reflexivity.
  - simpl. lia.
Defined.

Lemma pack_member_order_witness :
  (exists ms,
     exp_fs_done = <["/out.rpz" := Reg (TarGz true ms)]> exp_fs /\
     map m_arcname ms =
       archive_names 5 (opened "/out.rpz" exp_fs) "/exp" [libm] [input_csv]) /\
  (forall fuel2 manifest2 fs2,
     lstat exp_fs manifest2 = None ->
     manifest2 <> "/out.rpz" ->
     pack unit exp_config exp_os fuel2 manifest2 "/out.rpz" "/exp" exp_fs = Done tt fs2 ->
     fs2 = exp_fs_done).
Proof.
  apply (pack_member_order unit exp_config exp_os 5 "/tmp/reprozip_k3j.txt"
           "/out.rpz" "/exp" exp_fs exp_fs_done "/out.rpz"
           (Bytes "runs: 1") tt [libm] [input_csv]);
    vm_compute; (reflexivity || discriminate).
Defined.



End PackFacts.

(* ===================================================================== *)
(** * The replay executor: properties *)
(* ===================================================================== *)

Module ContainerExecFacts.
Import ContainerExec ContainerExecExamples.

(** C9. Whatever the arguments and the state, the upload and download
    actions return after appending one line to the log: the files (the
    isolated root and the local file system), the sidecars and everything
    else are as before. *)
Theorem upload_download_only_log args w :
  containerexec_upload args w =
    (Return tt,
     {| files := files w; sidecars := sidecars w;
        log := log w ++ ["containerexec_upload"];
        stderr := stderr w; hooks := hooks w; handlers := handlers w;
        invocations := invocations w |}) /\
  containerexec_download args w =
    (Return tt,
     {| files := files w; sidecars := sidecars w;
        log := log w ++ ["containerexec_download"];
        stderr := stderr w; hooks := hooks w; handlers := handlers w;
        invocations := invocations w |}).
Proof. split; reflexivity. Qed.

Lemma append_assoc (s1 s2 s3 : string) :
  (s1 +:+ s2) +:+ s3 = s1 +:+ s2 +:+ s3.
Proof.
  induction s1 as [|c s1 IH]; [done |].
  change (String c ((s1 +:+ s2) +:+ s3) = String c (s1 +:+ s2 +:+ s3)).
  by f_equal.
Qed.

Section Facts.

Variable shell_escape : string -> string.
Variable metadata_read : string -> World -> outcome ReplayState.
Variable get_runs :
  list Run -> option string -> option (list string) -> outcome (list nat).
Variable fixup_environment : list (string * string) -> Args -> list (string * string).
Variable x11_fix_env : Args -> list (string * string) -> list (string * string).
Variable x11_init_cmds : Args -> list string.
Variable load_config_file : string -> World -> outcome (list Run).
Variable execute_run : Invocation -> World -> outcome RunResult.

Local Abbreviation run_cmd :=
  (run_cmd shell_escape fixup_environment x11_fix_env).
Local Abbreviation runs_loop :=
  (runs_loop shell_escape fixup_environment x11_fix_env).
Local Abbreviation containerexec_invocation :=
  (containerexec_invocation shell_escape fixup_environment x11_fix_env
     x11_init_cmds).
Local Abbreviation containerexec_run :=
  (containerexec_run shell_escape metadata_read get_runs fixup_environment
     x11_fix_env
     x11_init_cmds load_config_file execute_run).

(** ** The loop over the selected runs *)

Lemma runs_loop_app args runs sel rs :
  Forall2 (fun i r => runs !! i = Some r) sel rs ->
  forall cmds u g,
    runs_loop args runs sel (cmds, u, g) =
    Return (cmds ++ map (run_cmd args) rs,
            from_option uid u (last rs),
            from_option gid g (last rs)).
Proof.
  induction 1 as [| i r sel rs Hi _ IH]; intros cmds u g; simpl.
  - by rewrite app_nil_r.
  - rewrite Hi, IH, <- app_assoc. simpl.
    destruct rs as [|r' rs']; simpl; [done |].
    destruct (last (r' :: rs')) eqn:E; [done | by apply last_None in E].
Qed.

Lemma invocation_of_selection args runs sel rs k r :
  Forall2 (fun i r => runs !! i = Some r) sel rs ->
  runs !! k = Some r ->
  containerexec_invocation args runs (sel ++ [k]) =
  Return {| i_cmds := String.concat " && "
                        (map (sh_c shell_escape) (x11_init_cmds args) ++
                         map (run_cmd args) (rs ++ [r]));
            i_uid := uid r; i_gid := gid r;
            i_workingDir := a_target args;
            i_setup_reprounzip := CONFIGURE_REPROUNZIP_CONTAINER |}.
Proof.
  intros Hs Hk. unfold ContainerExec.containerexec_invocation.
  rewrite (runs_loop_app args runs (sel ++ [k]) (rs ++ [r])).
  - by rewrite last_snoc.
  - apply Forall2_app; [done | by constructor].
Qed.

(** The request made to the executor is recorded once, whatever happens
    after it. *)
Lemma run_records_invocation args w st runs sel inv :
  metadata_read (a_target args) w = Return st ->
  load_config_file (Posix.join (a_target args) "config.yml") w = Return runs ->
  get_runs runs (a_run args) (a_cmdline args) = Return sel ->
  containerexec_invocation args runs sel = Return inv ->
  invocations (snd (containerexec_run (Some args) w)) = invocations w ++ [inv].
Proof.
  intros Hst Hc Hg Hi.
  unfold ContainerExec.containerexec_run, bind_w, ask, lift.
  rewrite Hst, Hc, Hg, Hi. simpl.
  unfold try_except, bind_w, fire, do_execute_run. simpl.
  destruct (execute_run inv _) as [result | e]; simpl.
  - unfold lift. destruct (format_status (value result)); simpl; [done |].
    by destruct e.
  - by destruct e.
Qed.

(** C4. When the selection ends with run [k], whatever runs come before
    it, [containerexec_run] makes one request to the executor: the
    commands of all the selected runs, in the order of the selection,
    joined by [&&] after the X11 commands, under the uid and the gid
    recorded for run [k]. *)
Theorem combined_invocation_uses_last_uid_gid args w st runs sel rs k r :
  metadata_read (a_target args) w = Return st ->
  load_config_file (Posix.join (a_target args) "config.yml") w = Return runs ->
  get_runs runs (a_run args) (a_cmdline args) = Return (sel ++ [k]) ->
  Forall2 (fun i r => runs !! i = Some r) sel rs ->
  runs !! k = Some r ->
  invocations (snd (containerexec_run (Some args) w)) =
  invocations w ++
  [ {| i_cmds := String.concat " && "
                   (map (sh_c shell_escape) (x11_init_cmds args) ++
                    map (run_cmd args) (rs ++ [r]));
       i_uid := uid r; i_gid := gid r;
       i_workingDir := a_target args;
       i_setup_reprounzip := CONFIGURE_REPROUNZIP_CONTAINER |} ].
Proof.
  intros Hst Hc Hg Hs Hk.
  apply (run_records_invocation args w st runs (sel ++ [k])); try done.
  by apply invocation_of_selection.
Qed.



End Facts.

(** ** The claims on the experiments *)

Lemma combined_invocation_uses_last_uid_gid_witness :
  invocations
    (snd (containerexec_run quote read_sidecar all_runs no_fixup no_x11_env
            no_x11_cmds
            (config_of [run0; run1]) exits3 (Some args0) world0)) =
  [ {| i_cmds := String.concat " && "
                   (map (sh_c quote) [] ++
                    map (run_cmd quote no_fixup no_x11_env args0) ([run0] ++ [run1]));
       i_uid := 1001; i_gid := 100;
       i_workingDir := "/tmp/unpacked";
       i_setup_reprounzip := CONFIGURE_REPROUNZIP_CONTAINER |} ].
Proof.
  apply (combined_invocation_uses_last_uid_gid quote read_sidecar all_runs
           no_fixup
           no_x11_env no_x11_cmds (config_of [run0; run1]) exits3
           args0 world0 state0 [run0; run1] [0] [run0] 1 run1).
  - reflexivity.
  - reflexivity.
  - reflexivity.
  - repeat constructor.
  - reflexivity.
Defined.

(** C3, the defect. The child of the selected runs is killed by
    signal 9: the result of the executor carries the signal and no exit
    status. Line 110 formats [result.value] with [%d] before its [or]
    can turn to [result.signal], and raises [TypeError]:
    [containerexec_run] reports no exit code at all, neither 137 nor the
    9 that line 121 would make of the result; the status line is not
    written, [post_run] does not fire and the runs are not marked as
    executed, although the process has run. *)
Theorem killed_run_reports_no_exit_code :
  let r := containerexec_run quote read_sidecar all_runs no_fixup no_x11_env
             no_x11_cmds (config_of [run0; run1]) killed (Some args0) world0 in
  signal (Signaled 9) = Some 9%Z /\
  value (Signaled 9) = None /\
  fst r = Raise TypeError /\
  (forall v, fst r <> Return v) /\
  retcode (Signaled 9) = Some 9%Z /\
  length (invocations (snd r)) = 1 /\
  stderr (snd r) = [] /\
  hooks (snd r) = [pre_run "/tmp/unpacked"] /\
  sidecars (snd r) = sidecars world0.
Proof.
  split_and!; try reflexivity. intros v. discriminate.
Qed.

End ContainerExecFacts.

(* ===================================================================== *)
(** * The replay executor: what else [containerexec_run] does *)
(* ===================================================================== *)

Module ContainerExecMore.
Import ContainerExec ContainerExecExamples ContainerExecSpec.

Section More.

Variable shell_escape : string -> string.
Variable metadata_read : string -> World -> outcome ReplayState.
Variable get_runs :
  list Run -> option string -> option (list string) -> outcome (list nat).
Variable fixup_environment : list (string * string) -> Args -> list (string * string).
Variable x11_fix_env : Args -> list (string * string) -> list (string * string).
Variable x11_init_cmds : Args -> list string.
Variable load_config_file : string -> World -> outcome (list Run).
Variable execute_run : Invocation -> World -> outcome RunResult.

Local Abbreviation runs_loop :=
  (runs_loop shell_escape fixup_environment x11_fix_env).
Local Abbreviation containerexec_invocation :=
  (containerexec_invocation shell_escape fixup_environment x11_fix_env
     x11_init_cmds).
Local Abbreviation containerexec_run :=
  (containerexec_run shell_escape metadata_read get_runs fixup_environment
     x11_fix_env x11_init_cmds load_config_file execute_run).

Lemma runs_loop_out_of_range args runs sel i :
  i ∈ sel -> runs !! i = None ->
  forall acc, runs_loop args runs sel acc = Raise IndexError.
Proof.
  intros Hi Hn. induction sel as [|j sel IH]; intros acc.
  - by apply elem_of_nil in Hi.
  - simpl. destruct (runs !! j) as [r|] eqn:Ej; [| done].
    destruct acc as [[cmds u] g]. apply IH.
    apply elem_of_cons in Hi as [-> | Hi]; [congruence | done].
Qed.

Lemma run_to_executor args w st runs sel inv :
  metadata_read (a_target args) w = Return st ->
  load_config_file (Posix.join (a_target args) "config.yml") w = Return runs ->
  get_runs runs (a_run args) (a_cmdline args) = Return sel ->
  containerexec_invocation args runs sel = Return inv ->
  containerexec_run (Some args) w =
  let w1 := ready (a_target args) w in
  let w2 :=
    {| files := files w1; sidecars := sidecars w1; log := log w1;
       stderr := stderr w1; hooks := hooks w1; handlers := handlers w1;
       invocations := invocations w1 ++ [inv] |} in
  match execute_run inv w1 with
  | Return result =>
      match value result with
      | Some c =>
          (Return (retcode result),
           {| files := files w2;
              sidecars := <[a_target args := metadata_update_run st sel]>
                            (sidecars w2);
              log := log w2;
              stderr := stderr w2 ++
                [nl +:+ "*** Command finished, status: " +:+ pretty c +:+ nl];
              hooks := hooks w2 ++ [post_run (a_target args) (Some c)];
              handlers := handlers w2;
              invocations := invocations w2 |})
      | None => (Raise TypeError, w2)
      end
  | Raise (BenchExecException m) =>
      (Raise (SystemExit 1 ("Cannot execute process: " +:+ m +:+ ".")), w2)
  | Raise (OSError m) =>
      (Raise (SystemExit 1 ("Cannot execute process: " +:+ m +:+ ".")), w2)
  | Raise e => (Raise e, w2)
  end.
Proof.
  intros Hst Hc Hg Hi.
  unfold ContainerExec.containerexec_run, bind_w, ask, lift.
  rewrite Hst, Hc, Hg, Hi. simpl.
  unfold try_except, bind_w, fire, do_execute_run, ready. simpl.
  destruct (execute_run inv _) as [result | e]; simpl.
  - unfold lift, format_status. destruct (value result) as [c|]; reflexivity.
  - destruct e; reflexivity.
Qed.

(** With no run selected the executor is still called, as root: uid and
    gid keep their initial 0, and the command is the X11 commands
    alone. *)
Theorem empty_selection_runs_as_root args w st runs :
  metadata_read (a_target args) w = Return st ->
  load_config_file (Posix.join (a_target args) "config.yml") w = Return runs ->
  get_runs runs (a_run args) (a_cmdline args) = Return [] ->
  invocations (snd (containerexec_run (Some args) w)) =
  invocations w ++
  [ {| i_cmds := String.concat " && "
                   (map (sh_c shell_escape) (x11_init_cmds args));
       i_uid := 0; i_gid := 0;
       i_workingDir := a_target args;
       i_setup_reprounzip := CONFIGURE_REPROUNZIP_CONTAINER |} ].
Proof.
  intros Hst Hc Hg.
  rewrite (run_to_executor args w st runs [] _ Hst Hc Hg)
    by (unfold ContainerExec.containerexec_invocation; simpl;
        by rewrite app_nil_r).
  simpl. destruct (execute_run _ _) as [result | e]; simpl.
  - by destruct (value result).
  - by destruct e.
Qed.

(** A selected run number beyond the recorded runs raises [IndexError]
    before anything is done: no handler is installed, no hook fires, the
    executor is not called and the sidecar is not written. *)
Theorem run_number_out_of_range_does_nothing args w st runs sel i :
  metadata_read (a_target args) w = Return st ->
  load_config_file (Posix.join (a_target args) "config.yml") w = Return runs ->
  get_runs runs (a_run args) (a_cmdline args) = Return sel ->
  i ∈ sel ->
  length runs <= i ->
  containerexec_run (Some args) w = (Raise IndexError, w).
Proof.
  intros Hst Hc Hg Hi Hlen.
  unfold ContainerExec.containerexec_run, bind_w, ask, lift.
  rewrite Hst, Hc, Hg. unfold ContainerExec.containerexec_invocation.
  rewrite (runs_loop_out_of_range args runs sel i Hi); [done |].
  by apply lookup_ge_None.
Qed.

(** When the executor cannot run the process ([BenchExecException] or
    [OSError]), [containerexec_run] exits with status 1 and the message
    "Cannot execute process: ...": the selected runs are not marked as
    executed, [post_run] does not fire and nothing goes to stderr
    before the exit. *)
Theorem executor_failure_exits_without_marking args w st runs sel inv e m :
  metadata_read (a_target args) w = Return st ->
  load_config_file (Posix.join (a_target args) "config.yml") w = Return runs ->
  get_runs runs (a_run args) (a_cmdline args) = Return sel ->
  containerexec_invocation args runs sel = Return inv ->
  e = BenchExecException m \/ e = OSError m ->
  execute_run inv (ready (a_target args) w) = Raise e ->
  let r := containerexec_run (Some args) w in
  fst r = Raise (SystemExit 1 ("Cannot execute process: " +:+ m +:+ ".")) /\
  sidecars (snd r) = sidecars w /\
  stderr (snd r) = stderr w /\
  hooks (snd r) = hooks w ++ [pre_run (a_target args)] /\
  invocations (snd r) = invocations w ++ [inv].
Proof.
  intros Hst Hc Hg Hi He Hx. cbv zeta.
  rewrite (run_to_executor args w st runs sel inv Hst Hc Hg Hi). cbv zeta.
  rewrite Hx. by destruct He as [-> | ->].
Qed.

(** When the process ends with an exit status [c], [containerexec_run]
    writes the status line to stderr, fires [post_run] with [c], marks
    the selected runs in the sidecar and returns what line 121 makes of
    the result; the files are not touched. *)
Theorem exit_status_marks_runs_and_returns args w st runs sel inv result c :
  metadata_read (a_target args) w = Return st ->
  load_config_file (Posix.join (a_target args) "config.yml") w = Return runs ->
  get_runs runs (a_run args) (a_cmdline args) = Return sel ->
  containerexec_invocation args runs sel = Return inv ->
  execute_run inv (ready (a_target args) w) = Return result ->
  value result = Some c ->
  containerexec_run (Some args) w =
  (Return (retcode result),
   {| files := files w;
      sidecars := <[a_target args := metadata_update_run st sel]> (sidecars w);
      log := log w;
      stderr := stderr w ++
                [nl +:+ "*** Command finished, status: " +:+ pretty c +:+ nl];
      hooks := (hooks w ++ [pre_run (a_target args)]) ++
               [post_run (a_target args) (Some c)];
      handlers := (handlers w ++ [SIGTERM]) ++ [SIGINT];
      invocations := invocations w ++ [inv] |}).
Proof.
  intros Hst Hc Hg Hi Hx Hv.
  rewrite (run_to_executor args w st runs sel inv Hst Hc Hg Hi). cbv zeta.
  rewrite Hx, Hv. reflexivity.
Qed.

(** When the result of the executor carries no exit status
    ([result.value] is [None]), formatting the status line with [%d]
    raises [TypeError]: although the process has run, nothing goes to
    stderr, [post_run] does not fire and the selected runs are not marked
    as executed. *)
Theorem no_exit_status_raises_before_marking args w st runs sel inv result :
  metadata_read (a_target args) w = Return st ->
  load_config_file (Posix.join (a_target args) "config.yml") w = Return runs ->
  get_runs runs (a_run args) (a_cmdline args) = Return sel ->
  containerexec_invocation args runs sel = Return inv ->
  execute_run inv (ready (a_target args) w) = Return result ->
  value result = None ->
  let r := containerexec_run (Some args) w in
  fst r = Raise TypeError /\
  sidecars (snd r) = sidecars w /\
  stderr (snd r) = stderr w /\
  hooks (snd r) = hooks w ++ [pre_run (a_target args)] /\
  invocations (snd r) = invocations w ++ [inv].
Proof.
  intros Hst Hc Hg Hi Hx Hv. cbv zeta.
  rewrite (run_to_executor args w st runs sel inv Hst Hc Hg Hi). cbv zeta.
  by rewrite Hx, Hv.
Qed.

End More.

Lemma empty_selection_runs_as_root_witness :
  invocations
    (snd (containerexec_run quote read_sidecar
            (fun _ _ _ => Return []) no_fixup no_x11_env no_x11_cmds
            (config_of [run0; run1]) exits3 (Some args0) world0)) =
  [] ++
  [ {| i_cmds := String.concat " && " (map (sh_c quote) []);
       i_uid := 0; i_gid := 0;
       i_workingDir := "/tmp/unpacked";
       i_setup_reprounzip := CONFIGURE_REPROUNZIP_CONTAINER |} ].
Proof.
  apply (empty_selection_runs_as_root quote read_sidecar
           (fun _ _ _ => Return []) no_fixup no_x11_env no_x11_cmds
           (config_of [run0; run1]) exits3 args0 world0 state0 [run0; run1]);
    reflexivity.
Defined.

Lemma run_number_out_of_range_does_nothing_witness :
  containerexec_run quote read_sidecar
    (fun _ _ _ => Return [0; 2]) no_fixup no_x11_env no_x11_cmds
    (config_of [run0; run1]) exits3 (Some args0) world0
  = (Raise IndexError, world0).
Proof.
  apply (run_number_out_of_range_does_nothing quote read_sidecar
           (fun _ _ _ => Return [0; 2]) no_fixup no_x11_env no_x11_cmds
           (config_of [run0; run1]) exits3 args0 world0 state0 [run0; run1]
           [0; 2] 2);
    [reflexivity | reflexivity | reflexivity | set_solver | simpl; lia].
Defined.

Lemma executor_failure_exits_without_marking_witness :
  let r := containerexec_run quote read_sidecar all_runs no_fixup no_x11_env
             no_x11_cmds (config_of [run0; run1])
             (fun _ _ => Raise (OSError "no such user")) (Some args0) world0 in
  fst r = Raise (SystemExit 1 ("Cannot execute process: " +:+ "no such user"
                               +:+ ".")) /\
  sidecars (snd r) = sidecars world0 /\
  stderr (snd r) = stderr world0 /\
  hooks (snd r) = hooks world0 ++ [pre_run "/tmp/unpacked"] /\
  invocations (snd r) =
    invocations world0 ++
    [ {| i_cmds := String.concat " && "
                     (map (sh_c quote) [] ++
                      map (run_cmd quote no_fixup no_x11_env args0) [run0; run1]);
         i_uid := 1001; i_gid := 100;
         i_workingDir := "/tmp/unpacked";
         i_setup_reprounzip := CONFIGURE_REPROUNZIP_CONTAINER |} ].
Proof.
  apply (executor_failure_exits_without_marking quote read_sidecar all_runs
           no_fixup no_x11_env no_x11_cmds (config_of [run0; run1])
           (fun _ _ => Raise (OSError "no such user"))
           args0 world0 state0 [run0; run1] [0; 1] _
           (OSError "no such user") "no such user");
    try reflexivity.
  by right.
Defined.

Lemma exit_status_marks_runs_and_returns_witness :
  containerexec_run quote read_sidecar all_runs no_fixup no_x11_env
    no_x11_cmds (config_of [run0; run1]) exits3 (Some args0) world0 =
  (Return (retcode (Exited 3)),
   {| files := files world0;
      sidecars := <["/tmp/unpacked" := metadata_update_run state0 [0; 1]]>
                    (sidecars world0);
      log := log world0;
      stderr := stderr world0 ++
                [nl +:+ "*** Command finished, status: " +:+ pretty 3%Z +:+ nl];
      hooks := (hooks world0 ++ [pre_run "/tmp/unpacked"]) ++
               [post_run "/tmp/unpacked" (Some 3%Z)];
      handlers := (handlers world0 ++ [SIGTERM]) ++ [SIGINT];
      invocations := invocations world0 ++
        [ {| i_cmds := String.concat " && "
                         (map (sh_c quote) [] ++
                          map (run_cmd quote no_fixup no_x11_env args0)
                              [run0; run1]);
             i_uid := 1001; i_gid := 100;
             i_workingDir := "/tmp/unpacked";
             i_setup_reprounzip := CONFIGURE_REPROUNZIP_CONTAINER |} ] |}).
Proof.
  apply (exit_status_marks_runs_and_returns quote read_sidecar all_runs
           no_fixup no_x11_env no_x11_cmds (config_of [run0; run1]) exits3
           args0 world0 state0 [run0; run1] [0; 1] _ (Exited 3) 3);
    reflexivity.
Defined.

Lemma no_exit_status_raises_before_marking_witness :
  let r := containerexec_run quote read_sidecar all_runs no_fixup no_x11_env
             no_x11_cmds (config_of [run0; run1]) killed (Some args0) world0 in
  fst r = Raise TypeError /\
  sidecars (snd r) = sidecars world0 /\
  stderr (snd r) = stderr world0 /\
  hooks (snd r) = hooks world0 ++ [pre_run "/tmp/unpacked"] /\
  invocations (snd r) =
    invocations world0 ++
    [ {| i_cmds := String.concat " && "
                     (map (sh_c quote) [] ++
                      map (run_cmd quote no_fixup no_x11_env args0) [run0; run1]);
         i_uid := 1001; i_gid := 100;
         i_workingDir := "/tmp/unpacked";
         i_setup_reprounzip := CONFIGURE_REPROUNZIP_CONTAINER |} ].
Proof.
  apply (no_exit_status_raises_before_marking quote read_sidecar all_runs
           no_fixup no_x11_env no_x11_cmds (config_of [run0; run1]) killed
           args0 world0 state0 [run0; run1] [0; 1] _ (Signaled 9));
    reflexivity.
Defined.

End ContainerExecMore.

(* ===================================================================== *)
(** * The packer: what else [pack] does *)
(* ===================================================================== *)

Module PackMore.
Import Posix Pack PackSpec PackSpec2 PackExamples.

(** ** Turns of the loop *)

Lemma hop_shape fs fs' t : same_shape fs fs' -> hop fs t = hop fs' t.
Proof.
  intros H. unfold hop. by rewrite (PackFacts.same_shape_readlink fs fs' t H).
Qed.

Lemma hops_shape fs fs' n t : same_shape fs fs' -> hops n fs t = hops n fs' t.
Proof.
  intros H. revert t. induction n as [|n IH]; intros t; simpl; [done |].
  rewrite (hop_shape fs fs' t H). destruct (hop fs' t); [apply IH | done].
Qed.

Lemma hops_add fs a b t :
  hops (a + b) fs t =
  match hops a fs t with
  | Some t' => hops b fs t'
  | None => None
  end.
Proof.
  revert t. induction a as [|a IH]; intros t; simpl; [done |].
  destruct (hop fs t); [apply IH | done].
Qed.

Lemma cycle_hops fs k t :
  0 < k -> hops k fs t = Some t -> forall n, is_Some (hops n fs t).
Proof.
  intros Hk Hc n. induction n as [n IH] using lt_wf_ind.
  destruct (decide (n < k)) as [Hlt | Hge].
  - replace k with (n + (k - n)) in Hc by lia. rewrite hops_add in Hc.
    destruct (hops n fs t); [eauto | discriminate].
  - replace n with (k + (n - k)) by lia. rewrite hops_add, Hc.
    apply IH. lia.
Qed.

Lemma add_links_endless fuel :
  forall fs0 tar t,
    (forall n, is_Some (hops n (sync fs0 tar) t)) ->
    add_links fuel tar t (sync fs0 tar) = Timeout.
Proof.
  induction fuel as [|fuel IH]; intros fs0 tar t H.
  - simpl. destruct (H 1) as [t1 H1]. simpl in H1. unfold hop in H1.
    unfold islink, readlink in *.
    by destruct (lstat (sync fs0 tar) t) as [[]|].
  - destruct (H 2) as [t2 H2]. simpl in H2.
    destruct (hop (sync fs0 tar) t) as [t1|] eqn:E1; [| discriminate].
    destruct (hop (sync fs0 tar) t1) as [t2'|] eqn:E2; [| discriminate].
    unfold hop in E1, E2.
    destruct (readlink (sync fs0 tar) t) as [l|] eqn:El; [| discriminate].
    injection E1 as <-.
    destruct (readlink (sync fs0 tar) (join (dirname t) l)) as [l1|] eqn:El1;
      [| discriminate].
    simpl. unfold islink. unfold readlink in El, El1.
    destruct (lstat (sync fs0 tar) t) as [[| |]|] eqn:Et; try discriminate.
    injection El as ->.
    unfold readlink. rewrite Et. unfold bind.
    rewrite PackFacts.tar_add_sync.
    destruct (lstat (sync fs0 tar) (join (dirname t) l)) as [nd|];
      [| discriminate].
    simpl. apply IH. intros n.
    match goal with
    | |- is_Some (hops n (sync fs0 ?t1) _) =>
        rewrite (hops_shape (sync fs0 t1) (sync fs0 tar) n _
                   (PackFacts.same_shape_sync fs0 t1 tar eq_refl))
    end.
    specialize (H (S n)). simpl in H. unfold hop, readlink in H.
    by rewrite Et in H.
Qed.

(** On a cycle of links the loop of lines 59-63 never ends: when some
    number of turns from [t] leads back to [t], no number of iterations
    makes [add_links] return or fail. *)
Theorem add_links_cycle_never_ends fs tar t k :
  lstat fs (tf_name tar) = Some (Reg (TarGz false (tf_members tar))) ->
  0 < k ->
  hops k fs t = Some t ->
  forall fuel, add_links fuel tar t fs = Timeout.
Proof.
  intros Ht Hk Hc fuel.
  rewrite <- (PackFacts.sync_id fs tar Ht) in Hc |- *.
  apply add_links_endless. by apply cycle_hops with k.
Qed.

(** A package file that is a link to a path that names nothing makes the
    body of the loop over the files fail with [OSError] on that path,
    after the link itself was added to the archive. *)
Theorem add_file_broken_link_fails fs tar f l fuel :
  lstat fs (tf_name tar) = Some (Reg (TarGz false (tf_members tar))) ->
  lstat fs (path f) = Some (Lnk l) ->
  lstat fs (join (dirname (path f)) l) = None ->
  add_file (S fuel) tar f fs =
  Fail (OSError (join (dirname (path f)) l))
       (sync fs (push tar (Member (lstrip_sep (path f)) (Lnk l)))).
Proof.
  intros Ht Hf Hn.
  assert (tf_name tar <> path f) as Hne1 by (intros E; congruence).
  assert (tf_name tar <> join (dirname (path f)) l) as Hne2
    by (intros E; congruence).
  unfold add_file, bind, tar_add. rewrite Hf. simpl.
  unfold islink, readlink, lstat in *.
  rewrite lookup_insert_ne by done. rewrite Hf.
  unfold bind, tar_add, lstat. simpl.
  rewrite lookup_insert_ne by done. rewrite Hn.
  reflexivity.
Qed.

Section More.

Variable Runs : Type.
Variable load_config : content -> option (Runs * list Package * list File).
Variable creatable : FS -> string -> bool.

Local Abbreviation pack := (pack Runs load_config creatable).
Local Abbreviation pack_body := (pack_body creatable).

Lemma pack_not_refused fuel manifest target directory fs r :
  pack fuel manifest target directory fs = r ->
  (exists e, r = Fail e fs /\
             (e = SystemExit 1 msg_target_exists \/
              e = SystemExit 1 msg_no_config \/ e = ConfigError)) \/
  (exists_ fs target = false /\
   exists c runs packages other_files,
     read_file fs (join directory "config.yml") = Some c /\
     load_config c = Some (runs, packages, other_files) /\
     r = pack_body fuel manifest target directory
           (join directory "config.yml") packages other_files fs).
Proof.
  intros <-. unfold Pack.pack.
  destruct (exists_ fs target) eqn:He; [left; eauto |].
  destruct (isfile fs _) eqn:Hi; simpl; [| left; eauto 6].
  destruct (read_file fs _) as [c|] eqn:Hc; simpl; [| left; eauto 6].
  destruct (load_config c) as [[[runs packages] other_files]|] eqn:Hl;
    [| left; eauto 6].
  right. split; [done |]. eauto 10.
Qed.

(** When [pack] fails with anything but an [OSError] (the target
    exists, the configuration file is missing, the configuration does not
    load), the file system is as before the call: nothing was created. *)
Theorem pack_failure_before_writing fuel manifest target directory fs e fs' :
  lstat fs manifest = None ->
  (forall q, resolve MAXSYMLINKS fs target = Some q -> manifest <> q) ->
  pack fuel manifest target directory fs = Fail e fs' ->
  (forall p, e <> OSError p) ->
  fs' = fs.
Proof.
  intros Hm Hq Hp Hne.
  destruct (pack_not_refused _ _ _ _ _ _ Hp)
    as [(e1 & [= <- <-] & _) | (He & c & runs & pk & ot & Hc & Hl & Hb)];
    [done |].
  symmetry in Hb.
  destruct (resolve MAXSYMLINKS fs target) as [q|] eqn:Hr.
  - destruct (creatable fs q) eqn:Hcr.
    + rewrite (PackFacts.pack_body_eq _ _ _ _ _ _ _ _ _ q He Hr Hcr Hm
                 (Hq q eq_refl)) in Hb.
      pose proof (PackFacts.steady_add_members fuel directory
                    (join directory "config.yml") pk ot fs (tar_v q)) as Hs.
      destruct (add_members _ _ _ _ _ _ _) as [| e1 fs1 |]; [done | | done].
      injection Hb as <- <-.
      destruct Hs as (_ & p & -> & _). by destruct (Hne p).
    + rewrite (PackFacts.pack_body_refused _ _ _ _ _ _ _ _ _ q He Hr Hcr)
        in Hb.
      by injection Hb as <- <-.
  - unfold Pack.pack_body, bind, tarfile_open in Hb. rewrite Hr in Hb.
    injection Hb as <- <-. by destruct (Hne target).
Qed.

(** Whatever way [pack] ends, the only path whose content it changes is
    the one the target leads to: every other file is as before the call,
    and the temporary file of the version marker is gone. *)
Theorem pack_touches_only_target fuel manifest target directory fs q p :
  resolve MAXSYMLINKS fs target = Some q ->
  lstat fs manifest = None ->
  manifest <> q ->
  p <> q ->
  match pack fuel manifest target directory fs with
  | Done _ fs' => lstat fs' p = lstat fs p
  | Fail _ fs' => lstat fs' p = lstat fs p
  | Timeout => True
  end.
Proof.
  intros Hr Hm Hne Hp.
  destruct (pack_not_refused fuel manifest target directory fs _ eq_refl)
    as [(e1 & -> & _) | (He & c & runs & pk & ot & Hc & Hl & ->)];
    [done |].
  destruct (creatable fs q) eqn:Hcr;
    [| by rewrite (PackFacts.pack_body_refused _ _ _ _ _ _ _ _ _ q He Hr Hcr)].
  rewrite (PackFacts.pack_body_eq _ _ _ _ _ _ _ _ _ q He Hr Hcr Hm Hne).
  pose proof (PackFacts.steady_add_members fuel directory
                (join directory "config.yml") pk ot fs (tar_v q)) as Hs.
  destruct (add_members _ _ _ _ _ _ _) as [tar' fs1 | e1 fs1 |]; [| | done].
  - unfold lstat. by rewrite lookup_insert_ne.
  - destruct Hs as (tar' & p1 & _ & _ & [Hn _] & ->).
    unfold lstat, sync. rewrite Hn. simpl. by rewrite lookup_insert_ne.
Qed.

(** A broken symbolic link at the target path does not stop [pack]
    ([os.path.exists] is false for it): a pack that succeeds has written
    the archive at the path the link leads to and left the link in
    place. *)
Theorem pack_writes_through_broken_link
    fuel manifest target directory fs fs' q l :
  lstat fs target = Some (Lnk l) ->
  resolve MAXSYMLINKS fs target = Some q ->
  lstat fs manifest = None ->
  manifest <> q ->
  pack fuel manifest target directory fs = Done tt fs' ->
  q <> target /\
  lstat fs q = None /\
  lstat fs' target = Some (Lnk l) /\
  exists ms, lstat fs' q = Some (Reg (TarGz true ms)).
Proof.
  intros Ht Hr Hm Hne Hp.
  destruct (pack_not_refused _ _ _ _ _ _ Hp)
    as [(e1 & [=] & _) | (He & c & runs & pk & ot & Hc & Hl & Hb)].
  symmetry in Hb.
  destruct (PackFacts.tarfile_open_fresh creatable fs target q He Hr)
    as [Hq _].
  assert (q <> target) as Hqt by (intros ->; congruence).
  pose proof (PackFacts.pack_body_Done_creatable _ _ _ _ _ _ _ _ _ _ q
                He Hr Hb) as Hcr.
  rewrite (PackFacts.pack_body_eq _ _ _ _ _ _ _ _ _ q He Hr Hcr Hm Hne) in Hb.
  destruct (add_members _ _ _ _ _ _ _) as [tar' fs1 | |]; [| done..].
  injection Hb as <-. split_and!; [done | done | |].
  - unfold lstat in *. by rewrite lookup_insert_ne.
  - eexists. unfold lstat. by rewrite lookup_insert_eq.
Qed.

End More.

(** ** On the experiments *)

Import PackExamples2.

Lemma add_links_cycle_never_ends_witness :
  add_links 1000 (tar_v "/out.rpz") "/d/a" (sync cyc_fs (tar_v "/out.rpz"))
  = Timeout.
Proof.
  refine (add_links_cycle_never_ends (sync cyc_fs (tar_v "/out.rpz"))
            (tar_v "/out.rpz") "/d/a" 2 _ _ _ 1000);
    [vm_compute; reflexivity | lia | vm_compute; reflexivity].
Defined.

Lemma add_file_broken_link_fails_witness :
  add_file 1 (tar_v "/out.rpz") {| path := "/usr/lib/libm.so" |}
           (sync exp_fs_broken (tar_v "/out.rpz")) =
  Fail (OSError (join (dirname "/usr/lib/libm.so") "libm.so.6"))
       (sync (sync exp_fs_broken (tar_v "/out.rpz"))
             (push (tar_v "/out.rpz")
                   (Member (lstrip_sep "/usr/lib/libm.so") (Lnk "libm.so.6")))).
Proof.
  apply (add_file_broken_link_fails (sync exp_fs_broken (tar_v "/out.rpz"))
           (tar_v "/out.rpz") {| path := "/usr/lib/libm.so" |} "libm.so.6" 0);
    vm_compute; reflexivity.
Defined.

Lemma pack_failure_before_writing_witness :
  lstat exp_fs_noconfig "/tmp/reprozip_k3j.txt" = None /\
  resolve MAXSYMLINKS exp_fs_noconfig "/out.rpz" = Some "/out.rpz" /\
  pack unit exp_config exp_os 5 "/tmp/reprozip_k3j.txt" "/out.rpz" "/exp"
       exp_fs_noconfig
    = Fail (SystemExit 1 msg_no_config) exp_fs_noconfig /\
  exp_fs_noconfig = exp_fs_noconfig.
Proof.
  split; [vm_compute; reflexivity |].
  split; [vm_compute; reflexivity |].
  split; [vm_compute; reflexivity |].
  apply (pack_failure_before_writing unit exp_config exp_os 5
           "/tmp/reprozip_k3j.txt" "/out.rpz" "/exp" exp_fs_noconfig
           (SystemExit 1 msg_no_config) exp_fs_noconfig).
  - vm_compute; reflexivity.
  - intros q Hq. vm_compute in Hq. injection Hq as <-. discriminate.
  - vm_compute; reflexivity.
  - intros p. discriminate.
Defined.

Lemma pack_touches_only_target_witness :
  match pack unit exp_config exp_os 5 "/tmp/reprozip_k3j.txt" "/out.rpz" "/exp"
             exp_fs_missing with
  | Done _ fs' =>
      lstat fs' "/usr/lib/libm.so" = lstat exp_fs_missing "/usr/lib/libm.so"
  | Fail _ fs' =>
      lstat fs' "/usr/lib/libm.so" = lstat exp_fs_missing "/usr/lib/libm.so"
  | Timeout => True
  end.
Proof.
  apply (pack_touches_only_target unit exp_config exp_os 5 "/tmp/reprozip_k3j.txt"
           "/out.rpz" "/exp" exp_fs_missing "/out.rpz" "/usr/lib/libm.so");
    vm_compute; (reflexivity || discriminate).
Defined.

Lemma pack_writes_through_broken_link_witness :
  "/mnt/usb/exp.rpz" <> "/out.rpz" /\
  lstat exp_fs_linked "/mnt/usb/exp.rpz" = None /\
  lstat exp_fs_linked_done "/out.rpz" = Some (Lnk "/mnt/usb/exp.rpz") /\
  exists ms, lstat exp_fs_linked_done "/mnt/usb/exp.rpz"
             = Some (Reg (TarGz true ms)).
Proof.
  apply (pack_writes_through_broken_link unit exp_config exp_os 5
           "/tmp/reprozip_k3j.txt" "/out.rpz" "/exp" exp_fs_linked
           exp_fs_linked_done "/mnt/usb/exp.rpz" "/mnt/usb/exp.rpz");
    vm_compute; (reflexivity || discriminate).
Defined.

End PackMore.

(* ===================================================================== *)
(** * The VisTrails plugin: properties *)
(* ===================================================================== *)

Module VistrailsFacts.
Import Vistrails VistrailsSpec.

(** ** Strings *)

Lemma append_cons c (s t : string) : String c s +:+ t = String c (s +:+ t).
Proof. reflexivity. Qed.

Lemma append_nil (t : string) : "" +:+ t = t.
Proof. reflexivity. Qed.

Lemma mentions_app c (s t : string) :
  mentions c (s +:+ t) = orb (mentions c s) (mentions c t).
Proof.
  induction s as [|c' s IH]; [done |].
  rewrite append_cons. simpl. by rewrite IH, orb_assoc.
Qed.

Lemma replace_char_app old new (s t : string) :
  replace_char old new (s +:+ t) =
  replace_char old new s +:+ replace_char old new t.
Proof.
  induction s as [|c s IH]; [done |].
  rewrite append_cons. simpl. rewrite IH.
  destruct (Ascii.eqb c old); [| done].
  symmetry. apply ContainerExecFacts.append_assoc.
Qed.

Lemma replace_char_absent old new s :
  mentions old s = false -> replace_char old new s = s.
Proof.
  induction s as [|c s IH]; [done |]. simpl.
  destruct (Ascii.eqb c old); [done |]. simpl. intros H. by rewrite IH.
Qed.

Lemma replace_char_removes old new s :
  mentions old new = false -> mentions old (replace_char old new s) = false.
Proof.
  intros Hn. induction s as [|c s IH]; [done |]. simpl.
  destruct (Ascii.eqb c old) eqn:E.
  - by rewrite mentions_app, Hn, IH.
  - simpl. by rewrite E, IH.
Qed.

(** ** escape_xml *)

Lemma escape_xml_cons c s :
  escape_xml (String c s) = escape_char c +:+ escape_xml s.
Proof.
  unfold escape_xml, escape_char. simpl.
  destruct (Ascii.eqb c "&"%char) eqn:E1.
  - by rewrite replace_char_app.
  - simpl. by destruct (Ascii.eqb c dquote).
Qed.

(** The text [escape_xml] returns holds no double quote: it cannot end
    the attribute value it is written in. *)
Theorem escape_xml_no_quote s : mentions dquote (escape_xml s) = false.
Proof. unfold escape_xml. by apply replace_char_removes. Qed.

(** [escape_xml] changes nothing but ampersands and double quotes: a
    string without them, whatever else it holds ([<] and [>] too), comes
    back as it is. *)
Theorem escape_xml_only_amp_and_quote s :
  mentions "&"%char s = false ->
  mentions dquote s = false ->
  escape_xml s = s.
Proof.
  intros Ha Hq. unfold escape_xml.
  rewrite (replace_char_absent "&"%char) by done.
  by apply replace_char_absent.
Qed.

(** Escaping loses nothing: different strings never escape to the same
    text. *)
Theorem escape_xml_injective s1 s2 :
  escape_xml s1 = escape_xml s2 -> s1 = s2.
Proof.
  revert s2. induction s1 as [|c1 s1 IH]; intros [|c2 s2].
  - done.
  - rewrite escape_xml_cons. unfold escape_char.
    by destruct (Ascii.eqb c2 "&"%char), (Ascii.eqb c2 dquote).
  - rewrite escape_xml_cons. unfold escape_char.
    by destruct (Ascii.eqb c1 "&"%char), (Ascii.eqb c1 dquote).
  - rewrite !escape_xml_cons. unfold escape_char.
    destruct (Ascii.eqb_spec c1 "&"%char) as [-> | Ha1];
      destruct (Ascii.eqb_spec c2 "&"%char) as [-> | Ha2].
    + intros [= H]. f_equal. by apply IH.
    + destruct (Ascii.eqb_spec c2 dquote) as [-> | Hq2].
      * intros H. discriminate H.
      * intros [= H _]. congruence.
    + destruct (Ascii.eqb_spec c1 dquote) as [-> | Hq1].
      * intros H. discriminate H.
      * intros [= H _]. congruence.
    + destruct (Ascii.eqb_spec c1 dquote) as [-> | Hq1];
        destruct (Ascii.eqb_spec c2 dquote) as [-> | Hq2].
      * intros [= H]. f_equal. by apply IH.
      * intros [= H _]. congruence.
      * intros [= H _]. congruence.
      * intros [= -> H]. f_equal. by apply IH.
Qed.

(** ** split_sig *)

Lemma rsplit1_None sep s : rsplit1 sep s = None <-> mentions sep s = false.
Proof.
  induction s as [|c s IH]; simpl; [done |].
  destruct (rsplit1 sep s) as [[a b]|].
  - split; [done |]. intros H. apply orb_false_iff in H as [_ H].
    by apply IH in H.
  - destruct (Ascii.eqb c sep); simpl; [done |]. by rewrite <- IH.
Qed.

Lemma rsplit1_Some sep s a b :
  rsplit1 sep s = Some (a, b) ->
  s = a +:+ String sep b /\ mentions sep b = false.
Proof.
  revert a. induction s as [|c s IH]; intros a; simpl; [done |].
  destruct (rsplit1 sep s) as [[a' b']|] eqn:E.
  - intros [= <- <-]. destruct (IH a' eq_refl) as [-> H]. by rewrite append_cons.
  - destruct (Ascii.eqb_spec c sep) as [-> | Hn]; [| done].
    intros [= <- <-]. split; [done |]. by apply rsplit1_None.
Qed.

Lemma rsplit1_joined sep a b :
  mentions sep b = false -> rsplit1 sep (a +:+ String sep b) = Some (a, b).
Proof.
  intros Hb. induction a as [|c a IH].
  - rewrite append_nil. simpl.
    rewrite (proj2 (rsplit1_None sep b) Hb). by rewrite Ascii.eqb_refl.
  - rewrite append_cons. simpl. by rewrite IH.
Qed.

(** A signature made of a package, a colon and a name without colon
    splits into that name and that package, whatever colons the package
    holds. *)
Theorem split_sig_joined {St} pkg name (st : St) :
  mentions ":"%char name = false ->
  split_sig (pkg +:+ ":" +:+ name) st = Ok (name, pkg) st.
Proof.
  intros H. unfold split_sig.
  change (pkg +:+ ":" +:+ name) with (pkg +:+ String ":"%char name).
  by rewrite rsplit1_joined.
Qed.

(** [split_sig] raises [ValueError] exactly on a signature without
    colon; otherwise it returns what follows the last colon as the name
    and what precedes it as the package, and changes nothing. *)
Theorem split_sig_cases {St} sig (st : St) :
  (mentions ":"%char sig = false /\ split_sig sig st = Err ValueError st) \/
  (exists pkg name,
     sig = pkg +:+ ":" +:+ name /\
     mentions ":"%char name = false /\
     split_sig sig st = Ok (name, pkg) st).
Proof.
  unfold split_sig. destruct (rsplit1 ":"%char sig) as [[pkg name]|] eqn:E.
  - right. exists pkg, name. destruct (rsplit1_Some _ _ _ _ E) as [-> H].
    split_and!; done.
  - left. split; [by apply rsplit1_None | done].
Qed.

(** ** IdScope *)

Lemma occurrences_cons x y l :
  occurrences x (y :: l) = (if decide (y = x) then 1 else 0) + occurrences x l.
Proof.
  unfold occurrences. rewrite filter_cons. by case_decide.
Qed.

Lemma draw_counts types :
  forall ids,
    Forall (fun t => is_Some (ids !! t)) types ->
    exists out ids',
      draw types ids = Ok out ids' /\
      length out = length types /\
      forall k t i,
        types !! k = Some t -> out !! k = Some i ->
        i = default 0 (ids !! t) + occurrences t (take k types).
Proof.
  induction types as [|t0 types IH]; intros ids Hall.
  - exists [], ids. split_and!; [done | done |]. intros k t i H. done.
  - apply Forall_cons in Hall as [[i0 H0] Hall].
    destruct (IH (<[t0 := i0 + 1]> ids)) as (out & ids' & Hd & Hlen & Hk).
    { eapply Forall_impl; [exact Hall |]. intros t [i Hi]. simpl.
      destruct (decide (t0 = t)) as [-> | Hne].
      - rewrite lookup_insert_eq. eauto.
      - rewrite lookup_insert_ne by done. eauto. }
    exists (i0 :: out), ids'. split_and!.
    + simpl. unfold bind_s, getter. rewrite H0. rewrite Hd. done.
    + simpl. by rewrite Hlen.
    + intros [|k] t i; simpl.
      * intros [= <-] [= <-]. rewrite H0. simpl. unfold occurrences. simpl. lia.
      * intros Ht Hi. rewrite (Hk k t i Ht Hi). rewrite occurrences_cons.
        destruct (decide (t0 = t)) as [-> | Hne].
        -- rewrite lookup_insert_eq, H0. simpl. lia.
        -- rewrite lookup_insert_ne by done. lia.
Qed.

(** From a new [IdScope], whatever getters are called and in whatever
    order, each call returns the number of earlier calls of the same
    getter: the ids of one kind are 0, 1, 2, ... and never repeat, and
    the other getters do not disturb them. *)
Theorem getters_count_from_zero types :
  Forall (fun t => is_Some (IdScope_init !! t)) types ->
  exists out ids',
    draw types IdScope_init = Ok out ids' /\
    length out = length types /\
    forall k t i,
      types !! k = Some t -> out !! k = Some i ->
      i = occurrences t (take k types).
Proof.
  intros Hall.
  destruct (draw_counts types IdScope_init Hall) as (out & ids' & Hd & Hl & Hk).
  exists out, ids'. split_and!; [done | done |].
  intros k t i Ht Hi. rewrite (Hk k t i Ht Hi).
  pose proof (proj1 (Forall_lookup _ _) Hall k t Ht) as [i0 Hi0].
  assert (i0 = 0) as ->.
  { revert Hi0. unfold IdScope_init. clear.
    intros H. apply elem_of_list_to_map_2 in H.
    repeat (apply elem_of_cons in H as [[= _ <-] | H]; [done |]).
    by apply elem_of_nil in H. }
  by rewrite Hi0.
Qed.

(** ** run_from_vistrails *)

Lemma split1_Some sep s a b :
  split1 sep s = Some (a, b) -> s = a +:+ String sep b.
Proof.
  revert a. induction s as [|c s IH]; intros a; simpl; [done |].
  destruct (Ascii.eqb_spec c sep) as [-> | Hn].
  - by intros [= <- <-].
  - destruct (split1 sep s) as [[a' b']|]; [| done].
    intros [= <- <-]. by rewrite (IH a' eq_refl).
Qed.

Lemma split1_None sep s : split1 sep s = None <-> mentions sep s = false.
Proof.
  induction s as [|c s IH]; simpl; [done |].
  destruct (Ascii.eqb c sep); simpl; [done |].
  destruct (split1 sep s) as [[a b]|].
  - split; [done |]. intros H. by apply IH in H.
  - by rewrite <- IH.
Qed.

Section System.

Variable shell_escape : string -> string.
Variable int : string -> option Z.
Variable sys_executable : string.
Variable parse_args : list string -> ST Process CliArgs.
Variable load_config : string -> ST Process Config.
Variable succeeds : call -> bool.

Local Abbreviation run_from_vistrails :=
  (run_from_vistrails shell_escape int sys_executable parse_args load_config
     succeeds).
Local Abbreviation upload_command := (upload_command int).
Local Abbreviation cmd := (cmd shell_escape sys_executable succeeds).
Local Abbreviation downloads := (downloads shell_escape sys_executable succeeds).
Local Abbreviation upload_call := (upload_call sys_executable).
Local Abbreviation run_call := (run_call shell_escape sys_executable).
Local Abbreviation download_call := (download_call sys_executable).

Lemma given_inputs_spec inputs pairs :
  Forall2 (fun s nf => split1 ":"%char s = Some nf) inputs pairs ->
  forall acc p,
    given_inputs inputs acc p =
    Ok (fst acc ++ map swap pairs, snd acc ++ map fst pairs) p.
Proof.
  induction 1 as [| s nf inputs pairs Hs _ IH]; intros [u seen] p; simpl.
  - by rewrite !app_nil_r.
  - unfold bind_s, split_colon. rewrite Hs. simpl. rewrite IH. simpl.
    by rewrite <- !app_assoc.
Qed.

Lemma reset_inputs_spec args n seen files :
  int (run args) = Some n ->
  forall u p,
    reset_inputs int args seen files u p =
    Ok (u ++ map reset (to_reset seen n files)) p.
Proof.
  intros Hn. induction files as [|[name f] files IH]; intros u p; simpl.
  - by rewrite app_nil_r.
  - unfold to_reset. rewrite filter_cons. simpl.
    destruct (bool_decide_reflect (name ∈ seen)) as [Hs | Hs].
    + rewrite decide_False by (by intros [? _]). apply IH.
    + rewrite Hn.
      destruct (bool_decide_reflect (n ∈ map Z.of_nat (read_runs f)))
        as [Hr | Hr].
      * rewrite decide_True by done. rewrite IH. simpl.
        by rewrite <- app_assoc.
      * rewrite decide_False by (by intros [_ ?]). apply IH.
Qed.

Lemma upload_command_swaps_and_resets_aux args config pairs n p :
  Forall2 (fun s nf => split1 ":"%char s = Some nf) (input_file args) pairs ->
  int (run args) = Some n ->
  upload_command args config p =
  Ok (map swap pairs ++
      map reset (to_reset (map fst pairs) n (inputs_outputs config))) p.
Proof.
  intros Hi Hn. unfold Vistrails.upload_command, bind_s.
  rewrite (given_inputs_spec _ _ Hi). simpl.
  by rewrite (reset_inputs_spec args n _ _ Hn).
Qed.

(** The specifications given to [reprounzip upload] are the input files
    of the command line, each [name:file] turned into [file:name] (the
    name ends at the first colon), followed by [:name] for every input of
    the configuration that was not given and that the run reads, in the
    order of the configuration. *)
Theorem upload_command_swaps_and_resets args config pairs n p :
  Forall2 (fun s nf => split1 ":"%char s = Some nf) (input_file args) pairs ->
  int (run args) = Some n ->
  upload_command args config p =
  Ok (map swap pairs ++
      map reset (to_reset (map fst pairs) n (inputs_outputs config))) p.
Proof. apply upload_command_swaps_and_resets_aux. Qed.

(** An interface version other than 1 as first argument makes
    [run_from_vistrails] exit with status 1 at once: the command line is
    not parsed, no configuration is read, no command is run. *)
Theorem unknown_interface_version_exits a0 v rest z p :
  int v = Some z ->
  z <> 1%Z ->
  run_from_vistrails (a0 :: v :: rest) p = Err (Py (SystemExit 1 "")) p.
Proof.
  intros Hv Hz. unfold Vistrails.run_from_vistrails, cli_version.
  rewrite Hv. simpl. by rewrite bool_decide_true.
Qed.

(** A first argument that is not an integer counts as version 1, and is
    dropped like a version: the command line is parsed from the second
    argument on all the same. *)
Theorem unreadable_version_is_dropped a0 v v1 rest p :
  int v = None ->
  int v1 = Some 1%Z ->
  run_from_vistrails (a0 :: v :: rest) p =
  run_from_vistrails (a0 :: v1 :: rest) p.
Proof.
  intros Hv H1. unfold Vistrails.run_from_vistrails, cli_version.
  by rewrite Hv, H1.
Qed.

Lemma downloads_spec args outputs :
  (forall c, succeeds c = true) ->
  Forall (fun s => mentions ":"%char s = true) outputs ->
  forall p,
    downloads args outputs p =
    Ok tt {| calls := calls p ++ map (download_call args) outputs;
             os_environ := os_environ p |}.
Proof.
  intros Hok. induction 1 as [| s outputs Hs _ IH]; intros p; simpl.
  - rewrite app_nil_r. by destruct p.
  - unfold bind_s, split_colon.
    destruct (split1 ":"%char s) as [[a b]|] eqn:E.
    + simpl. unfold Vistrails.cmd, check_call. rewrite Hok. rewrite IH. simpl.
      rewrite <- app_assoc. simpl. unfold VistrailsSpec.download_call.
      change (a +:+ ":" +:+ b) with (a +:+ String ":"%char b).
      by rewrite <- (split1_Some _ _ _ _ E).
    + apply split1_None in E. congruence.
Qed.

(** When every command succeeds, [run_from_vistrails] runs, in this
    order and in the directory of the experiment: one upload, the run
    (through the shell, the override appended as it is, when a non-empty
    [--cmdline] is given), and one download for each output file, whose
    specification is passed on unchanged; and it has set
    [REPROUNZIP_NON_INTERACTIVE] to [y]. *)
Theorem run_from_vistrails_calls argv args config pairs n p :
  cli_version int argv = 1%Z ->
  parse_args (drop 2 argv) p = Ok args p ->
  load_config (Posix.join (directory args) "config.yml") p = Ok config p ->
  Forall2 (fun s nf => split1 ":"%char s = Some nf) (input_file args) pairs ->
  int (run args) = Some n ->
  Forall (fun s => mentions ":"%char s = true) (output_file args) ->
  (forall c, succeeds c = true) ->
  run_from_vistrails argv p =
  Ok tt
     {| calls :=
          calls p ++
          [ upload_call args
              (map swap pairs ++
               map reset (to_reset (map fst pairs) n (inputs_outputs config)));
            run_call args ] ++
          map (download_call args) (output_file args);
        os_environ :=
          <["REPROUNZIP_NON_INTERACTIVE" := "y"]> (os_environ p) |}.
Proof.
  intros Hv Hp Hc Hi Hn Ho Hok.
  unfold Vistrails.run_from_vistrails. rewrite Hv. simpl.
  unfold bind_s at 1. rewrite Hp.
  unfold bind_s at 1. rewrite Hc.
  unfold bind_s at 1. unfold bind_s at 1.
  rewrite (upload_command_swaps_and_resets_aux args config pairs n _ Hi Hn).
  unfold bind_s at 1. unfold Vistrails.cmd at 1, check_call. rewrite Hok.
  unfold bind_s.
  assert (forall p0,
    match cmdline args with
    | Some (String c r) =>
        Vistrails.cmd shell_escape sys_executable succeeds args
          ["run"; "."; run args; "--cmdline"] (cmdline args)
    | _ => Vistrails.cmd shell_escape sys_executable succeeds args
             ["run"; "."; run args] None
    end p0 =
    Ok tt {| calls := calls p0 ++ [run_call args];
             os_environ := os_environ p0 |}) as Hrun.
  { intros p0. unfold VistrailsSpec.run_call.
    destruct (cmdline args) as [[|c r]|]; simpl;
      unfold Vistrails.cmd, check_call; by rewrite Hok. }
  rewrite Hrun. rewrite (downloads_spec args _ Hok Ho). simpl.
  f_equal. f_equal. rewrite <- !app_assoc. reflexivity.
Qed.

(** When the upload command fails, [run_from_vistrails] stops with
    [CalledProcessError] after that one call: the experiment is not
    run. *)
Theorem failed_upload_stops argv args config pairs n p :
  cli_version int argv = 1%Z ->
  parse_args (drop 2 argv) p = Ok args p ->
  load_config (Posix.join (directory args) "config.yml") p = Ok config p ->
  Forall2 (fun s nf => split1 ":"%char s = Some nf) (input_file args) pairs ->
  int (run args) = Some n ->
  succeeds
    (upload_call args
       (map swap pairs ++
        map reset (to_reset (map fst pairs) n (inputs_outputs config))))
  = false ->
  run_from_vistrails argv p =
  Err CalledProcessError
      {| calls :=
           calls p ++
           [ upload_call args
               (map swap pairs ++
                map reset (to_reset (map fst pairs) n (inputs_outputs config))) ];
         os_environ :=
           <["REPROUNZIP_NON_INTERACTIVE" := "y"]> (os_environ p) |}.
Proof.
  intros Hv Hp Hc Hi Hn Hf.
  unfold Vistrails.run_from_vistrails. rewrite Hv. simpl.
  unfold bind_s at 1. rewrite Hp.
  unfold bind_s at 1. rewrite Hc.
  unfold bind_s at 1. unfold bind_s at 1.
  rewrite (upload_command_swaps_and_resets_aux args config pairs n _ Hi Hn).
  unfold bind_s at 1. unfold Vistrails.cmd at 1, check_call.
  unfold VistrailsSpec.upload_call in Hf. simpl in Hf. simpl. by rewrite Hf.
Qed.

End System.

(** ** On the experiment *)

Import VistrailsExamples.
Import ContainerExecExamples.

Lemma escape_xml_only_amp_and_quote_witness :
  escape_xml "<a href='x'>" = "<a href='x'>".
Proof.
  apply (escape_xml_only_amp_and_quote "<a href='x'>"); reflexivity.
Defined.

Lemma escape_xml_injective_witness :
  escape_xml "R&D" = escape_xml "R&D" /\ "R&D" = "R&D".
Proof.
  split; [reflexivity |].
  apply (escape_xml_injective "R&D" "R&D"); reflexivity.
Defined.

Lemma split_sig_joined_witness :
  split_sig ("urn:org.vistrails.basic" +:+ ":" +:+ "File") tt =
  Ok ("File", "urn:org.vistrails.basic") tt.
Proof.
  apply (split_sig_joined "urn:org.vistrails.basic" "File" tt); reflexivity.
Defined.

Lemma getters_count_from_zero_witness :
  exists out ids',
    draw ["add"; "module"; "add"; "port"; "add"] IdScope_init = Ok out ids' /\
    length out = 5 /\
    forall k t i,
      ["add"; "module"; "add"; "port"; "add"] !! k = Some t ->
      out !! k = Some i ->
      i = occurrences t (take k ["add"; "module"; "add"; "port"; "add"]).
Proof.
  apply (getters_count_from_zero ["add"; "module"; "add"; "port"; "add"]).
  repeat (constructor; [eexists; reflexivity |]). constructor.
Defined.

Lemma upload_command_swaps_and_resets_witness :
  upload_command vt_int vt_args vt_config vt_process =
  Ok ["/home/u/d:1.csv:data"; ":params"] vt_process.
Proof.
  apply (upload_command_swaps_and_resets vt_int vt_args vt_config
           [("data", "/home/u/d:1.csv")] 0 vt_process).
  - repeat constructor.
  - reflexivity.
Defined.

Lemma unknown_interface_version_exits_witness :
  run_from_vistrails quote vt_int vt_python vt_parse_args vt_load_config
    all_succeed ("reprounzip-vistrails" :: "2" :: drop 2 vt_argv) vt_process =
  Err (Py (SystemExit 1 "")) vt_process.
Proof.
  apply (unknown_interface_version_exits quote vt_int vt_python vt_parse_args
           vt_load_config all_succeed "reprounzip-vistrails" "2"
           (drop 2 vt_argv) 2 vt_process).
  - reflexivity.
  - lia.
Defined.

Lemma unreadable_version_is_dropped_witness :
  run_from_vistrails quote vt_int vt_python vt_parse_args vt_load_config
    all_succeed ("reprounzip-vistrails" :: "docker" :: drop 2 vt_argv)
    vt_process =
  run_from_vistrails quote vt_int vt_python vt_parse_args vt_load_config
    all_succeed ("reprounzip-vistrails" :: "1" :: drop 2 vt_argv) vt_process.
Proof.
  apply (unreadable_version_is_dropped quote vt_int vt_python vt_parse_args
           vt_load_config all_succeed "reprounzip-vistrails" "docker" "1"
           (drop 2 vt_argv) vt_process); reflexivity.
Defined.

Lemma run_from_vistrails_calls_witness :
  run_from_vistrails quote vt_int vt_python vt_parse_args vt_load_config
    all_succeed vt_argv vt_process =
  Ok tt
     {| calls :=
          [ check_call_argv
              [ "/usr/bin/python"; "-c";
                "from reprounzip.main import main; main()"; "docker";
                "upload"; "."; "/home/u/d:1.csv:data"; ":params" ] "/exp";
            check_call_argv
              [ "/usr/bin/python"; "-c";
                "from reprounzip.main import main; main()"; "docker";
                "run"; "."; "0" ] "/exp";
            check_call_argv
              [ "/usr/bin/python"; "-c";
                "from reprounzip.main import main; main()"; "docker";
                "download"; "."; "model:/home/u/model.bin" ] "/exp" ];
        os_environ := <["REPROUNZIP_NON_INTERACTIVE" := "y"]> ∅ |}.
Proof.
  apply (run_from_vistrails_calls quote vt_int vt_python vt_parse_args
           vt_load_config all_succeed vt_argv vt_args vt_config
           [("data", "/home/u/d:1.csv")] 0 vt_process).
  - reflexivity.
  - reflexivity.
  - reflexivity.
  - repeat constructor.
  - reflexivity.
  - repeat constructor.
  - reflexivity.
Defined.

Lemma failed_upload_stops_witness :
  run_from_vistrails quote vt_int vt_python vt_parse_args vt_load_config
    upload_fails vt_argv vt_process =
  Err CalledProcessError
     {| calls :=
          [ check_call_argv
              [ "/usr/bin/python"; "-c";
                "from reprounzip.main import main; main()"; "docker";
                "upload"; "."; "/home/u/d:1.csv:data"; ":params" ] "/exp" ];
        os_environ := <["REPROUNZIP_NON_INTERACTIVE" := "y"]> ∅ |}.
Proof.
  apply (failed_upload_stops quote vt_int vt_python vt_parse_args
           vt_load_config upload_fails vt_argv vt_args vt_config
           [("data", "/home/u/d:1.csv")] 0 vt_process).
  - reflexivity.
  - reflexivity.
  - reflexivity.
  - repeat constructor.
  - reflexivity.
  - reflexivity.
Defined.

End VistrailsFacts.

(* ===================================================================== *)
(** * The VisTrails plugin: the ids and the shape of a workflow *)
(* ===================================================================== *)

Module WorkflowFacts.
Import Vistrails VistrailsSpec.

(** ** Counters *)

Lemma counters_ext c c' : (forall k, count c k = count c' k) -> c = c'.
Proof.
  intros H. destruct c, c'.
  pose proof (H k_add); pose proof (H k_module); pose proof (H k_location).
  pose proof (H k_annotation); pose proof (H k_function).
  pose proof (H k_parameter); pose proof (H k_connection).
  pose proof (H k_port); pose proof (H k_portspec).
  pose proof (H k_portspecitem). simpl in *. congruence.
Qed.

Lemma workflow_eq f f' c c' y y' :
  f = f' -> (forall k, count c k = count c' k) -> y = y' ->
  workflow f c y = workflow f' c' y'.
Proof. intros -> H ->. by rewrite (counters_ext c c' H). Qed.

Lemma ids_of_kind_app k f g :
  ids_of_kind k (f ++ g) = ids_of_kind k f ++ ids_of_kind k g.
Proof. unfold ids_of_kind. by rewrite flat_map_app. Qed.

Lemma fresh_nil c : fresh c [] c.
Proof. intros k. split; [done |]. by rewrite Nat.sub_diag. Qed.

Lemma fresh_app c n1 c1 n2 c2 :
  fresh c n1 c1 -> fresh c1 n2 c2 -> fresh c (n1 ++ n2) c2.
Proof.
  intros H1 H2 k. destruct (H1 k) as [L1 E1], (H2 k) as [L2 E2].
  split; [lia |]. rewrite ids_of_kind_app, E1, E2.
  replace (count c2 k - count c k)
    with ((count c1 k - count c k) + (count c2 k - count c1 k)) by lia.
  rewrite seq_app. do 2 f_equal. lia.
Qed.

Lemma numbered_fresh f c new c' :
  numbered f c -> fresh c new c' -> numbered (f ++ new) c'.
Proof.
  intros Hn Hf k. destruct (Hf k) as [L E].
  rewrite ids_of_kind_app, Hn, E.
  replace (count c' k) with (count c k + (count c' k - count c k)) at 2 by lia.
  by rewrite seq_app.
Qed.

(** A step of counting: the new counters are the old ones plus the
    number of ids of each kind among the new elements, which are
    consecutive from the old counters. *)
Ltac seq_by_length :=
  match goal with
  | |- ?l = seq ?a ?n =>
      let len := eval simpl in (length l) in
      replace n with len by lia;
      simpl; repeat (apply f_equal2; [lia |]); reflexivity
  end.

Ltac fresh_by_cases :=
  intros k; destruct k; simpl; (split; [lia | seq_by_length]).

(** ** The loops of add_function and add_port_spec *)

Lemma param_elems_ids k func_id params :
  forall a p i,
    ids_of_kind k (param_elems func_id a p i params) =
    match k with
    | k_add => seq a (length params)
    | k_parameter => seq p (length params)
    | _ => []
    end.
Proof.
  induction params as [|sv params IH]; intros a p i.
  - by destruct k.
  - simpl. unfold ids_of_kind in *. simpl. rewrite IH.
    destruct k; simpl; try done; f_equal; f_equal; lia.
Qed.

Lemma item_elems_ids k sigs :
  forall psi i,
    ids_of_kind k (item_elems psi i sigs) =
    match k with
    | k_portspecitem => seq psi (length sigs)
    | _ => []
    end.
Proof.
  induction sigs as [|pm sigs IH]; intros psi i.
  - by destruct k.
  - simpl. unfold ids_of_kind in *. simpl. rewrite IH.
    destruct k; simpl; try done; f_equal; f_equal; lia.
Qed.

Lemma params_loop func_id params :
  forall f c y i,
    for_enumerate
      (fun i sig_val =>
         bind_s (next "add") (fun add_id =>
         bind_s (next "parameter") (fun param_id =>
         write (AddParameter add_id param_id func_id i (fst sig_val)
                             (escape_xml (snd sig_val))))))
      i params (workflow f c y) =
    Ok tt (workflow
             (f ++ param_elems func_id (c_add c) (c_parameter c) i params)
             (Build_Counters
                (c_add c + length params) (c_module c) (c_location c)
                (c_annotation c) (c_function c)
                (c_parameter c + length params) (c_connection c) (c_port c)
                (c_portspec c) (c_portspecitem c))
             y).
Proof.
  induction params as [|sv params IH]; intros f c y i.
  - simpl. unfold ret_s. f_equal. apply workflow_eq; [by rewrite app_nil_r | | done].
    intros []; simpl; lia.
  - simpl. unfold bind_s at 1.
    change (bind_s (next "add") _ (workflow f c y)) with
      (Ok tt (workflow
                (f ++ [AddParameter (c_add c) (c_parameter c) func_id i
                                    (fst sv) (escape_xml (snd sv))])
                (Build_Counters
                   (c_add c + 1) (c_module c) (c_location c)
                   (c_annotation c) (c_function c)
                   (c_parameter c + 1) (c_connection c) (c_port c)
                   (c_portspec c) (c_portspecitem c))
                y)).
    cbv beta iota. rewrite IH. simpl. f_equal.
    apply workflow_eq; [by rewrite <- app_assoc | | done].
    intros []; simpl; lia.
Qed.

Lemma items_loop sigs :
  forall f c y i,
    for_enumerate
      (fun i pkg_mod =>
         bind_s (next "portspecitem") (fun psi_id =>
         write (PortSpecItem psi_id (snd pkg_mod) (fst pkg_mod) i)))
      i sigs (workflow f c y) =
    Ok tt (workflow
             (f ++ item_elems (c_portspecitem c) i sigs)
             (Build_Counters
                (c_add c) (c_module c) (c_location c)
                (c_annotation c) (c_function c)
                (c_parameter c) (c_connection c) (c_port c)
                (c_portspec c) (c_portspecitem c + length sigs))
             y).
Proof.
  induction sigs as [|pm sigs IH]; intros f c y i.
  - simpl. unfold ret_s. f_equal. apply workflow_eq; [by rewrite app_nil_r | | done].
    intros []; simpl; lia.
  - simpl. unfold bind_s at 1.
    change (bind_s (next "portspecitem") _ (workflow f c y)) with
      (Ok tt (workflow
                (f ++ [PortSpecItem (c_portspecitem c) (snd pm) (fst pm) i])
                (Build_Counters
                   (c_add c) (c_module c) (c_location c)
                   (c_annotation c) (c_function c)
                   (c_parameter c) (c_connection c) (c_port c)
                   (c_portspec c) (c_portspecitem c + 1))
                y)).
    cbv beta iota. rewrite IH. simpl. f_equal.
    apply workflow_eq; [by rewrite <- app_assoc | | done].
    intros []; simpl; lia.
Qed.

(** ** The methods *)

Lemma add_function_spec mod_id name params f c y :
  add_function mod_id name params (workflow f c y) =
  Ok tt (workflow
           (f ++ AddFunction (c_add c) mod_id (c_function c) name
              :: param_elems (c_function c) (c_add c + 1) (c_parameter c) 0
                   params)
           (Build_Counters
              (c_add c + 1 + length params) (c_module c) (c_location c)
              (c_annotation c) (c_function c + 1)
              (c_parameter c + length params) (c_connection c) (c_port c)
              (c_portspec c) (c_portspecitem c))
           y).
Proof.
  unfold add_function.
  change (bind_s (next "function") _ (workflow f c y)) with
    (for_enumerate
       (fun i sig_val =>
          bind_s (next "add") (fun add_id =>
          bind_s (next "parameter") (fun param_id =>
          write (AddParameter add_id param_id (c_function c) i (fst sig_val)
                              (escape_xml (snd sig_val))))))
       0 params
       (workflow (f ++ [AddFunction (c_add c) mod_id (c_function c) name])
          (Build_Counters
             (c_add c + 1) (c_module c) (c_location c)
             (c_annotation c) (c_function c + 1)
             (c_parameter c) (c_connection c) (c_port c)
             (c_portspec c) (c_portspecitem c))
          y)).
  rewrite params_loop. simpl. f_equal.
  apply workflow_eq; [by rewrite <- app_assoc | | done].
  intros []; simpl; lia.
Qed.

Lemma add_port_spec_spec mod_id name type_ sigs optional f c y :
  add_port_spec mod_id name type_ sigs optional (workflow f c y) =
  Ok tt (workflow
           (f ++ OpenPortSpec (c_add c) (c_portspec c) mod_id (escape_xml name)
                   type_ (if optional then "1" else "0")
              :: item_elems (c_portspecitem c) 0 sigs ++ [ClosePortSpec])
           (Build_Counters
              (c_add c + 1) (c_module c) (c_location c)
              (c_annotation c) (c_function c)
              (c_parameter c) (c_connection c) (c_port c)
              (c_portspec c + 1) (c_portspecitem c + length sigs))
           y).
Proof.
  unfold add_port_spec.
  change (bind_s (next "add") _ (workflow f c y)) with
    (bind_s
       (for_enumerate
          (fun i pkg_mod =>
             bind_s (next "portspecitem") (fun psi_id =>
             write (PortSpecItem psi_id (snd pkg_mod) (fst pkg_mod) i)))
          0 sigs)
       (fun _ => write ClosePortSpec)
       (workflow
          (f ++ [OpenPortSpec (c_add c) (c_portspec c) mod_id (escape_xml name)
                   type_ (if optional then "1" else "0")])
          (Build_Counters
             (c_add c + 1) (c_module c) (c_location c)
             (c_annotation c) (c_function c)
             (c_parameter c) (c_connection c) (c_port c)
             (c_portspec c + 1) (c_portspecitem c))
          y)).
  unfold bind_s. rewrite items_loop. simpl. unfold write. simpl. f_equal.
  apply workflow_eq; [| intros []; simpl; lia | done].
  rewrite <- !app_assoc. reflexivity.
Qed.

Lemma add_module_spec sig version desc pkg name f c y :
  rsplit1 ":"%char sig = Some (pkg, name) ->
  add_module sig version desc (workflow f c y) =
  Ok (c_module c)
     (workflow
        (f ++ [AddModule (c_add c) (c_module c) name pkg version;
               AddLocation (c_add c + 1) (c_module c) (c_location c) y] ++
              match desc with
              | Some d => [AddAnnotation (c_add c + 1 + 1) (c_module c)
                                         (c_annotation c) (escape_xml d)]
              | None => []
              end)
        (Build_Counters
           (c_add c + 1 + 1 + (if desc is Some _ then 1 else 0)) (c_module c + 1)
           (c_location c + 1)
           (c_annotation c + (if desc is Some _ then 1 else 0)) (c_function c)
           (c_parameter c) (c_connection c) (c_port c)
           (c_portspec c) (c_portspecitem c))
        (y - 100)).
Proof.
  intros Hs. unfold add_module, split_sig. rewrite Hs.
  destruct desc as [d|]; cbv beta iota.
  - match goal with
    | |- _ = Ok _ (workflow (f ++ [?e1; ?e2] ++ [?e3]) _ _) =>
        replace (f ++ [e1; e2] ++ [e3]) with (((f ++ [e1]) ++ [e2]) ++ [e3])
          by (by rewrite <- !app_assoc)
    end.
    reflexivity.
  - match goal with
    | |- _ = Ok _ (workflow (f ++ [?e1; ?e2] ++ []) _ _) =>
        replace (f ++ [e1; e2] ++ []) with ((f ++ [e1]) ++ [e2])
          by (by rewrite <- !app_assoc)
    end.
    replace (c_add c + 1 + 1 + 0) with (c_add c + 1 + 1) by lia.
    replace (c_annotation c + 0) with (c_annotation c) by lia.
    reflexivity.
Qed.

Lemma connect_spec from_id from_sig from_port to_id to_sig to_port
    fpkg fname tpkg tname f c y :
  rsplit1 ":"%char from_sig = Some (fpkg, fname) ->
  rsplit1 ":"%char to_sig = Some (tpkg, tname) ->
  connect from_id from_sig from_port to_id to_sig to_port (workflow f c y) =
  Ok tt
     (workflow
        (f ++ [AddConnection (c_add c) (c_add c + 1) (c_add c + 1 + 1)
                 (c_connection c) (c_port c) from_id from_sig fname from_port
                 (c_port c + 1) to_id to_sig tname to_port])
        (Build_Counters
           (c_add c + 1 + 1 + 1) (c_module c) (c_location c)
           (c_annotation c) (c_function c)
           (c_parameter c) (c_connection c + 1) (c_port c + 1 + 1)
           (c_portspec c) (c_portspecitem c))
        y).
Proof.
  intros Hf Ht. unfold connect, split_sig. rewrite Hf, Ht. reflexivity.
Qed.

(** ** What the methods add *)

Lemma connections_app f g : connections (f ++ g) = connections f ++ connections g.
Proof. unfold connections. by rewrite flat_map_app. Qed.

Lemma locations_app f g : locations (f ++ g) = locations f ++ locations g.
Proof. unfold locations. by rewrite flat_map_app. Qed.

Lemma portspecs_app f g : portspecs (f ++ g) = portspecs f ++ portspecs g.
Proof. unfold portspecs. by rewrite flat_map_app. Qed.

Lemma step_app c n1 c1 m1 cs1 ls1 ps1 n2 c2 m2 cs2 ls2 ps2 :
  step c n1 c1 m1 cs1 ls1 ps1 ->
  step c1 n2 c2 m2 cs2 ls2 ps2 ->
  step c (n1 ++ n2) c2 (m1 + m2) (cs1 ++ cs2) (ls1 ++ ls2) (ps1 ++ ps2).
Proof.
  intros (F1 & M1 & C1 & L1 & P1) (F2 & M2 & C2 & L2 & P2).
  split_and!.
  - by eapply fresh_app.
  - lia.
  - by rewrite connections_app, C1, C2.
  - by rewrite locations_app, L1, L2.
  - by rewrite portspecs_app, P1, P2.
Qed.

Lemma param_elems_plain func_id params :
  forall a p i,
    connections (param_elems func_id a p i params) = [] /\
    locations (param_elems func_id a p i params) = [] /\
    portspecs (param_elems func_id a p i params) = [].
Proof.
  induction params as [|sv params IH]; intros a p i; [done |].
  destruct (IH (a + 1) (p + 1) (S i)) as (H1 & H2 & H3).
  unfold connections, locations, portspecs in *. simpl. by rewrite H1, H2, H3.
Qed.

Lemma item_elems_plain sigs :
  forall psi i,
    connections (item_elems psi i sigs) = [] /\
    locations (item_elems psi i sigs) = [] /\
    portspecs (item_elems psi i sigs) = [].
Proof.
  induction sigs as [|pm sigs IH]; intros psi i; [done |].
  destruct (IH (psi + 1) (S i)) as (H1 & H2 & H3).
  unfold connections, locations, portspecs in *. simpl. by rewrite H1, H2, H3.
Qed.

Lemma add_function_step mod_id name params c :
  step c
    (AddFunction (c_add c) mod_id (c_function c) name
       :: param_elems (c_function c) (c_add c + 1) (c_parameter c) 0 params)
    (Build_Counters
       (c_add c + 1 + length params) (c_module c) (c_location c)
       (c_annotation c) (c_function c + 1)
       (c_parameter c + length params) (c_connection c) (c_port c)
       (c_portspec c) (c_portspecitem c))
    0 [] [] [].
Proof.
  destruct (param_elems_plain (c_function c) params (c_add c + 1)
              (c_parameter c) 0) as (H1 & H2 & H3).
  split_and!.
  - intros k. split; [destruct k; simpl; lia |].
    change (ids_of_kind k (?e :: ?l)) with (ids_in k e ++ ids_of_kind k l).
    rewrite param_elems_ids.
    destruct k; simpl;
      repeat match goal with
             | |- context [?a + ?n - ?a] => replace (a + n - a) with n by lia
             | |- context [?a - ?a] => rewrite Nat.sub_diag
             end; try done.
    + replace (c_add c + 1 + length params - c_add c)
        with (S (length params)) by lia.
      simpl. do 2 f_equal. lia.
  - simpl. lia.
  - done.
  - done.
  - done.
Qed.

Lemma add_port_spec_step mod_id name type_ opt sigs c :
  step c
    (OpenPortSpec (c_add c) (c_portspec c) mod_id name type_ opt
       :: item_elems (c_portspecitem c) 0 sigs ++ [ClosePortSpec])
    (Build_Counters
       (c_add c + 1) (c_module c) (c_location c)
       (c_annotation c) (c_function c)
       (c_parameter c) (c_connection c) (c_port c)
       (c_portspec c + 1) (c_portspecitem c + length sigs))
    0 [] [] [(mod_id, type_, name)].
Proof.
  destruct (item_elems_plain sigs (c_portspecitem c) 0) as (H1 & H2 & H3).
  split_and!.
  - intros k. split; [destruct k; simpl; lia |].
    change (ids_of_kind k (?e :: ?l ++ ?l'))
      with (ids_in k e ++ ids_of_kind k (l ++ l')).
    rewrite ids_of_kind_app, item_elems_ids.
    destruct k; simpl;
      repeat match goal with
             | |- context [?a + ?n - ?a] => replace (a + n - a) with n by lia
             | |- context [?a - ?a] => rewrite Nat.sub_diag
             end; try done.
    by rewrite app_nil_r.
  - simpl. lia.
  - unfold connections in *. simpl. rewrite flat_map_app, H1. done.
  - unfold locations in *. simpl. rewrite flat_map_app, H2. done.
  - unfold portspecs in *. simpl. rewrite flat_map_app, H3. done.
Qed.

Lemma add_module_step version desc pkg name c y :
  step c
    ([AddModule (c_add c) (c_module c) name pkg version;
      AddLocation (c_add c + 1) (c_module c) (c_location c) y] ++
     match desc with
     | Some d => [AddAnnotation (c_add c + 1 + 1) (c_module c)
                                (c_annotation c) (escape_xml d)]
     | None => []
     end)
    (Build_Counters
       (c_add c + 1 + 1 + (if desc is Some _ then 1 else 0)) (c_module c + 1)
       (c_location c + 1)
       (c_annotation c + (if desc is Some _ then 1 else 0)) (c_function c)
       (c_parameter c) (c_connection c) (c_port c)
       (c_portspec c) (c_portspecitem c))
    1 [] [(c_module c, y)] [].
Proof.
  split_and!; [| simpl; lia | by destruct desc..].
  destruct desc; fresh_by_cases.
Qed.

Lemma connect_step from_id from_sig fname from_port to_id to_sig tname to_port c :
  step c
    [AddConnection (c_add c) (c_add c + 1) (c_add c + 1 + 1)
       (c_connection c) (c_port c) from_id from_sig fname from_port
       (c_port c + 1) to_id to_sig tname to_port]
    (Build_Counters
       (c_add c + 1 + 1 + 1) (c_module c) (c_location c)
       (c_annotation c) (c_function c)
       (c_parameter c) (c_connection c + 1) (c_port c + 1 + 1)
       (c_portspec c) (c_portspecitem c))
    0 [(from_id, to_id)] [] [].
Proof.
  split_and!; [| simpl; lia | done..]. fresh_by_cases.
Qed.

(** ** The methods keep the ids numbered *)

Lemma numbered_wf_workflow wf :
  numbered_wf wf ->
  exists c, wf = workflow (wf_file wf) c (wf_mod_y wf) /\
            numbered (wf_file wf) c.
Proof.
  intros (c & Hi & Hn). exists c. split; [| done].
  destruct wf. unfold workflow. simpl in *. by rewrite Hi.
Qed.

Lemma step_numbered f c new c' y' m cs ls ps :
  numbered f c -> step c new c' m cs ls ps ->
  numbered_wf (workflow (f ++ new) c' y').
Proof.
  intros Hn (Hf & _). exists c'. split; [done |].
  simpl. by eapply numbered_fresh.
Qed.

Lemma numbered_wf_init date : numbered_wf (Workflow_init date IdScope_init).
Proof. exists zero. split; [reflexivity |]. by intros []. Qed.

(** In a workflow whose ids of every kind are 0, 1, 2, ... in the order
    of the file, up to the counters of its [IdScope] (a new workflow is
    one), they are so again after any method that returns: no id is used
    twice, none is skipped. *)
Theorem workflow_methods_keep_ids_numbered wf :
  numbered_wf wf ->
  (forall sig version desc a wf',
     add_module sig version desc wf = Ok a wf' -> numbered_wf wf') /\
  (forall mod_id name params a wf',
     add_function mod_id name params wf = Ok a wf' -> numbered_wf wf') /\
  (forall from_id from_sig from_port to_id to_sig to_port a wf',
     connect from_id from_sig from_port to_id to_sig to_port wf = Ok a wf' ->
     numbered_wf wf') /\
  (forall mod_id name type_ sigs optional a wf',
     add_port_spec mod_id name type_ sigs optional wf = Ok a wf' ->
     numbered_wf wf') /\
  (forall a wf', close wf = Ok a wf' -> numbered_wf wf').
Proof.
  intros Hwf. split_and!.
  - intros sig version desc a wf'.
    apply numbered_wf_workflow in Hwf as (c & -> & Hn).
    destruct (rsplit1 ":"%char sig) as [[pkg name]|] eqn:Hs.
    + rewrite (add_module_spec _ _ _ _ _ _ _ _ Hs). intros [= _ <-].
      eapply step_numbered; [exact Hn | apply add_module_step].
    + intros H. assert (exists e s, add_module sig version desc
                 (workflow (wf_file wf) c (wf_mod_y wf)) = Err e s)
        as (e & s & He); [| by rewrite He in H].
      unfold add_module, split_sig. rewrite Hs. eexists _, _. reflexivity.
  - intros mod_id name params a wf'.
    apply numbered_wf_workflow in Hwf as (c & -> & Hn).
    rewrite add_function_spec. intros [= _ <-].
    eapply step_numbered; [exact Hn | apply add_function_step].
  - intros from_id from_sig from_port to_id to_sig to_port a wf'.
    apply numbered_wf_workflow in Hwf as (c & -> & Hn).
    destruct (rsplit1 ":"%char from_sig) as [[fpkg fname]|] eqn:Hf;
      [destruct (rsplit1 ":"%char to_sig) as [[tpkg tname]|] eqn:Ht |].
    + rewrite (connect_spec _ _ _ _ _ _ _ _ _ _ _ _ _ Hf Ht). intros [= _ <-].
      eapply step_numbered; [exact Hn | apply connect_step].
    + intros H. assert (exists e s, connect from_id from_sig from_port to_id
                 to_sig to_port (workflow (wf_file wf) c (wf_mod_y wf)) = Err e s)
        as (e & s & He); [| by rewrite He in H].
      unfold connect, split_sig. rewrite Hf, Ht. eexists _, _. reflexivity.
    + intros H. assert (exists e s, connect from_id from_sig from_port to_id
                 to_sig to_port (workflow (wf_file wf) c (wf_mod_y wf)) = Err e s)
        as (e & s & He); [| by rewrite He in H].
      unfold connect, split_sig. rewrite Hf. eexists _, _. reflexivity.
  - intros mod_id name type_ sigs optional a wf'.
    apply numbered_wf_workflow in Hwf as (c & -> & Hn).
    rewrite add_port_spec_spec. intros [= _ <-].
    eapply step_numbered; [exact Hn | apply add_port_spec_step].
  - intros a wf'. destruct Hwf as (c & Hi & Hn).
    unfold close, write. intros [= _ <-].
    exists c. split; [done |]. simpl. intros k.
    rewrite ids_of_kind_app, Hn. destruct k; simpl; by rewrite app_nil_r.
Qed.

Lemma workflow_methods_keep_ids_numbered_witness :
  let wf := Workflow_init "2014-11-12 10:00:00" IdScope_init in
  numbered_wf wf /\
  (forall sig version desc a wf',
     add_module sig version desc wf = Ok a wf' -> numbered_wf wf') /\
  (forall mod_id name params a wf',
     add_function mod_id name params wf = Ok a wf' -> numbered_wf wf') /\
  (forall from_id from_sig from_port to_id to_sig to_port a wf',
     connect from_id from_sig from_port to_id to_sig to_port wf = Ok a wf' ->
     numbered_wf wf') /\
  (forall mod_id name type_ sigs optional a wf',
     add_port_spec mod_id name type_ sigs optional wf = Ok a wf' ->
     numbered_wf wf') /\
  (forall a wf', close wf = Ok a wf' -> numbered_wf wf').
Proof.
  intros wf. split; [exists zero; split; [reflexivity | intros []; reflexivity] |].
  apply (workflow_methods_keep_ids_numbered wf).
  exists zero; split; [reflexivity | intros []; reflexivity].
Defined.

(** ** The workflow of do_vistrails *)

Lemma adds_bind {A B} (m : ST Workflow A) (k : A -> ST Workflow B)
    c y a n1 c1 y1 b n2 c2 y2 :
  adds m c y a n1 c1 y1 -> adds (k a) c1 y1 b n2 c2 y2 ->
  adds (bind_s m k) c y b (n1 ++ n2) c2 y2.
Proof.
  intros H1 H2 f. unfold bind_s. by rewrite H1, H2, app_assoc.
Qed.

Lemma adds_ret {A} (a : A) c y : adds (ret_s a) c y a [] c y.
Proof. intros f. unfold ret_s. by rewrite app_nil_r. Qed.

Lemma step_nil c : step c [] c 0 [] [] [].
Proof.
  split_and!; [| simpl; lia | done..].
  intros k. split; [lia |]. by rewrite Nat.sub_diag.
Qed.

Lemma step_module c new c' m cs ls ps :
  step c new c' m cs ls ps -> c_module c' = c_module c + m.
Proof. intros (_ & H & _). exact H. Qed.

Section WithShell.

Variable shell_escape : string -> string.

Lemma port_specs_loop r ports :
  forall i c y,
    exists new c',
      adds (for_enumerate
              (fun _ type_name =>
                 add_port_spec r (snd type_name) (fst type_name)
                   [file_pkg_mod] true)
              i ports) c y tt new c' y /\
      step c new c' 0 [] [] (map (fun tn => (r, fst tn, escape_xml (snd tn))) ports).
Proof.
  induction ports as [|tn ports IH]; intros i c y.
  - exists [], c. split; [apply adds_ret | apply step_nil].
  - simpl.
    match goal with
    | |- context [bind_s ?m ?k] =>
        pose proof (add_port_spec_spec r (snd tn) (fst tn) [file_pkg_mod] true)
          as H1
    end.
    pose proof (add_port_spec_step r (escape_xml (snd tn)) (fst tn) "1"
                  [file_pkg_mod] c) as S1.
    match type of S1 with
    | step _ ?new ?c1 _ _ _ _ =>
        destruct (IH (S i) c1 y) as (n2 & c2 & H2 & S2);
        exists (new ++ n2), c2; split;
        [ eapply adds_bind; [intros f; apply H1 | exact H2]
        | exact (step_app _ _ _ _ _ _ _ _ _ _ _ _ _ S1 S2) ]
    end.
Qed.

Lemma add_run_adds config cf i run c y :
  exists new c',
    adds (add_run shell_escape config cf i run) c y (c_module c) new c'
         (y - 100) /\
    step c new c' 1 [(cf, c_module c)] [(c_module c, y)]
      (map (fun tn => (c_module c, fst tn, escape_xml (snd tn)))
           (ports_of config i)).
Proof.
  unfold add_run. cbv zeta. fold (ports_of config i).
  set (desc := Some (default ("run" +:+ pretty i) (run_id run))).
  pose proof (fun f => add_module_spec (rpz_id +:+ ":Run") rpz_version desc
                rpz_id "Run" f c y eq_refl) as H1.
  pose proof (add_module_step rpz_version desc rpz_id "Run" c y) as S1.
  match type of S1 with
  | step _ ?n1 ?c1 _ _ _ _ =>
      set (cmdline := [(string_sig,
                        String.concat " " (map shell_escape (run_argv run)))]);
      pose proof (fun f => add_function_spec (c_module c) "cmdline" cmdline
                    f c1 (y - 100)) as H2;
      pose proof (add_function_step (c_module c) "cmdline" cmdline c1) as S2
  end.
  match type of S2 with
  | step _ ?n2 ?c2 _ _ _ _ =>
      pose proof (fun f => add_function_spec (c_module c) "run_number"
                    [(integer_sig, pretty i)] f c2 (y - 100)) as H3;
      pose proof (add_function_step (c_module c) "run_number"
                    [(integer_sig, pretty i)] c2) as S3
  end.
  match type of S3 with
  | step _ ?n3 ?c3 _ _ _ _ =>
      destruct (port_specs_loop (c_module c) (ports_of config i) 0 c3 (y - 100))
        as (n4 & c4 & H4 & S4)
  end.
  pose proof (fun f => connect_spec cf experiment_sig "experiment" (c_module c)
                experiment_sig "experiment" rpz_id "Directory" rpz_id
                "Directory" f c4 (y - 100) eq_refl eq_refl) as H5.
  pose proof (connect_step cf experiment_sig "Directory" "experiment"
                (c_module c) experiment_sig "Directory" "experiment" c4) as S5.
  eexists _, _. split.
  - eapply adds_bind; [exact H1 |].
    eapply adds_bind; [exact H2 |].
    eapply adds_bind; [exact H3 |].
    eapply adds_bind; [exact H4 |].
    eapply adds_bind; [exact H5 |].
    apply adds_ret.
  - pose proof (step_app _ _ _ _ _ _ _ _ _ _ _ _ _ S1
                 (step_app _ _ _ _ _ _ _ _ _ _ _ _ _ S2
                   (step_app _ _ _ _ _ _ _ _ _ _ _ _ _ S3
                     (step_app _ _ _ _ _ _ _ _ _ _ _ _ _ S4
                       (step_app _ _ _ _ _ _ _ _ _ _ _ _ _ S5
                          (step_nil _)))))) as S.
    simpl in S. rewrite app_nil_r in S. exact S.
Qed.

Lemma add_runs_adds config l :
  forall cf i c y,
    exists r new c',
      adds (add_runs shell_escape config cf i l) c y r new c'
           (y - 100 * Z.of_nat (length l)) /\
      step c new c' (length l) (run_chain cf (c_module c) l)
        (run_locs (c_module c) y l) (run_ports config i (c_module c) l).
Proof.
  induction l as [|run l IH]; intros cf i c y.
  - exists cf, [], c. split; [| apply step_nil].
    replace (y - 100 * Z.of_nat (length (@nil Run)))%Z with y
      by (simpl length; lia).
    apply adds_ret.
  - destruct (add_run_adds config cf i run c y) as (n1 & c1 & H1 & S1).
    destruct (IH (c_module c) (S i) c1 (y - 100)%Z) as (r & n2 & c2 & H2 & S2).
    exists r, (n1 ++ n2), c2. split.
    + simpl add_runs.
      replace (y - 100 * Z.of_nat (length (run :: l)))%Z
        with (y - 100 - 100 * Z.of_nat (length l))%Z by (simpl length; lia).
      eapply adds_bind; [exact H1 | exact H2].
    + rewrite (step_module _ _ _ _ _ _ _ S1) in S2.
      replace (c_module c + 1) with (S (c_module c)) in S2 by lia.
      exact (step_app _ _ _ _ _ _ _ _ _ _ _ _ _ S1 S2).
Qed.

Lemma write_workflow_spec date target config :
  exists new c' y',
    write_workflow shell_escape date target config =
      Ok tt (workflow (Header date __version__ :: new ++ [Footer]) c' y') /\
    step zero new c' (S (length (runs config)))
      (run_chain 0 1 (runs config))
      ((0, 0%Z) :: run_locs 1 (-100) (runs config))
      (run_ports config 0 1 (runs config)).
Proof.
  unfold write_workflow.
  pose proof (fun f => add_module_spec (rpz_id +:+ ":Directory") rpz_version
                None rpz_id "Directory" f zero 0 eq_refl) as H1.
  pose proof (add_module_step rpz_version None rpz_id "Directory" zero 0) as S1.
  match type of S1 with
  | step _ ?n1 ?c1 _ _ _ _ =>
      pose proof (fun f => add_function_spec 0 "directory"
                    [(directory_sig, target)] f c1 (0 - 100)) as H2;
      pose proof (add_function_step 0 "directory" [(directory_sig, target)] c1)
        as S2
  end.
  match type of S2 with
  | step _ ?n2 ?c2 _ _ _ _ =>
      destruct (add_runs_adds config (runs config) 0 0 c2 (0 - 100))
        as (r & n3 & c3 & H3 & S3)
  end.
  pose proof (step_app _ _ _ _ _ _ _ _ _ _ _ _ _ S1
               (step_app _ _ _ _ _ _ _ _ _ _ _ _ _ S2 S3)) as S.
  eexists _, c3, _. split; [| exact S].
  change (Workflow_init date IdScope_init)
    with (workflow ([] ++ [Header date __version__]) zero 0).
  unfold bind_s at 1. rewrite H1.
  unfold bind_s at 1. rewrite H2.
  unfold bind_s at 1. rewrite H3.
  unfold close, write. simpl. f_equal.
Qed.

Lemma run_chain_seq l :
  forall m, run_chain m (S m) l = map (fun i => (i, S i)) (seq m (length l)).
Proof. induction l as [|r l IH]; intros m; simpl; [done |]. by rewrite IH. Qed.

Lemma run_locs_seq l :
  forall m,
    run_locs m (-100 * Z.of_nat m) l =
    map (fun k => (k, (-100 * Z.of_nat k)%Z)) (seq m (length l)).
Proof.
  induction l as [|r l IH]; intros m; simpl; [done |].
  f_equal. rewrite <- IH. f_equal. lia.
Qed.

Lemma run_ports_seq config l :
  forall i,
    run_ports config i (S i) l =
    flat_map
      (fun i =>
         map (fun p => (S i, "input", escape_xml p)) (inputs_of config i) ++
         map (fun p => (S i, "output", escape_xml p)) (outputs_of config i))
      (seq i (length l)).
Proof.
  induction l as [|r l IH]; intros i; simpl; [done |].
  rewrite IH. f_equal. unfold ports_of. by rewrite map_app, !map_map.
Qed.

Lemma footer_plain k new :
  ids_of_kind k (new ++ [Footer]) = ids_of_kind k new /\
  connections (new ++ [Footer]) = connections new /\
  locations (new ++ [Footer]) = locations new /\
  portspecs (new ++ [Footer]) = portspecs new.
Proof.
  rewrite ids_of_kind_app, connections_app, locations_app, portspecs_app.
  split_and!; try apply app_nil_r. destruct k; apply app_nil_r.
Qed.

(** For any configuration, [do_vistrails] writes its workflow without an
    error of the [Workflow] methods, and in the file written the ids of
    every kind (add, module, location, annotation, function, parameter,
    connection, port, portSpec, portSpecItem) are 0, 1, 2, ... in the
    order of the file: no id is used twice and none is skipped. *)
Theorem write_workflow_ids_numbered date target config :
  exists wf,
    write_workflow shell_escape date target config = Ok tt wf /\
    numbered_wf wf.
Proof.
  destruct (write_workflow_spec date target config)
    as (new & c' & y' & -> & (Hf & _)).
  eexists. split; [reflexivity |]. exists c'. split; [reflexivity |].
  simpl. intros k.
  change (Header date __version__ :: new ++ [Footer])
    with ([Header date __version__] ++ new ++ [Footer]).
  rewrite ids_of_kind_app. destruct (footer_plain k new) as (-> & _).
  rewrite <- ids_of_kind_app.
  apply (numbered_fresh [Header date __version__] zero new c');
    [by intros [] | exact Hf].
Qed.

(** The workflow [do_vistrails] writes for a configuration of n runs has
    the n + 1 modules 0, 1, ..., n (the directory, then the runs in their
    order) and the n connections 0 -> 1, 1 -> 2, ..., n-1 -> n: every run
    is connected from the module before it, the first one from the
    directory. *)
Theorem write_workflow_chain date target config :
  exists wf,
    write_workflow shell_escape date target config = Ok tt wf /\
    ids_of_kind k_module (wf_file wf) = seq 0 (S (length (runs config))) /\
    connections (wf_file wf) =
      map (fun i => (i, S i)) (seq 0 (length (runs config))).
Proof.
  destruct (write_workflow_spec date target config)
    as (new & c' & y' & -> & (Hf & Hm & Hc & _)).
  eexists. split; [reflexivity |]. simpl wf_file.
  change (Header date __version__ :: new ++ [Footer])
    with ([Header date __version__] ++ new ++ [Footer]).
  rewrite ids_of_kind_app, connections_app.
  destruct (footer_plain k_module new) as (-> & -> & _).
  destruct (Hf k_module) as (_ & ->). rewrite Hc, Hm. simpl.
  split; [| apply run_chain_seq].
  by replace (S (length (runs config)) - 0) with (S (length (runs config)))
    by lia.
Qed.

(** In the workflow [do_vistrails] writes, module k is placed at
    y = -100 * k (and x = 0.0): the directory at 0, the runs below it in
    their order, 100 apart. *)
Theorem write_workflow_layout date target config :
  exists wf,
    write_workflow shell_escape date target config = Ok tt wf /\
    locations (wf_file wf) =
      map (fun k => (k, (-100 * Z.of_nat k)%Z))
          (seq 0 (S (length (runs config)))).
Proof.
  destruct (write_workflow_spec date target config)
    as (new & c' & y' & -> & (_ & _ & _ & Hl & _)).
  eexists. split; [reflexivity |]. simpl wf_file.
  change (Header date __version__ :: new ++ [Footer])
    with ([Header date __version__] ++ new ++ [Footer]).
  rewrite locations_app.
  destruct (footer_plain k_module new) as (_ & _ & -> & _).
  rewrite Hl. simpl. f_equal. apply (run_locs_seq (runs config) 1).
Qed.

(** In the workflow [do_vistrails] writes, the port specifications are,
    run after run, those of the module of the run (run i is module i + 1):
    an input port for every file of [inputs_outputs] that run i reads, in
    the sorted order of the names, then an output port for every file it
    writes, in sorted order, with the names escaped for XML. *)
Theorem write_workflow_ports date target config :
  exists wf,
    write_workflow shell_escape date target config = Ok tt wf /\
    portspecs (wf_file wf) =
      flat_map
        (fun i =>
           map (fun p => (S i, "input", escape_xml p)) (inputs_of config i) ++
           map (fun p => (S i, "output", escape_xml p)) (outputs_of config i))
        (seq 0 (length (runs config))).
Proof.
  destruct (write_workflow_spec date target config)
    as (new & c' & y' & -> & (_ & _ & _ & _ & Hp)).
  eexists. split; [reflexivity |]. simpl wf_file.
  change (Header date __version__ :: new ++ [Footer])
    with ([Header date __version__] ++ new ++ [Footer]).
  rewrite portspecs_app.
  destruct (footer_plain k_module new) as (_ & _ & _ & ->).
  rewrite Hp. apply run_ports_seq.
Qed.

End WithShell.

End WorkflowFacts.
